(** * SecureWatch unified detection engine: segmentation, delivery, alert gate

    A shallow embedding of [backend-analysis/detect_engine.py]
    (class [SecureWatchDetector]) and the properties of its episode
    segmenter, its delivery paths, its alert gate and its start-up sequence.

    Conventions of the embedding.
    - Python floats that the code only adds, subtracts and compares
      ([time.time()], confidences) are rationals [Q]; the roundings
      [round(conf, 3)], [round(b, 1)] are taken as already applied to the
      values the detection model hands over. The one float division,
      [frame_count / fps] in file mode, is rounded to the nearest double.
    - Strings are byte strings; [str.lower()] and [str.upper()] are the
      ASCII case maps, which is what Python computes on ASCII strings.
    - What the collaborators answer (the camera, the model, Redis, the HTTP
      endpoint, the Telegram notifier) is an explicit argument of the function
      that asks; what the code does to them is returned as a list of effects
      in program order.
    - [self.running] turning false is the end of the list of loop inputs.
    - Of the calls made inside a loop body, the detection call is the one
      given a failing answer (it raises); drawing, encoding and file writes
      are taken to return. *)

From Stdlib Require Import Ascii String QArith Lqa Sorted.
From stdpp Require Import gmap strings list pretty.

Open Scope string_scope.
Open Scope list_scope.

(** ** Strings: [str.lower()] and [str.upper()] on ASCII class and mode names

    On a string of ASCII characters Python's [lower] and [upper] change the
    letters a-z / A-Z and nothing else, as [lower] and [upper] do here.
    Beyond ASCII Python follows Unicode (the dotless i, U+0131, upper-cases
    to [I]), which these two functions do not: what is stated of
    [mode.upper()] is stated of mode arguments that satisfy [isascii]. *)

Definition lower_ascii (c : ascii) : ascii :=
  let n := nat_of_ascii c in
  if (65 <=? n)%nat && (n <=? 90)%nat then ascii_of_nat (n + 32) else c.

Definition upper_ascii (c : ascii) : ascii :=
  let n := nat_of_ascii c in
  if (97 <=? n)%nat && (n <=? 122)%nat then ascii_of_nat (n - 32) else c.

Fixpoint lower (s : string) : string :=
  match s with
  | EmptyString => EmptyString
  | String c r => String (lower_ascii c) (lower r)
  end.

Fixpoint upper (s : string) : string :=
  match s with
  | EmptyString => EmptyString
  | String c r => String (upper_ascii c) (upper r)
  end.

(** [str.isascii()]: every character is below U+0080, that is, every byte
    of the string is. *)
Definition isascii (s : string) : bool :=
  forallb (fun c => (nat_of_ascii c <? 128)%nat) (list_ascii_of_string s).

(** Python truthiness of an [Optional[str]]: [None] and [''] are false. *)
Definition truthy (o : option string) : bool :=
  match o with
  | Some s => negb (String.eqb s "")
  | None => false
  end.

(** ** Rational comparisons as the code writes them *)

Definition Qlt_bool (x y : Q) : bool := negb (Qle_bool y x).
Definition Qge_bool (x y : Q) : bool := Qle_bool y x.

(** ** Float division

    [self.frame_count / fps] is Python's true division of an [int]. By a
    [float], the integer is converted to the nearest double and the quotient
    of the two doubles is rounded to the nearest double; by an [int], the
    exact quotient is rounded to the nearest double. Ties go to the even
    significand (IEEE 754 binary64: 53 significant bits, least exponent
    -1074). The doubles are the rationals they denote; a magnitude of 2^1024
    or more, which has no finite double, is out of the range of
    [round_double]. *)

(** [n / d] rounded to the nearest integer, ties to even ([0 <= n], [0 < d]). *)
Definition round_half_even (n d : Z) : Z :=
  let q := (n / d)%Z in
  match (2 * (n mod d) ?= d)%Z with
  | Lt => q
  | Gt => (q + 1)%Z
  | Eq => if Z.even q then q else (q + 1)%Z
  end.

(** The exponent [e] with [2^e <= n / d < 2^(e+1)] ([0 < n], [0 < d]). *)
Definition binade (n d : Z) : Z :=
  let e := (Z.log2 n - Z.log2 d)%Z in
  if (n * 2 ^ Z.max 0 (- e) <? d * 2 ^ Z.max 0 e)%Z then (e - 1)%Z else e.

(** The double nearest to [q]: a multiple of [2^(e-52)], where [e] is the
    exponent of [q] or -1022 if that is larger (the subnormal range). *)
Definition round_double (q : Q) : Q :=
  let n := Z.abs (Qnum q) in
  let d := Zpos (Qden q) in
  if (n =? 0)%Z then 0%Q
  else
    let s := (52 - Z.max (binade n d) (-1022))%Z in
    let m := round_half_even (n * 2 ^ Z.max 0 s) (d * 2 ^ Z.max 0 (- s)) in
    Qred (Qmake (Z.sgn (Qnum q) * m * 2 ^ Z.max 0 (- s))
                (Z.to_pos (2 ^ Z.max 0 s))).

(** A divisor: an [int] or a [float]. *)
Inductive Num :=
| PyInt (z : Z)
| PyFloat (q : Q).

(** [n / x] for an [int] [n] and a divisor [x] other than zero. *)
Definition truediv (n : nat) (x : Num) : Q :=
  match x with
  | PyInt z => round_double (inject_Z (Z.of_nat n) / inject_Z z)
  | PyFloat q => round_double (round_double (inject_Z (Z.of_nat n)) / q)
  end.

(** ** Data model *)

(** A frame is an opaque pixel buffer with a shape. *)
Record Frame := mkFrame {
  frame_height : nat;
  frame_width : nat;
  frame_pixels : N
}.

(** One box of the model's raw result: [box.cls[0]], [box.conf[0]],
    [box.xyxy[0]]. *)
Record RawBox := mkRawBox {
  box_cls : nat;
  box_conf : Q;
  box_xyxy : list Q
}.

(** The dictionaries [_detect_frame] returns. *)
Record Detection := mkDetection {
  det_class : string;
  det_confidence : Q;
  det_bbox : list Q;
  det_class_id : nat
}.

(** [{'label', 'confidence', 'bbox'}], the per-frame detection entry of an
    episode frame and of a per-frame event ([bbox_normalized], a rounded float
    quotient, is left out). *)
Record Box := mkBox {
  label : string;
  confidence : Q;
  bbox : list Q
}.

(** The dictionaries appended to [active_frames] / [episode_frames]. *)
Record FrameRecord := mkFrameRecord {
  seq : nat;
  image : Frame;
  detections : list Box;
  timestamp : Q;
  frame_number : nat
}.

(** The per-frame event built by [_create_episode_data] (the wall-clock
    ['timestamp'] string and the constant ['engine'], ['model'] fields are
    left out). *)
Record EpisodeData := mkEpisodeData {
  ed_mode : string;
  ed_camera_id : string;
  ed_frame_number : nat;
  ed_frame_dimensions : nat * nat;
  ed_detections : list Box;
  ed_detection_count : nat;
  ed_frame_image : option Frame
}.

(** The episode payload built by [_serialize_episode] and marked
    ['type': 'episode'] by [_send_episode]. *)
Record EpisodePayload := mkEpisodePayload {
  ep_source_type : string;
  ep_camera_id : string;
  ep_duration_sec : Q;
  ep_frames : list (nat * Frame * list Box);
  ep_yolo_detections : gmap string nat
}.

Inductive Payload :=
| DetectionJson (d : EpisodeData)
| EpisodeJson (e : EpisodePayload).

(** The fields of [self] the pipeline reads and writes. *)
Record Detector := mkDetector {
  mode : string;
  cam_id : string;
  endpoint : option string;
  redis_client : bool;
  class_names : gmap nat string;
  frame_count : nat;
  detection_count : nat;
  last_alert_time : Q
}.

Definition set_frame_count (n : nat) (self : Detector) : Detector :=
  mkDetector (mode self) (cam_id self) (endpoint self) (redis_client self)
    (class_names self) n (detection_count self) (last_alert_time self).

Definition set_detection_count (n : nat) (self : Detector) : Detector :=
  mkDetector (mode self) (cam_id self) (endpoint self) (redis_client self)
    (class_names self) (frame_count self) n (last_alert_time self).

Definition set_last_alert_time (t : Q) (self : Detector) : Detector :=
  mkDetector (mode self) (cam_id self) (endpoint self) (redis_client self)
    (class_names self) (frame_count self) (detection_count self) t.

(** Class constants. *)
Definition ALLOWED_CLASSES : list string :=
  ["person"; "car"; "truck"; "motorcycle"; "bicycle"; "bus"].
Definition FILE_FRAME_SKIP : nat := 10.
Definition LIVE_FRAME_SKIP : nat := 3.
Definition ALERT_COOLDOWN : Q := 30.
Definition ALERT_CONFIDENCE_THRESHOLD : Q := 7 # 10.

(** ** Effects *)

(** Lines written to stderr that the claims talk about. *)
Inductive LogLine :=
| LogRedisError
| LogPostFailed (status : nat)
| LogPostError
| LogEpisodeSentRedis (frames : nat)
| LogNoEndpoint
| LogEpisodeSent (frames : nat)
| LogEpisodeSendFailed (status : nat)
| LogEpisodeTimedOut
| LogEpisodeConnectionError
| LogEpisodeSendError
| LogAlertSent
| LogAlertFailed.

Inductive IO :=
| io_lpush (key : string) (json_data : Payload)
| io_publish (channel : string) (json_data : Payload)
| io_post (url : string) (json : Payload) (timeout : nat)
| io_send_alert (caption : string) (conf : Q)
| io_log (line : LogLine).

(** What Redis answers to one command: it returns, or raises a
    [redis.RedisError]. *)
Inductive RedisOutcome := RedisOk | RedisError.

(** What [requests.post] answers: a response with a status code, or one of
    the [requests.RequestException]s. *)
Inductive HttpOutcome :=
| HttpResponse (status_code : nat)
| HttpTimeout
| HttpConnectionError
| HttpRequestException.

Record Transport := mkTransport {
  lpush_outcome : RedisOutcome;
  publish_outcome : RedisOutcome;
  post_outcome : HttpOutcome
}.

(** What [send_alert] does: returns, or raises. *)
Inductive AlertOutcome := AlertReturned | AlertRaised.

(** ** Delivery subsystem *)

(** [_post_detection]: Redis when connected, HTTP POST otherwise or when a
    Redis command raises. *)
Definition _post_detection (self : Detector) (data : EpisodeData)
    (tr : Transport) : list IO :=
  let http_fallback :=
    if negb (truthy (endpoint self)) then []
    else
      io_post (default "" (endpoint self)) (DetectionJson data) 5 ::
      match post_outcome tr with
      | HttpResponse status_code =>
          if negb (status_code =? 200)%nat
          then [io_log (LogPostFailed status_code)] else []
      | _ =>
          if String.eqb (mode self) "UPLOAD" then [io_log LogPostError] else []
      end in
  if redis_client self then
    io_lpush "detection_queue" (DetectionJson data) ::
    match lpush_outcome tr with
    | RedisOk =>
        io_publish "live_events" (DetectionJson data) ::
        match publish_outcome tr with
        | RedisOk => []
        | RedisError => io_log LogRedisError :: http_fallback
        end
    | RedisError => io_log LogRedisError :: http_fallback
    end
  else http_fallback.

(** [_serialize_episode] ([duration_sec] before its rounding to 3 places). *)
Definition _serialize_episode (self : Detector) (frames : list FrameRecord)
    (detections_summary : gmap string nat) : EpisodePayload :=
  let duration_sec :=
    if (2 <=? length frames)%nat then
      match head frames, last frames with
      | Some first, Some lst => (timestamp lst - timestamp first)%Q
      | _, _ => 0%Q
      end
    else 0%Q in
  let serialized_frames :=
    map (fun frame_data =>
           (seq frame_data, image frame_data, detections frame_data)) frames in
  mkEpisodePayload
    (if String.eqb (mode self) "LIVE" then "live_stream" else "file_upload")
    (cam_id self) duration_sec serialized_frames detections_summary.

(** [_send_episode]: the list of effects and the returned boolean. *)
Definition _send_episode (self : Detector) (frames : list FrameRecord)
    (detections_summary : gmap string nat) (tr : Transport) : list IO * bool :=
  let payload := EpisodeJson (_serialize_episode self frames detections_summary) in
  let http_fallback :=
    if negb (truthy (endpoint self)) then ([io_log LogNoEndpoint], false)
    else
      match post_outcome tr with
      | HttpResponse status_code =>
          if (status_code =? 200)%nat
          then ([io_post (default "" (endpoint self)) payload 3;
                 io_log (LogEpisodeSent (length frames))], true)
          else ([io_post (default "" (endpoint self)) payload 3;
                 io_log (LogEpisodeSendFailed status_code)], false)
      | HttpTimeout =>
          ([io_post (default "" (endpoint self)) payload 3;
            io_log LogEpisodeTimedOut], false)
      | HttpConnectionError =>
          ([io_post (default "" (endpoint self)) payload 3;
            io_log LogEpisodeConnectionError], false)
      | HttpRequestException =>
          ([io_post (default "" (endpoint self)) payload 3;
            io_log LogEpisodeSendError], false)
      end in
  if redis_client self then
    match lpush_outcome tr with
    | RedisOk =>
        match publish_outcome tr with
        | RedisOk =>
            ([io_lpush "detection_queue" payload;
              io_publish "live_events" payload;
              io_log (LogEpisodeSentRedis (length frames))], true)
        | RedisError =>
            ([io_lpush "detection_queue" payload;
              io_publish "live_events" payload;
              io_log LogRedisError] ++ fst http_fallback, snd http_fallback)
        end
    | RedisError =>
        ([io_lpush "detection_queue" payload; io_log LogRedisError]
           ++ fst http_fallback, snd http_fallback)
    end
  else http_fallback.

(** ** Detection adapter *)

(** The inner loop of [_detect_frame] over the boxes of one result. *)
Fixpoint detect_boxes (self : Detector) (boxes : list RawBox)
    (detections : list Detection) : Detector * list Detection :=
  match boxes with
  | [] => (self, detections)
  | box :: rest =>
      let cls_id := box_cls box in
      let cls_name :=
        default ("class_" +:+ pretty cls_id) (class_names self !! cls_id) in
      if negb (bool_decide (cls_name ∈ ALLOWED_CLASSES))
      then detect_boxes self rest detections
      else
        detect_boxes
          (set_detection_count (detection_count self + 1) self) rest
          (detections ++
             [mkDetection cls_name (box_conf box) (box_xyxy box) cls_id])
  end.

(** The outer loop over the results; [result.boxes] may be [None]. *)
Fixpoint detect_results (self : Detector)
    (results : list (option (list RawBox)))
    (detections : list Detection) : Detector * list Detection :=
  match results with
  | [] => (self, detections)
  | None :: rest => detect_results self rest detections
  | Some boxes :: rest =>
      let '(self1, detections1) := detect_boxes self boxes detections in
      detect_results self1 rest detections1
  end.

Definition _detect_frame (self : Detector)
    (results : list (option (list RawBox))) : Detector * list Detection :=
  detect_results self results [].

(** [_create_episode_data]; the frame image is attached for a person or a
    car (the drawn boxes and the JPEG encoding are kept opaque). *)
Definition _create_episode_data (self : Detector) (detections : list Detection)
    (frame : Frame) : EpisodeData :=
  let detection_list :=
    map (fun det => mkBox (det_class det) (det_confidence det) (det_bbox det))
        detections in
  let has_relevant :=
    existsb (fun det =>
               bool_decide (lower (det_class det) ∈ ["person"; "car"]))
            detections in
  mkEpisodeData (mode self) (cam_id self) (frame_count self)
    (frame_width frame, frame_height frame) detection_list
    (length detection_list)
    (if has_relevant then Some frame else None).

(** ** Alert gate *)

(** The [for det in detections] loop of [_send_telegram_alert]: the first
    high-confidence person triggers one [send_alert] and the [break]. *)
Fixpoint alert_scan (self : Detector) (current_time : Q)
    (detections : list Detection) (send : AlertOutcome) : Detector * list IO :=
  match detections with
  | [] => (self, [])
  | det :: rest =>
      if String.eqb (lower (det_class det)) "person"
         && Qge_bool (det_confidence det) ALERT_CONFIDENCE_THRESHOLD
      then
        match send with
        | AlertReturned =>
            (set_last_alert_time current_time self,
             [io_send_alert ("Person on " +:+ cam_id self) (det_confidence det);
              io_log LogAlertSent])
        | AlertRaised =>
            (self,
             [io_send_alert ("Person on " +:+ cam_id self) (det_confidence det);
              io_log LogAlertFailed])
        end
      else alert_scan self current_time rest send
  end.

(** [_send_telegram_alert]; [current_time] is the [time.time()] it reads and
    [send] what [send_alert] does if it is called. *)
Definition _send_telegram_alert (TELEGRAM_ENABLED : bool) (self : Detector)
    (detections : list Detection) (current_time : Q) (send : AlertOutcome)
    : Detector * list IO :=
  if negb TELEGRAM_ENABLED then (self, [])
  else if Qlt_bool (current_time - last_alert_time self) ALERT_COOLDOWN
  then (self, [])
  else alert_scan self current_time detections send.

(** ** Episode segmenter *)

(** The local variables of [_process_stream] and [_http_polling_session]. *)
Record Session := mkSession {
  active_frames : list FrameRecord;
  detections_summary : gmap string nat;
  silence_counter : nat;
  episode_start_time : option Q;
  episode_count : nat;
  consecutive_failures : nat
}.

Definition initial_session : Session := mkSession [] ∅ 0 None 0 0.

Definition set_consecutive_failures (n : nat) (loc : Session) : Session :=
  mkSession (active_frames loc) (detections_summary loc) (silence_counter loc)
    (episode_start_time loc) (episode_count loc) n.

(** What one processed frame makes the collaborators answer. *)
Record Tick := mkTick {
  tick_time : Q;
  tick_results : option (list (option (list RawBox)));
  tick_post : Transport;
  tick_alert_time : Q;
  tick_alert : AlertOutcome;
  tick_send : Transport
}.

(** What the pipeline emits, call by call. *)
Inductive Output :=
| Stdout (data : EpisodeData)
| PostDetection (data : EpisodeData) (io : list IO)
| TelegramAlert (io : list IO)
| SendEpisode (frames : list FrameRecord) (summary : gmap string nat)
    (io : list IO) (sent : bool).

(** [detections_summary[cls_name] = detections_summary.get(cls_name, 0) + 1]
    for every detection of the frame. *)
Definition count_classes (summary : gmap string nat)
    (detections : list Detection) : gmap string nat :=
  foldl (fun m det =>
           <[det_class det := default 0 (m !! det_class det) + 1]> m)
        summary detections.

Definition frame_boxes (detections : list Detection) : list Box :=
  map (fun det => mkBox (det_class det) (det_confidence det) (det_bbox det))
      detections.

(** Python truthiness of a list. *)
Definition nonempty {A} (l : list A) : bool :=
  match l with [] => false | _ => true end.

(** The body of both live loops from [if has_detections:] on
    ([_process_stream] lines 373-449, [_http_polling_session] lines 553-626),
    which differ in the two thresholds only. *)
Definition segment (SILENCE_THRESHOLD MAX_EPISODE_FRAMES : nat)
    (TELEGRAM_ENABLED : bool) (self : Detector) (loc : Session)
    (frame : Frame) (detections : list Detection) (k : Tick)
    : Detector * Session * list Output :=
  let current_time := tick_time k in
  if (0 <? length detections)%nat then
    let start_time :=
      match episode_start_time loc with
      | None => Some current_time
      | Some t => Some t
      end in
    let episode_data := _create_episode_data self detections frame in
    let post_io := _post_detection self episode_data (tick_post k) in
    let '(self1, alert_io) :=
      _send_telegram_alert TELEGRAM_ENABLED self detections
        (tick_alert_time k) (tick_alert k) in
    let summary := count_classes (detections_summary loc) detections in
    let frames :=
      active_frames loc ++
      [mkFrameRecord (length (active_frames loc)) frame
         (frame_boxes detections) current_time (frame_count self)] in
    let emitted :=
      [Stdout episode_data; PostDetection episode_data post_io;
       TelegramAlert alert_io] in
    if (MAX_EPISODE_FRAMES <=? length frames)%nat then
      let '(io, sent) := _send_episode self1 frames summary (tick_send k) in
      (self1,
       mkSession [] ∅ 0 (Some current_time) (episode_count loc + 1)
         (consecutive_failures loc),
       emitted ++ [SendEpisode frames summary io sent])
    else
      (self1,
       mkSession frames summary 0 start_time (episode_count loc)
         (consecutive_failures loc),
       emitted)
  else
    let silence := silence_counter loc + 1 in
    if (SILENCE_THRESHOLD <=? silence)%nat && nonempty (active_frames loc) then
      let '(io, sent) :=
        _send_episode self (active_frames loc) (detections_summary loc)
          (tick_send k) in
      (self,
       mkSession [] ∅ 0 None (episode_count loc + 1) (consecutive_failures loc),
       [SendEpisode (active_frames loc) (detections_summary loc) io sent])
    else
      (self,
       mkSession (active_frames loc) (detections_summary loc) silence
         (episode_start_time loc) (episode_count loc)
         (consecutive_failures loc),
       []).

(** ** Live stream session: [_process_stream] *)

Definition STREAM_SILENCE_THRESHOLD : nat := 15.
Definition STREAM_MAX_EPISODE_FRAMES : nat := 300.
Definition max_failures : nat := 30.

(** What [self.cap.read()] returns in one loop iteration. *)
Inductive Read :=
| ReadFailed
| ReadFrame (frame : Frame) (k : Tick).

Inductive Exn :=
| RuntimeError_too_many_failures
| DetectionError
| RuntimeError_open_failed
| ValueError_unknown_mode.

(** One iteration of the [while] body; the boolean tells that the detection
    call raised. *)
Definition stream_body (TELEGRAM_ENABLED : bool) (self : Detector)
    (loc : Session) (r : Read) : Detector * Session * list Output * bool :=
  match r with
  | ReadFailed =>
      (self, set_consecutive_failures (consecutive_failures loc + 1) loc,
       [], false)
  | ReadFrame frame k =>
      let loc0 := set_consecutive_failures 0 loc in
      let self0 := set_frame_count (frame_count self + 1) self in
      if negb (frame_count self0 mod LIVE_FRAME_SKIP =? 0)%nat
      then (self0, loc0, [], false)
      else
        match tick_results k with
        | None => (self0, loc0, [], true)
        | Some results =>
            let '(self1, detections) := _detect_frame self0 results in
            (segment STREAM_SILENCE_THRESHOLD STREAM_MAX_EPISODE_FRAMES
               TELEGRAM_ENABLED self1 loc0 frame detections k, false)
        end
  end.

(** [while self.running and consecutive_failures < max_failures]. *)
Fixpoint stream_loop (TELEGRAM_ENABLED : bool) (self : Detector)
    (loc : Session) (reads : list Read)
    : Detector * Session * list Output * bool :=
  match reads with
  | [] => (self, loc, [], false)
  | r :: rest =>
      if (consecutive_failures loc <? max_failures)%nat then
        let '(self1, loc1, outs, raised) :=
          stream_body TELEGRAM_ENABLED self loc r in
        if raised then (self1, loc1, outs, true)
        else
          let '(self2, loc2, outs', raised') :=
            stream_loop TELEGRAM_ENABLED self1 loc1 rest in
          (self2, loc2, outs ++ outs', raised')
      else (self, loc, [], false)
  end.

(** The flush written three times in the source:
    [if active_frames: self._send_episode(...); episode_count += 1],
    which leaves [active_frames] as it is. *)
Definition send_pending (self : Detector) (loc : Session) (tr : Transport)
    : Session * list Output :=
  if nonempty (active_frames loc) then
    let '(io, sent) :=
      _send_episode self (active_frames loc) (detections_summary loc) tr in
    (mkSession (active_frames loc) (detections_summary loc)
       (silence_counter loc) (episode_start_time loc) (episode_count loc + 1)
       (consecutive_failures loc),
     [SendEpisode (active_frames loc) (detections_summary loc) io sent])
  else (loc, []).

(** [_process_stream]: the loop, the disconnect handling after it, and the
    [finally] block. [pending] and [final] are the transport's answers to the
    two flushes. *)
Definition _process_stream (TELEGRAM_ENABLED : bool) (self : Detector)
    (reads : list Read) (pending final : Transport)
    : Detector * Session * list Output * option Exn :=
  let '(self1, loc1, outs, raised) :=
    stream_loop TELEGRAM_ENABLED self initial_session reads in
  let '(loc2, outs2, exn) :=
    if raised then (loc1, [], Some DetectionError)
    else if (max_failures <=? consecutive_failures loc1)%nat then
      let '(loc2, outs2) := send_pending self1 loc1 pending in
      (loc2, outs2, Some RuntimeError_too_many_failures)
    else (loc1, [], None) in
  let '(loc3, outs3) := send_pending self1 loc2 final in
  (self1, loc3, outs ++ outs2 ++ outs3, exn).

(** ** HTTP polling session: [_http_polling_session] *)

Definition POLL_SILENCE_THRESHOLD : nat := 6.
Definition POLL_MAX_EPISODE_FRAMES : nat := 120.
Definition MAX_FAILURES : nat := 20.

(** What [_fetch_http_snapshot] returns in one loop iteration. *)
Inductive Poll :=
| FetchNone
| Snapshot (frame : Frame) (k : Tick).

(** One iteration; an exception of the detection call is caught by the inner
    [except Exception] and counted as a failure. *)
Definition polling_body (TELEGRAM_ENABLED : bool) (self : Detector)
    (loc : Session) (p : Poll) : Detector * Session * list Output :=
  match p with
  | FetchNone =>
      (self, set_consecutive_failures (consecutive_failures loc + 1) loc, [])
  | Snapshot frame k =>
      let loc0 := set_consecutive_failures 0 loc in
      let self0 := set_frame_count (frame_count self + 1) self in
      match tick_results k with
      | None =>
          (self0,
           set_consecutive_failures (consecutive_failures loc0 + 1) loc0, [])
      | Some results =>
          let '(self1, detections) := _detect_frame self0 results in
          segment POLL_SILENCE_THRESHOLD POLL_MAX_EPISODE_FRAMES
            TELEGRAM_ENABLED self1 loc0 frame detections k
      end
  end.

Fixpoint polling_loop (TELEGRAM_ENABLED : bool) (self : Detector)
    (loc : Session) (polls : list Poll) : Detector * Session * list Output :=
  match polls with
  | [] => (self, loc, [])
  | p :: rest =>
      if (consecutive_failures loc <? MAX_FAILURES)%nat then
        let '(self1, loc1, outs) :=
          polling_body TELEGRAM_ENABLED self loc p in
        let '(self2, loc2, outs') :=
          polling_loop TELEGRAM_ENABLED self1 loc1 rest in
        (self2, loc2, outs ++ outs')
      else (self, loc, [])
  end.

Definition _http_polling_session (TELEGRAM_ENABLED : bool) (self : Detector)
    (polls : list Poll) (final : Transport)
    : Detector * Session * list Output * option Exn :=
  let '(self1, loc1, outs) :=
    polling_loop TELEGRAM_ENABLED self initial_session polls in
  let exn :=
    if (MAX_FAILURES <=? consecutive_failures loc1)%nat
    then Some RuntimeError_too_many_failures else None in
  let '(loc2, outs2) := send_pending self1 loc1 final in
  (self1, loc2, outs ++ outs2, exn).

(** ** File mode: [_run_file_loop] *)

(** One iteration of the file loop on a frame that was read: the state is
    [self], [episode_frames] and [detections_summary]. [fps] is the frame
    rate the loop divides by. *)
Definition file_body (TELEGRAM_ENABLED : bool) (fps : Num) (self : Detector)
    (episode_frames : list FrameRecord) (summary : gmap string nat)
    (frame : Frame) (k : Tick)
    : Detector * list FrameRecord * gmap string nat * list Output * bool :=
  let self0 := set_frame_count (frame_count self + 1) self in
  if negb (frame_count self0 mod FILE_FRAME_SKIP =? 0)%nat
  then (self0, episode_frames, summary, [], false)
  else
    match tick_results k with
    | None => (self0, episode_frames, summary, [], true)
    | Some results =>
        let '(self1, detections) := _detect_frame self0 results in
        let frame_timestamp := truediv (frame_count self1) fps in
        if nonempty detections then
          let episode_data := _create_episode_data self1 detections frame in
          let post_io := _post_detection self1 episode_data (tick_post k) in
          let '(self2, alert_io) :=
            _send_telegram_alert TELEGRAM_ENABLED self1 detections
              (tick_alert_time k) (tick_alert k) in
          (self2,
           episode_frames ++
             [mkFrameRecord (length episode_frames) frame
                (frame_boxes detections) frame_timestamp (frame_count self1)],
           count_classes summary detections,
           [Stdout episode_data; PostDetection episode_data post_io;
            TelegramAlert alert_io],
           false)
        else (self1, episode_frames, summary, [], false)
    end.

Fixpoint file_loop (TELEGRAM_ENABLED : bool) (fps : Num) (self : Detector)
    (episode_frames : list FrameRecord) (summary : gmap string nat)
    (reads : list (Frame * Tick))
    : Detector * list FrameRecord * gmap string nat * list Output * bool :=
  match reads with
  | [] => (self, episode_frames, summary, [], false)
  | (frame, k) :: rest =>
      let '(self1, frames1, summary1, outs, raised) :=
        file_body TELEGRAM_ENABLED fps self episode_frames summary frame k in
      if raised then (self1, frames1, summary1, outs, true)
      else
        let '(self2, frames2, summary2, outs', raised') :=
          file_loop TELEGRAM_ENABLED fps self1 frames1 summary1 rest in
        (self2, frames2, summary2, outs ++ outs', raised')
  end.

(** [_run_file_loop]: [opened] is [self.cap.isOpened()], [cap_fps] what
    [self.cap.get(cv2.CAP_PROP_FPS)] returns ([fps] is [cap_fps or 30]), and
    the list ends where [read()] reports the end of the file (or
    [self.running] is cleared). The accumulated episode is sent after the
    loop, inside the [try]; the [finally] block only releases the capture. *)
Definition _run_file_loop (TELEGRAM_ENABLED : bool) (cap_fps : Q)
    (self : Detector) (opened : bool) (reads : list (Frame * Tick))
    (final : Transport) : Detector * list Output * option Exn :=
  if negb opened then (self, [], Some RuntimeError_open_failed)
  else
    let fps := if Qeq_bool cap_fps 0 then PyInt 30 else PyFloat cap_fps in
    let '(self1, episode_frames, summary, outs, raised) :=
      file_loop TELEGRAM_ENABLED fps self [] ∅ reads in
    if raised then (self1, outs, Some DetectionError)
    else if nonempty episode_frames then
      let '(io, sent) := _send_episode self1 episode_frames summary final in
      (self1, outs ++ [SendEpisode episode_frames summary io sent], None)
    else (self1, outs, None).

(** ** Start-up: [parse_args], [__init__], [start] *)

(** What start-up does to the outside world, in program order. *)
Inductive Startup :=
| RedisConnect (host : string) (port : N)
| SignalHandlersRegistered
| ModelLoaded
| HeartbeatThreadStarted
| SourceLoopEntered (m : string)
| CleanupDone.

(** [__init__]: [ping] tells whether the Redis connection test returns (it
    raises [redis.ConnectionError] otherwise) and [names] is [model.names].
    The stored mode is [mode.upper()], which [upper] gives for a mode
    argument that satisfies [isascii]. *)
Definition __init__ (REDIS_AVAILABLE : bool) (mode_arg : string)
    (cam_id_arg : string) (endpoint_arg redis_host : option string)
    (redis_port : N) (ping : bool) (names : gmap nat string)
    : Detector * list Startup :=
  let '(client, connect) :=
    if truthy redis_host && REDIS_AVAILABLE
    then (ping, [RedisConnect (default "" redis_host) redis_port])
    else (false, []) in
  (mkDetector (upper mode_arg) cam_id_arg endpoint_arg client names 0 0 0%Q,
   connect ++ [SignalHandlersRegistered; ModelLoaded]).

(** [_start_heartbeat_thread]. *)
Definition _start_heartbeat_thread (self : Detector) : list Startup :=
  if negb (redis_client self) then [] else [HeartbeatThreadStarted].

(** [start]: the heartbeat thread is started, then the mode is dispatched;
    the three loops, which open the source, are one event here. The
    [finally] block runs [_cleanup] on every path. *)
Definition start (self : Detector) : list Startup * option Exn :=
  let heartbeat := _start_heartbeat_thread self in
  if String.eqb (mode self) "UPLOAD" then
    (heartbeat ++ [SourceLoopEntered "UPLOAD"; CleanupDone], None)
  else if String.eqb (mode self) "LIVE" then
    (heartbeat ++ [SourceLoopEntered "LIVE"; CleanupDone], None)
  else if String.eqb (mode self) "HTTP" then
    (heartbeat ++ [SourceLoopEntered "HTTP"; CleanupDone], None)
  else (heartbeat ++ [CleanupDone], Some ValueError_unknown_mode).

(** The [--mode] argument of [parse_args], with
    [choices=['UPLOAD', 'LIVE', 'HTTP']]: any other value ends the process
    inside the parser. *)
Definition parse_mode (m : string) : option string :=
  if bool_decide (m ∈ ["UPLOAD"; "LIVE"; "HTTP"]) then Some m else None.

Inductive Exit :=
| ArgparseError
| Uncaught (e : Exn)
| Finished.

(** The [__main__] block: parse, construct, start. *)
Definition main (REDIS_AVAILABLE : bool) (mode_arg cam_id_arg : string)
    (endpoint_arg redis_host : option string) (redis_port : N)
    (ping : bool) (names : gmap nat string) : list Startup * Exit :=
  match parse_mode mode_arg with
  | None => ([], ArgparseError)
  | Some m =>
      let '(detector, acquired) :=
        __init__ REDIS_AVAILABLE m cam_id_arg endpoint_arg redis_host
          redis_port ping names in
      let '(started, exn) := start detector in
      (acquired ++ started,
       match exn with Some e => Uncaught e | None => Finished end)
  end.

(** ** Observations on effect lists *)

Definition is_lpush (e : IO) : bool :=
  match e with io_lpush _ _ => true | _ => false end.
Definition is_publish (e : IO) : bool :=
  match e with io_publish _ _ => true | _ => false end.
Definition is_redis (e : IO) : bool := is_lpush e || is_publish e.
Definition is_post (e : IO) : bool :=
  match e with io_post _ _ _ => true | _ => false end.
Definition is_send_alert (e : IO) : bool :=
  match e with io_send_alert _ _ => true | _ => false end.
Definition is_failure_log (e : IO) : bool :=
  match e with
  | io_log (LogPostFailed _) | io_log LogPostError
  | io_log (LogEpisodeSendFailed _) | io_log LogEpisodeTimedOut
  | io_log LogEpisodeConnectionError | io_log LogEpisodeSendError => true
  | _ => false
  end.

(** The Redis path raised: the push did, or the publish after it did. *)
Definition redis_raised (tr : Transport) : bool :=
  match lpush_outcome tr, publish_outcome tr with
  | RedisOk, RedisOk => false
  | _, _ => true
  end.

(** The fallback POST is reached: an endpoint is configured and Redis is
    either absent or raised. *)
Definition reaches_fallback (self : Detector) (tr : Transport) : bool :=
  truthy (endpoint self) && (negb (redis_client self) || redis_raised tr).

(** The frames of the episodes handed to [_send_episode], in order. *)
Fixpoint sent_episodes (outs : list Output) : list (list FrameRecord) :=
  match outs with
  | [] => []
  | SendEpisode frames _ _ _ :: rest => frames :: sent_episodes rest
  | _ :: rest => sent_episodes rest
  end.

(** The alert's qualifying test on one detection. *)
Definition qualifies (det : Detection) : bool :=
  String.eqb (lower (det_class det)) "person"
  && Qge_bool (det_confidence det) ALERT_CONFIDENCE_THRESHOLD.

Definition fired (io : list IO) : nat := length (List.filter is_send_alert io).

(** ** Vocabulary of the statements and sample values *)

(** Sample values used by the closed examples below. *)
Definition sample_frame : Frame := mkFrame 480 640 1%N.
Definition yolo_names : gmap nat string :=
  <[0%nat := "person"]> (<[2%nat := "car"]> (<[16%nat := "dog"]> ∅)).
Definition live_detector : Detector :=
  mkDetector "LIVE" "front_door" (Some "http://localhost:4000/api/live/ingest")
    false yolo_names 0 0 0%Q.
Definition redis_detector : Detector :=
  mkDetector "LIVE" "front_door" (Some "http://localhost:4000/api/live/ingest")
    true yolo_names 0 0 0%Q.
Definition all_ok : Transport := mkTransport RedisOk RedisOk (HttpResponse 200).
Definition push_raises : Transport :=
  mkTransport RedisError RedisOk (HttpResponse 200).
Definition created_201 : Transport :=
  mkTransport RedisOk RedisOk (HttpResponse 201).
Definition unreachable : Transport :=
  mkTransport RedisOk RedisOk HttpConnectionError.
Definition person (conf : Q) : Detection :=
  mkDetection "person" conf [10; 20; 110; 220]%Q 0.
Definition sample_event : EpisodeData :=
  _create_episode_data live_detector [person (9 # 10)] sample_frame.

(** What one alert attempt for [det] does to [self] and to the outside. *)
Definition alert_for (self : Detector) (current_time : Q) (det : Detection)
    (send : AlertOutcome) : Detector * list IO :=
  match send with
  | AlertReturned =>
      (set_last_alert_time current_time self,
       [io_send_alert ("Person on " +:+ cam_id self) (det_confidence det);
        io_log LogAlertSent])
  | AlertRaised =>
      (self,
       [io_send_alert ("Person on " +:+ cam_id self) (det_confidence det);
        io_log LogAlertFailed])
  end.

(** [SecureWatchDetector(...).start()], as the [__main__] block and any other
    caller of the class runs it. *)
Definition construct_and_start (REDIS_AVAILABLE : bool)
    (mode_arg cam_id_arg : string) (endpoint_arg redis_host : option string)
    (redis_port : N) (ping : bool) (names : gmap nat string)
    : list Startup * option Exn :=
  let '(detector, acquired) :=
    __init__ REDIS_AVAILABLE mode_arg cam_id_arg endpoint_arg redis_host
      redis_port ping names in
  let '(started, exn) := start detector in
  (acquired ++ started, exn).

Definition recognized (m : string) : bool :=
  bool_decide (upper m ∈ ["UPLOAD"; "LIVE"; "HTTP"]).

Definition acquires (e : Startup) : bool :=
  match e with
  | RedisConnect _ _ | ModelLoaded | HeartbeatThreadStarted
  | SourceLoopEntered _ => true
  | _ => false
  end.

(** The record an activity frame appends. *)
Definition new_record (self : Detector) (loc : Session) (frame : Frame)
    (detections : list Detection) (k : Tick) : FrameRecord :=
  mkFrameRecord (length (active_frames loc)) frame (frame_boxes detections)
    (tick_time k) (frame_count self).

(** Reading the results of the loops. *)
Definition run_session {X} (r : Detector * Session * list Output * X)
  : Session := r.1.1.2.
Definition run_outputs {X} (r : Detector * Session * list Output * X)
  : list Output := r.1.2.
Definition run_exit {X} (r : Detector * Session * list Output * X) : X := r.2.

(** The segmenter's invariant, over the session and what it has emitted so
    far: the buffer stays below the cap; a non-empty buffer has a start time;
    a start time over an empty buffer is the continuation left by a cap
    flush, whose episode is the last one sent. *)
Record segmenter_inv (MAX_EPISODE_FRAMES : nat) (loc : Session)
    (outs : list Output) : Prop := mk_segmenter_inv {
  inv_bound : (length (active_frames loc) < MAX_EPISODE_FRAMES)%nat;
  inv_started : active_frames loc <> [] -> episode_start_time loc <> None;
  inv_continuation :
    forall t, episode_start_time loc = Some t -> active_frames loc = [] ->
    exists frames r,
      last (sent_episodes outs) = Some frames /\
      length frames = MAX_EPISODE_FRAMES /\
      last frames = Some r /\ timestamp r = t
}.

(** A processed frame: the detector as it is when the frame is processed
    (its frame counter moves with every read, its alert time with every
    alert), the frame, what [_detect_frame] returned for it and what the
    collaborators answer. *)
Record Processed := mkProcessed {
  p_self : Detector;
  p_frame : Frame;
  p_detections : list Detection;
  p_tick : Tick
}.

(** The segmenter fed one processed frame after another; the outputs are
    kept frame by frame. *)
Fixpoint segment_frames (SILENCE_THRESHOLD MAX_EPISODE_FRAMES : nat)
    (TELEGRAM_ENABLED : bool) (loc : Session) (ps : list Processed)
    : Session * list (list Output) :=
  match ps with
  | [] => (loc, [])
  | p :: rest =>
      let r :=
        segment SILENCE_THRESHOLD MAX_EPISODE_FRAMES TELEGRAM_ENABLED
          (p_self p) loc (p_frame p) (p_detections p) (p_tick p) in
      let rs :=
        segment_frames SILENCE_THRESHOLD MAX_EPISODE_FRAMES TELEGRAM_ENABLED
          r.1.2 rest in
      (rs.1, r.2 :: rs.2)
  end.

(** The record of processed frame [p] when it is appended at position [n]. *)
Definition record_of (n : nat) (p : Processed) : FrameRecord :=
  mkFrameRecord n (p_frame p) (frame_boxes (p_detections p))
    (tick_time (p_tick p)) (frame_count (p_self p)).

Fixpoint records_from (n : nat) (ps : list Processed) : list FrameRecord :=
  match ps with
  | [] => []
  | p :: rest => record_of n p :: records_from (S n) rest
  end.

Definition has_activity (p : Processed) : Prop := p_detections p <> [].
Definition is_silent (p : Processed) : Prop := p_detections p = [].

(** The processed frame, if any, that one read of the live loop hands to the
    segmenter: a successful read whose frame number is a multiple of
    [LIVE_FRAME_SKIP] and whose detection call returns. *)
Definition stream_processes (self : Detector) (r : Read) : option Processed :=
  match r with
  | ReadFailed => None
  | ReadFrame frame k =>
      let self0 := set_frame_count (frame_count self + 1) self in
      if negb (frame_count self0 mod LIVE_FRAME_SKIP =? 0)%nat then None
      else
        match tick_results k with
        | None => None
        | Some results =>
            let '(self1, detections) := _detect_frame self0 results in
            Some (mkProcessed self1 frame detections k)
        end
  end.

(** The processed frames of a run of the live loop, in order. *)
Fixpoint stream_processed (TELEGRAM_ENABLED : bool) (self : Detector)
    (loc : Session) (reads : list Read) : list Processed :=
  match reads with
  | [] => []
  | r :: rest =>
      if (consecutive_failures loc <? max_failures)%nat then
        let '(self1, loc1, _, raised) :=
          stream_body TELEGRAM_ENABLED self loc r in
        option_list (stream_processes self r) ++
        (if raised then []
         else stream_processed TELEGRAM_ENABLED self1 loc1 rest)
      else []
  end.

(** The same for one poll and for a run of the polling loop. *)
Definition polling_processes (self : Detector) (p : Poll) : option Processed :=
  match p with
  | FetchNone => None
  | Snapshot frame k =>
      let self0 := set_frame_count (frame_count self + 1) self in
      match tick_results k with
      | None => None
      | Some results =>
          let '(self1, detections) := _detect_frame self0 results in
          Some (mkProcessed self1 frame detections k)
      end
  end.

Fixpoint polling_processed (TELEGRAM_ENABLED : bool) (self : Detector)
    (loc : Session) (polls : list Poll) : list Processed :=
  match polls with
  | [] => []
  | p :: rest =>
      if (consecutive_failures loc <? MAX_FAILURES)%nat then
        let '(self1, loc1, _) := polling_body TELEGRAM_ENABLED self loc p in
        option_list (polling_processes self p) ++
        polling_processed TELEGRAM_ENABLED self1 loc1 rest
      else []
  end.

(** Sample inputs. *)
Definition http_detector : Detector :=
  mkDetector "HTTP" "front_door" (Some "http://localhost:4000/api/live/ingest")
    false yolo_names 0 0 0%Q.
Definition person_box : RawBox := mkRawBox 0 (9 # 10) [10; 20; 110; 220]%Q.
Definition activity_tick (t : Q) : Tick :=
  mkTick t (Some [Some [person_box]]) all_ok t AlertReturned all_ok.
Definition silent_tick (t : Q) : Tick :=
  mkTick t (Some [Some []]) all_ok t AlertReturned all_ok.
Definition activity_frame (n : nat) : Processed :=
  mkProcessed (set_frame_count n live_detector) sample_frame
    [person (9 # 10)] (activity_tick (inject_Z (Z.of_nat n))).
Definition silent_frame (n : nat) : Processed :=
  mkProcessed (set_frame_count n live_detector) sample_frame []
    (silent_tick (inject_Z (Z.of_nat n))).

(** A camera that shows a person for [3 * n] frames and an empty scene for
    [3 * m] frames: the live loop processes [n] activity frames and then [m]
    silent ones. *)
Definition camera (n m : nat) : list Read :=
  repeat (ReadFrame sample_frame (activity_tick 1)) (3 * n)
  ++ repeat (ReadFrame sample_frame (silent_tick 2)) (3 * m).

(** The reads of a live session that sees one person and then loses the
    camera: two decimated frames, one processed frame with a detection, and
    thirty failed reads. *)
Definition lost_camera : list Read :=
  [ReadFrame sample_frame (silent_tick 1); ReadFrame sample_frame (silent_tick 2);
   ReadFrame sample_frame (activity_tick 3)] ++ repeat ReadFailed 30.

Definition lost_camera_record : FrameRecord :=
  mkFrameRecord 0 sample_frame [mkBox "person" (9 # 10) [10; 20; 110; 220]%Q]
    3%Q 3.

(** ** Vocabulary of the further properties *)

(** The episodes handed to [_send_episode] with their summaries. *)
Fixpoint sent_with_summary (outs : list Output)
    : list (list FrameRecord * gmap string nat) :=
  match outs with
  | [] => []
  | SendEpisode frames summary _ _ :: rest =>
      (frames, summary) :: sent_with_summary rest
  | _ :: rest => sent_with_summary rest
  end.

(** How many boxes of the frames carry the label [c]. *)
Definition count_label (c : string) (boxes : list Box) : nat :=
  length (List.filter (fun b => String.eqb (label b) c) boxes).

Fixpoint label_count (c : string) (frames : list FrameRecord) : nat :=
  match frames with
  | [] => 0
  | r :: rest => count_label c (detections r) + label_count c rest
  end.

(** The summary counts, class by class, the boxes of the frames. *)
Definition summary_counts (frames : list FrameRecord)
    (summary : gmap string nat) : Prop :=
  forall c, default 0%nat (summary !! c) = label_count c frames.

(** The records are numbered 0, 1, 2, ... by their ['seq']. *)
Definition numbered (frames : list FrameRecord) : Prop :=
  map seq frames = List.seq 0 (length frames).

(** What identifies an activity frame in both outputs: its frame number and
    its boxes. *)
Definition record_key (r : FrameRecord) : nat * list Box :=
  (frame_number r, detections r).

(** The per-frame events printed on stdout, in order. *)
Fixpoint events (outs : list Output) : list (nat * list Box) :=
  match outs with
  | [] => []
  | Stdout data :: rest =>
      (ed_frame_number data, ed_detections data) :: events rest
  | _ :: rest => events rest
  end.

(** The frames of the delivered episodes, in order of delivery. *)
Definition delivered (outs : list Output) : list (nat * list Box) :=
  map record_key (concat (sent_episodes outs)).

(** The event a processed frame with activity prints. *)
Definition event_of (p : Processed) : nat * list Box :=
  (frame_count (p_self p), frame_boxes (p_detections p)).

Definition active (p : Processed) : bool := nonempty (p_detections p).

(** A delivered episode is well formed: it is not empty, it holds at most
    [M] records, its records are numbered from 0, and its summary counts
    its boxes. *)
Definition episode_ok (M : nat) (e : list FrameRecord * gmap string nat)
    : Prop :=
  e.1 <> [] /\ (length e.1 <= M)%nat /\ numbered e.1 /\ summary_counts e.1 e.2.

(** What the segmenter keeps true of its buffer and of what it has sent. *)
Record episodes_inv (M : nat) (loc : Session) (outs : list Output)
    : Prop := mk_episodes_inv {
  ei_bound : (length (active_frames loc) < M)%nat;
  ei_numbered : numbered (active_frames loc);
  ei_summary : summary_counts (active_frames loc) (detections_summary loc);
  ei_sent : Forall (episode_ok M) (sent_with_summary outs);
  ei_count : episode_count loc = length (sent_episodes outs);
  ei_conserved :
    delivered outs ++ map record_key (active_frames loc) = events outs
}.

(** ** The frames of a video file *)

(** The reads of a file that are evaluated, with their frame numbers: every
    read is counted, starting after [n], and the multiples of
    [FILE_FRAME_SKIP] go to the detection model. *)
Fixpoint file_evaluated (n : nat) (reads : list (Frame * Tick))
    : list (nat * Frame * Tick) :=
  match reads with
  | [] => []
  | (frame, k) :: rest =>
      (if (S n mod FILE_FRAME_SKIP =? 0)%nat then [(S n, frame, k)] else [])
      ++ file_evaluated (S n) rest
  end.

(** What the detector [self] finds on an evaluated frame; [None] when the
    detection call raises. *)
Definition found (self : Detector) (e : nat * Frame * Tick)
    : option (list Detection) :=
  match tick_results e.2 with
  | None => None
  | Some results => Some (_detect_frame self results).2
  end.

Definition detection_raises (ev : list (nat * Frame * Tick)) : bool :=
  existsb (fun e => match tick_results e.2 with None => true | _ => false end)
          ev.

(** The evaluated frames on which something was found, up to the first
    frame on which the detection call raises. *)
Fixpoint file_activity (self : Detector) (ev : list (nat * Frame * Tick))
    : list (nat * Frame * list Detection) :=
  match ev with
  | [] => []
  | e :: rest =>
      match found self e with
      | None => []
      | Some dets =>
          (if nonempty dets then [(e.1.1, e.1.2, dets)] else [])
          ++ file_activity self rest
      end
  end.

(** The episode records of these frames, numbered from [i]: the timestamp
    is the frame number divided by the frame rate. *)
Fixpoint file_records (fps : Num) (i : nat)
    (act : list (nat * Frame * list Detection)) : list FrameRecord :=
  match act with
  | [] => []
  | (n, frame, dets) :: rest =>
      mkFrameRecord i frame (frame_boxes dets) (truediv n fps) n
      :: file_records fps (S i) rest
  end.

(** The per-frame event of such a frame, as [events] reads it. *)
Definition file_event (a : nat * Frame * list Detection) : nat * list Box :=
  (a.1.1, frame_boxes a.2).

(** ** Reconnection loops: [_run_stream_loop], [_run_http_loop] *)

Definition RECONNECT_DELAY : nat := 5.
Definition max_reconnects : nat := 100.

(** One pass of the live reconnection loop: whether [_connect_stream] finds
    the capture opened, what the session then reads, and what the transport
    answers to its two flushes. *)
Record Attempt := mkAttempt {
  att_opened : bool;
  att_reads : list Read;
  att_pending : Transport;
  att_final : Transport
}.

(** [_run_stream_loop]: [while self.running], connect and process; every
    exception is caught and followed by a reconnect. A session that returns
    has seen [self.running] cleared, which ends the loop; so does the end of
    the list. The third component is how each pass ended. *)
Fixpoint _run_stream_loop (TELEGRAM_ENABLED : bool) (self : Detector)
    (attempts : list Attempt)
    : Detector * list Output * list (option Exn) :=
  match attempts with
  | [] => (self, [], [])
  | a :: rest =>
      if negb (att_opened a) then
        let '(self2, outs, ends) :=
          _run_stream_loop TELEGRAM_ENABLED self rest in
        (self2, outs, Some RuntimeError_open_failed :: ends)
      else
        let '(self1, _, outs, exn) :=
          _process_stream TELEGRAM_ENABLED self (att_reads a)
            (att_pending a) (att_final a) in
        match exn with
        | None => (self1, outs, [None])
        | Some e =>
            let '(self2, outs', ends) :=
              _run_stream_loop TELEGRAM_ENABLED self1 rest in
            (self2, outs ++ outs', Some e :: ends)
        end
  end.

(** [_run_http_loop]:
    [while self.running and reconnect_count < max_reconnects]; a session
    that raises is counted and followed by a reconnect. A session that
    returns has seen [self.running] cleared, which ends the loop; so does
    the end of the list. The third component is how each session ended and
    the fourth the final [reconnect_count]. *)
Fixpoint _run_http_loop (TELEGRAM_ENABLED : bool) (self : Detector)
    (reconnect_count : nat) (sessions : list (list Poll * Transport))
    : Detector * list Output * list (option Exn) * nat :=
  match sessions with
  | [] => (self, [], [], reconnect_count)
  | (polls, final) :: rest =>
      if (reconnect_count <? max_reconnects)%nat then
        let '(self1, _, outs, exn) :=
          _http_polling_session TELEGRAM_ENABLED self polls final in
        match exn with
        | None => (self1, outs, [None], reconnect_count)
        | Some e =>
            let '(self2, outs', ends, n) :=
              _run_http_loop TELEGRAM_ENABLED self1 (reconnect_count + 1)
                rest in
            (self2, outs ++ outs', Some e :: ends, n)
        end
      else (self, [], [], reconnect_count)
  end.

(** Polling sessions run one after the other, each on the detector the one
    before it left. *)
Fixpoint run_sessions (TELEGRAM_ENABLED : bool) (self : Detector)
    (sessions : list (list Poll * Transport))
    : list (Detector * Session * list Output * option Exn) :=
  match sessions with
  | [] => []
  | (polls, final) :: rest =>
      let r := _http_polling_session TELEGRAM_ENABLED self polls final in
      r :: run_sessions TELEGRAM_ENABLED r.1.1.1 rest
  end.

Definition run_detector {X} (r : Detector * Session * list Output * X)
  : Detector := r.1.1.1.

(** An attempt on a camera that cannot be reached: the capture does not
    open, or every read fails until the session gives up. *)
Definition unreachable_camera (a : Attempt) : Prop :=
  att_opened a = false \/
  exists n, (max_failures <= n)%nat /\ att_reads a = repeat ReadFailed n.

(** ** A run of the alert gate *)

Definition alert_delivered (io : list IO) : bool :=
  existsb (fun e => match e with io_log LogAlertSent => true | _ => false end)
          io.

(** The gate called batch after batch; the result lists the times at which
    a notification was sent and [send_alert] returned. *)
Fixpoint alert_run (TELEGRAM_ENABLED : bool) (self : Detector)
    (batches : list (Q * list Detection * AlertOutcome))
    : Detector * list Q :=
  match batches with
  | [] => (self, [])
  | (now, dets, send) :: rest =>
      let r := _send_telegram_alert TELEGRAM_ENABLED self dets now send in
      let rs := alert_run TELEGRAM_ENABLED r.1 rest in
      (rs.1, (if alert_delivered r.2 then [now] else []) ++ rs.2)
  end.

(** Each time is at least [ALERT_COOLDOWN] after the one before it. *)
Fixpoint spaced (prev : Q) (times : list Q) : Prop :=
  match times with
  | [] => True
  | t :: rest => (prev + ALERT_COOLDOWN <= t)%Q /\ spaced t rest
  end.

(** A network effect of one delivery carries the payload [p] to the queue
    ['detection_queue'], to the topic ['live_events'], or to the configured
    endpoint with the timeout [t]; a delivery sends no alert. *)
Definition carries (self : Detector) (p : Payload) (t : nat) (e : IO) : Prop :=
  match e with
  | io_lpush key q => key = "detection_queue" /\ q = p
  | io_publish channel q => channel = "live_events" /\ q = p
  | io_post url q timeout => endpoint self = Some url /\ q = p /\ timeout = t
  | io_send_alert _ _ => False
  | io_log _ => True
  end.

(** ** The capture handle: [_connect_stream], [_cleanup], [stop],
    [_handle_signal] *)















(** A poll that counts as a failure: no snapshot, or a snapshot whose
    detection call raises. *)
Definition poll_failed (p : Poll) : bool :=
  match p with
  | FetchNone => true
  | Snapshot _ k =>
      match tick_results k with None => true | Some _ => false end
  end.

(** * Properties *)

(** ** Rational comparisons *)

Lemma Qlt_bool_iff (x y : Q) : Qlt_bool x y = true <-> (x < y)%Q.
Proof.
  unfold Qlt_bool. rewrite negb_true_iff.
  split; intros H.
  - apply Qnot_le_lt. intros Hle. apply Qle_bool_iff in Hle. congruence.
  - destruct (Qle_bool y x) eqn:E; [|reflexivity].
    apply Qle_bool_iff in E. exfalso. exact (Qlt_not_le _ _ H E).
Qed.

Lemma Qlt_bool_false_iff (x y : Q) : Qlt_bool x y = false <-> (y <= x)%Q.
Proof.
  unfold Qlt_bool. rewrite negb_false_iff. apply Qle_bool_iff.
Qed.

Lemma Qge_bool_iff (x y : Q) : Qge_bool x y = true <-> (y <= x)%Q.
Proof. unfold Qge_bool. apply Qle_bool_iff. Qed.

(** ** Delivery subsystem *)

Section Delivery.
Variable self : Detector.
Variable tr : Transport.

(** The Redis commands of one per-frame delivery: nothing without a
    client; the push first, and the publish only after a push that
    returned. *)
Lemma post_detection_redis (data : EpisodeData) :
  List.filter is_redis (_post_detection self data tr) =
  if redis_client self then
    io_lpush "detection_queue" (DetectionJson data) ::
    match lpush_outcome tr with
    | RedisOk => [io_publish "live_events" (DetectionJson data)]
    | RedisError => []
    end
  else [].
Proof.
  unfold _post_detection.
  destruct (redis_client self), (lpush_outcome tr), (publish_outcome tr),
    (truthy (endpoint self)), (post_outcome tr) as [n| | |];
    simpl; try reflexivity;
    try (destruct (n =? 200)%nat; reflexivity);
    destruct (String.eqb (mode self) "UPLOAD"); reflexivity.
Qed.

(** The POSTs of one per-frame delivery: one when the fallback is
    reached, none otherwise. *)
Lemma post_detection_post (data : EpisodeData) :
  List.filter is_post (_post_detection self data tr) =
  if reaches_fallback self tr
  then [io_post (default "" (endpoint self)) (DetectionJson data) 5]
  else [].
Proof.
  unfold _post_detection, reaches_fallback, redis_raised.
  destruct (redis_client self), (lpush_outcome tr), (publish_outcome tr),
    (truthy (endpoint self)), (post_outcome tr) as [n| | |];
    simpl; try reflexivity;
    try (destruct (n =? 200)%nat; reflexivity);
    destruct (String.eqb (mode self) "UPLOAD"); reflexivity.
Qed.

Lemma send_episode_redis (frames : list FrameRecord)
    (summary : gmap string nat) :
  List.filter is_redis (_send_episode self frames summary tr).1 =
  if redis_client self then
    io_lpush "detection_queue"
      (EpisodeJson (_serialize_episode self frames summary)) ::
    match lpush_outcome tr with
    | RedisOk =>
        [io_publish "live_events"
           (EpisodeJson (_serialize_episode self frames summary))]
    | RedisError => []
    end
  else [].
Proof.
  unfold _send_episode.
  destruct (redis_client self), (lpush_outcome tr), (publish_outcome tr),
    (truthy (endpoint self)), (post_outcome tr) as [n| | |];
    simpl; try reflexivity; destruct (n =? 200)%nat; reflexivity.
Qed.

Lemma send_episode_post (frames : list FrameRecord)
    (summary : gmap string nat) :
  List.filter is_post (_send_episode self frames summary tr).1 =
  if reaches_fallback self tr
  then [io_post (default "" (endpoint self))
          (EpisodeJson (_serialize_episode self frames summary)) 3]
  else [].
Proof.
  unfold _send_episode, reaches_fallback, redis_raised.
  destruct (redis_client self), (lpush_outcome tr), (publish_outcome tr),
    (truthy (endpoint self)), (post_outcome tr) as [n| | |];
    simpl; try reflexivity; destruct (n =? 200)%nat; reflexivity.
Qed.

(** On the fallback path [_send_episode] answers [True] for status 200
    and for nothing else. *)
Lemma send_episode_fallback_result (frames : list FrameRecord)
    (summary : gmap string nat) :
  reaches_fallback self tr = true ->
  (_send_episode self frames summary tr).2 =
  match post_outcome tr with
  | HttpResponse status_code => (status_code =? 200)%nat
  | _ => false
  end.
Proof.
  unfold _send_episode, reaches_fallback, redis_raised.
  destruct (redis_client self), (lpush_outcome tr), (publish_outcome tr),
    (truthy (endpoint self)), (post_outcome tr) as [n| | |];
    simpl; try discriminate; try reflexivity;
    destruct (n =? 200)%nat; reflexivity.
Qed.

(** On the fallback path a failed episode delivery leaves one failure
    line on stderr, a successful one none. *)
Lemma send_episode_fallback_log (frames : list FrameRecord)
    (summary : gmap string nat) :
  reaches_fallback self tr = true ->
  length (List.filter is_failure_log (_send_episode self frames summary tr).1) =
  if (_send_episode self frames summary tr).2 then 0 else 1.
Proof.
  unfold _send_episode, reaches_fallback, redis_raised.
  destruct (redis_client self), (lpush_outcome tr), (publish_outcome tr),
    (truthy (endpoint self)), (post_outcome tr) as [n| | |];
    simpl; try discriminate; try reflexivity;
    destruct (n =? 200)%nat; reflexivity.
Qed.

(** On the fallback path [_post_detection] reports a status other than
    200 always, and a transport error in UPLOAD mode only. *)
Lemma post_detection_fallback_log (data : EpisodeData) :
  reaches_fallback self tr = true ->
  List.filter is_failure_log (_post_detection self data tr) =
  match post_outcome tr with
  | HttpResponse status_code =>
      if (status_code =? 200)%nat then []
      else [io_log (LogPostFailed status_code)]
  | _ => if String.eqb (mode self) "UPLOAD" then [io_log LogPostError] else []
  end.
Proof.
  unfold _post_detection, reaches_fallback, redis_raised.
  destruct (redis_client self), (lpush_outcome tr), (publish_outcome tr),
    (truthy (endpoint self)), (post_outcome tr) as [n| | |];
    simpl; try discriminate; try reflexivity;
    try (destruct (n =? 200)%nat; reflexivity);
    destruct (String.eqb (mode self) "UPLOAD"); reflexivity.
Qed.
End Delivery.

(** C6, as stated, fails: with a connected Redis client whose [lpush]
    raises, the per-frame delivery and the episode delivery both go to the
    fallback without having attempted the publish on ['live_events']. *)
Lemma publish_skipped_when_push_raises :
  redis_client redis_detector = true /\
  existsb is_publish (_post_detection redis_detector sample_event push_raises)
    = false /\
  existsb is_publish (_send_episode redis_detector [] ∅ push_raises).1 = false.
Proof. repeat split; reflexivity. Qed.

(** C6 (amended): with a Redis client, one delivery attempt pushes the
    payload onto ['detection_queue'] first and publishes it on
    ['live_events'] exactly when that push returned; without a client no
    Redis command is issued. The HTTP fallback is attempted, once, exactly
    when an endpoint is configured and the client is absent or one of its
    two commands raised; so a payload is never attempted on both paths
    unless the Redis path raised. This holds for [_post_detection] and for
    [_send_episode]. *)
Theorem delivery_paths (self : Detector) (tr : Transport)
    (data : EpisodeData) (frames : list FrameRecord)
    (summary : gmap string nat) :
  let event := DetectionJson data in
  let episode := EpisodeJson (_serialize_episode self frames summary) in
  let redis_commands (p : Payload) :=
    if redis_client self then
      io_lpush "detection_queue" p ::
      match lpush_outcome tr with
      | RedisOk => [io_publish "live_events" p]
      | RedisError => []
      end
    else [] in
  List.filter is_redis (_post_detection self data tr) = redis_commands event /\
  List.filter is_redis (_send_episode self frames summary tr).1
    = redis_commands episode /\
  List.filter is_post (_post_detection self data tr)
    = (if truthy (endpoint self)
          && (negb (redis_client self) || redis_raised tr)
       then [io_post (default "" (endpoint self)) event 5] else []) /\
  List.filter is_post (_send_episode self frames summary tr).1
    = (if truthy (endpoint self)
          && (negb (redis_client self) || redis_raised tr)
       then [io_post (default "" (endpoint self)) episode 3] else []).
Proof.
  cbv zeta. repeat split.
  - apply post_detection_redis.
  - apply send_episode_redis.
  - apply post_detection_post.
  - apply send_episode_post.
Qed.

(** C7, as stated, fails: a 201 response, a 2xx status, makes
    [_send_episode] answer [False] and log a failure; and in LIVE mode a
    connection error of the per-frame POST is not logged at all. *)
Lemma status_201_is_a_failure :
  (200 <= 201 < 300)%nat /\
  reaches_fallback live_detector created_201 = true /\
  (_send_episode live_detector [] ∅ created_201).2 = false /\
  List.filter is_failure_log (_send_episode live_detector [] ∅ created_201).1
    = [io_log (LogEpisodeSendFailed 201)] /\
  List.filter is_failure_log
    (_post_detection live_detector sample_event created_201)
    = [io_log (LogPostFailed 201)] /\
  List.filter is_failure_log
    (_post_detection live_detector sample_event unreachable) = [].
Proof. repeat split; try reflexivity; lia. Qed.

(** C7 (amended): a delivery attempt on the fallback HTTP path is treated
    as successful if and only if the response status is exactly 200
    ([_send_episode] returns [True]; [_post_detection] logs nothing). Any
    other status or a transport error is a failure; the POST is issued once
    and not retried. [_send_episode] logs every failure; [_post_detection]
    logs another status always and a transport error in UPLOAD mode only. *)
Theorem fallback_success_is_status_200 (self : Detector) (tr : Transport)
    (data : EpisodeData) (frames : list FrameRecord)
    (summary : gmap string nat) :
  reaches_fallback self tr = true ->
  ((_send_episode self frames summary tr).2 = true
     <-> post_outcome tr = HttpResponse 200) /\
  length (List.filter is_post (_send_episode self frames summary tr).1) = 1%nat /\
  length (List.filter is_post (_post_detection self data tr)) = 1%nat /\
  length (List.filter is_failure_log (_send_episode self frames summary tr).1)
    = (if (_send_episode self frames summary tr).2 then 0 else 1)%nat /\
  List.filter is_failure_log (_post_detection self data tr)
    = match post_outcome tr with
      | HttpResponse status_code =>
          if (status_code =? 200)%nat then []
          else [io_log (LogPostFailed status_code)]
      | _ =>
          if String.eqb (mode self) "UPLOAD" then [io_log LogPostError] else []
      end.
Proof.
  intros Hfb. repeat split.
  - rewrite send_episode_fallback_result by assumption.
    destruct (post_outcome tr) as [n| | |]; try discriminate.
    intros H. apply Nat.eqb_eq in H. congruence.
  - rewrite send_episode_fallback_result by assumption.
    intros ->. reflexivity.
  - rewrite send_episode_post, Hfb. reflexivity.
  - rewrite post_detection_post, Hfb. reflexivity.
  - apply send_episode_fallback_log; assumption.
  - apply post_detection_fallback_log; assumption.
Qed.

Lemma fallback_success_is_status_200_witness :
  reaches_fallback live_detector all_ok = true /\
  ((_send_episode live_detector [] ∅ all_ok).2 = true
     <-> post_outcome all_ok = HttpResponse 200).
Proof.
  split; [reflexivity|].
  apply (fallback_success_is_status_200 live_detector all_ok sample_event [] ∅).
  reflexivity.
Defined.

(** ** Alert gate *)

(** The scan alerts for the first qualifying detection and for no other. *)
Lemma alert_scan_find (self : Detector) (now : Q) (dets : list Detection)
    (send : AlertOutcome) :
  alert_scan self now dets send =
  match List.find qualifies dets with
  | Some det => alert_for self now det send
  | None => (self, [])
  end.
Proof.
  induction dets as [|det rest IH]; simpl; [reflexivity|].
  fold (qualifies det). destruct (qualifies det).
  - destruct send; reflexivity.
  - exact IH.
Qed.

Lemma alert_for_fired (self : Detector) (now : Q) (det : Detection)
    (send : AlertOutcome) :
  fired (alert_for self now det send).2 = 1%nat.
Proof. destruct send; reflexivity. Qed.

Lemma find_qualifies_Some (dets : list Detection) :
  existsb qualifies dets = true ->
  exists det, List.find qualifies dets = Some det.
Proof.
  induction dets as [|d rest IH]; simpl; [discriminate|].
  destruct (qualifies d); [eauto|]. exact IH.
Qed.

(** The gate, decision by decision. *)
Lemma send_telegram_alert_cases (TE : bool) (self : Detector)
    (dets : list Detection) (now : Q) (send : AlertOutcome) :
  _send_telegram_alert TE self dets now send =
  if TE && Qle_bool ALERT_COOLDOWN (now - last_alert_time self) then
    match List.find qualifies dets with
    | Some det => alert_for self now det send
    | None => (self, [])
    end
  else (self, []).
Proof.
  unfold _send_telegram_alert, Qlt_bool.
  destruct TE; simpl; [|reflexivity].
  destruct (Qle_bool ALERT_COOLDOWN (now - last_alert_time self)); simpl;
    [apply alert_scan_find | reflexivity].
Qed.

Lemma send_telegram_alert_fires (self : Detector) (dets : list Detection)
    (now : Q) (send : AlertOutcome) :
  existsb qualifies dets = true ->
  (ALERT_COOLDOWN <= now - last_alert_time self)%Q ->
  exists det,
    List.find qualifies dets = Some det /\
    _send_telegram_alert true self dets now send = alert_for self now det send.
Proof.
  intros Hq Hc. destruct (find_qualifies_Some dets Hq) as [det Hdet].
  exists det. split; [assumption|].
  rewrite send_telegram_alert_cases, Hdet.
  apply Qle_bool_iff in Hc. rewrite Hc. reflexivity.
Qed.

Lemma send_telegram_alert_cooling (TE : bool) (self : Detector)
    (dets : list Detection) (now : Q) (send : AlertOutcome) :
  (now - last_alert_time self < ALERT_COOLDOWN)%Q ->
  _send_telegram_alert TE self dets now send = (self, []).
Proof.
  intros Hc. rewrite send_telegram_alert_cases.
  destruct (Qle_bool ALERT_COOLDOWN (now - last_alert_time self)) eqn:E.
  - apply Qle_bool_iff in E. exfalso. exact (Qlt_not_le _ _ Hc E).
  - rewrite andb_false_r. reflexivity.
Qed.

(** C8: with [ALERT_COOLDOWN] = 30 s and the confidence threshold 0.7, one
    detection batch fires at most one notification (the scan stops at the
    first qualifying detection); a notification fires only if the notifier
    is available, the batch holds a person of confidence at least 0.7, and
    [now - last_alert_time >= 30]. With the notifier available and the
    cooldown elapsed at [t], qualifying batches at [t], [t + 10] and
    [t + 35] whose sends all return fire exactly at [t] and at [t + 35]. *)
Theorem alert_gate_cooldown :
  (forall TE self dets now send,
     (fired (_send_telegram_alert TE self dets now send).2 <= 1)%nat) /\
  (forall TE self dets now send,
     fired (_send_telegram_alert TE self dets now send).2 = 1%nat ->
     TE = true /\
     (30 <= now - last_alert_time self)%Q /\
     exists det, In det dets /\
       lower (det_class det) = "person" /\
       (7 # 10 <= det_confidence det)%Q /\
       List.find qualifies dets = Some det) /\
  (forall self d1 d2 d3 t,
     existsb qualifies d1 = true ->
     existsb qualifies d2 = true ->
     existsb qualifies d3 = true ->
     (last_alert_time self + 30 <= t)%Q ->
     let r1 := _send_telegram_alert true self d1 t AlertReturned in
     let r2 := _send_telegram_alert true r1.1 d2 (t + 10)%Q AlertReturned in
     let r3 := _send_telegram_alert true r2.1 d3 (t + 35)%Q AlertReturned in
     fired r1.2 = 1%nat /\ fired r2.2 = 0%nat /\ fired r3.2 = 1%nat).
Proof.
  split; [|split].
  - intros TE self dets now send. rewrite send_telegram_alert_cases.
    destruct (TE && _); [|unfold fired; simpl; lia].
    destruct (List.find qualifies dets); [|unfold fired; simpl; lia].
    rewrite alert_for_fired. lia.
  - intros TE self dets now send. rewrite send_telegram_alert_cases.
    destruct TE; simpl; [|discriminate].
    destruct (Qle_bool ALERT_COOLDOWN (now - last_alert_time self)) eqn:Hc;
      [|discriminate].
    destruct (List.find qualifies dets) as [det|] eqn:Hf; [|discriminate].
    intros _. split; [reflexivity|]. split.
    + apply Qle_bool_iff in Hc. exact Hc.
    + destruct (find_some _ _ Hf) as [Hin Hq].
      unfold qualifies in Hq. apply andb_true_iff in Hq.
      destruct Hq as [Hp Hconf].
      exists det. split; [assumption|]. split.
      * apply String.eqb_eq. exact Hp.
      * split; [apply Qge_bool_iff in Hconf; exact Hconf|reflexivity].
  - intros self d1 d2 d3 t H1 H2 H3 Ht r1 r2 r3.
    assert (E1 : exists det, r1 = alert_for self t det AlertReturned).
    { destruct (send_telegram_alert_fires self d1 t AlertReturned H1)
        as (det & _ & E); [unfold ALERT_COOLDOWN; lra|]. eauto. }
    destruct E1 as [det1 E1].
    assert (E2 : r2 = (r1.1, [])).
    { apply send_telegram_alert_cooling. rewrite E1. simpl.
      unfold ALERT_COOLDOWN. lra. }
    assert (E3 : exists det, r3 = alert_for r2.1 (t + 35)%Q det AlertReturned).
    { destruct (send_telegram_alert_fires r2.1 d3 (t + 35)%Q AlertReturned H3)
        as (det & _ & E); [|eauto].
      rewrite E2, E1. simpl. unfold ALERT_COOLDOWN. lra. }
    destruct E3 as [det3 E3].
    rewrite E1, E2, E3. repeat split; reflexivity.
Qed.

Lemma alert_gate_cooldown_witness :
  existsb qualifies [person (9 # 10)] = true /\
  (last_alert_time live_detector + 30 <= 1000)%Q /\
  let r1 :=
    _send_telegram_alert true live_detector [person (9 # 10)] 1000%Q
      AlertReturned in
  let r2 :=
    _send_telegram_alert true r1.1 [person (9 # 10)] (1000 + 10)%Q
      AlertReturned in
  let r3 :=
    _send_telegram_alert true r2.1 [person (9 # 10)] (1000 + 35)%Q
      AlertReturned in
  fired r1.2 = 1%nat /\ fired r2.2 = 0%nat /\ fired r3.2 = 1%nat.
Proof.
  split; [reflexivity|]. split; [vm_compute; discriminate|].
  apply (proj2 (proj2 alert_gate_cooldown) live_detector
           [person (9 # 10)] [person (9 # 10)] [person (9 # 10)] 1000%Q);
    try reflexivity.
  vm_compute; discriminate.
Defined.

(** C10: [last_alert_time] is written only when [send_alert] returns: an
    attempt whose send raises leaves the detector, and so the cooldown
    window, unchanged, and whenever the detector changes the send had
    returned. After such a failed attempt at [t] the next qualifying batch,
    at any [t' >= t], fires at once. The scan stops at the first qualifying
    detection also when the send raises: one attempt, for that detection. *)
Theorem failed_alert_keeps_cooldown :
  (forall TE self dets now,
     (_send_telegram_alert TE self dets now AlertRaised).1 = self) /\
  (forall TE self dets now send,
     (_send_telegram_alert TE self dets now send).1 <> self ->
     send = AlertReturned /\
     fired (_send_telegram_alert TE self dets now send).2 = 1%nat /\
     (_send_telegram_alert TE self dets now send).1
       = set_last_alert_time now self) /\
  (forall self d1 d2 t t' send,
     existsb qualifies d1 = true ->
     existsb qualifies d2 = true ->
     (last_alert_time self + 30 <= t)%Q ->
     (t <= t')%Q ->
     let r1 := _send_telegram_alert true self d1 t AlertRaised in
     let r2 := _send_telegram_alert true r1.1 d2 t' send in
     fired r1.2 = 1%nat /\ last_alert_time r1.1 = last_alert_time self /\
     fired r2.2 = 1%nat) /\
  (forall self dets now det,
     (last_alert_time self + 30 <= now)%Q ->
     List.find qualifies dets = Some det ->
     (_send_telegram_alert true self dets now AlertRaised).2 =
     [io_send_alert ("Person on " +:+ cam_id self) (det_confidence det);
      io_log LogAlertFailed]).
Proof.
  split; [|split; [|split]].
  - intros TE self dets now. rewrite send_telegram_alert_cases.
    destruct (TE && _); [|reflexivity].
    destruct (List.find qualifies dets); reflexivity.
  - intros TE self dets now send. rewrite send_telegram_alert_cases.
    destruct (TE && _); [|simpl; congruence].
    destruct (List.find qualifies dets); [|simpl; congruence].
    destruct send; simpl; [|congruence].
    intros _. repeat split; reflexivity.
  - intros self d1 d2 t t' send H1 H2 Ht Ht' r1 r2.
    destruct (send_telegram_alert_fires self d1 t AlertRaised H1)
      as (det & _ & E); [unfold ALERT_COOLDOWN; lra|].
    assert (E1 : r1 = alert_for self t det AlertRaised) by exact E.
    destruct (send_telegram_alert_fires r1.1 d2 t' send H2)
      as (det2 & _ & E2).
    { rewrite E1. simpl. unfold ALERT_COOLDOWN. lra. }
    assert (E3 : r2 = alert_for r1.1 t' det2 send) by exact E2.
    rewrite E3, E1. simpl. split; [reflexivity|]. split; [reflexivity|].
    apply alert_for_fired.
  - intros self dets now det Hc Hf. rewrite send_telegram_alert_cases, Hf.
    assert (Hb : Qle_bool ALERT_COOLDOWN (now - last_alert_time self) = true).
    { apply Qle_bool_iff. unfold ALERT_COOLDOWN. lra. }
    rewrite Hb. reflexivity.
Qed.

Lemma failed_alert_keeps_cooldown_witness :
  existsb qualifies [person (9 # 10)] = true /\
  (last_alert_time live_detector + 30 <= 1000)%Q /\
  (1000 <= 1001)%Q /\
  let r1 :=
    _send_telegram_alert true live_detector [person (9 # 10)] 1000%Q
      AlertRaised in
  let r2 :=
    _send_telegram_alert true r1.1 [person (9 # 10)] 1001%Q AlertReturned in
  fired r1.2 = 1%nat /\
  last_alert_time r1.1 = last_alert_time live_detector /\
  fired r2.2 = 1%nat.
Proof.
  split; [reflexivity|].
  split; [vm_compute; discriminate|].
  split; [vm_compute; discriminate|].
  apply (proj1 (proj2 (proj2 failed_alert_keeps_cooldown)) live_detector
           [person (9 # 10)] [person (9 # 10)] 1000%Q 1001%Q AlertReturned);
    try reflexivity; vm_compute; discriminate.
Defined.

(** ** Start-up *)

Lemma main_is_construct_and_start (RA : bool) (m cam : string)
    (ep host : option string) (port : N) (ping : bool)
    (names : gmap nat string) :
  main RA m cam ep host port ping names =
  match parse_mode m with
  | None => ([], ArgparseError)
  | Some m' =>
      let r := construct_and_start RA m' cam ep host port ping names in
      (r.1, match r.2 with Some e => Uncaught e | None => Finished end)
  end.
Proof.
  unfold main, construct_and_start. destruct (parse_mode m); [|reflexivity].
  destruct (__init__ _ _ _ _ _ _ _ _) as [d a].
  destruct (start d) as [st e]. reflexivity.
Qed.

Lemma start_unknown_mode (self : Detector) :
  bool_decide (mode self ∈ ["UPLOAD"; "LIVE"; "HTTP"]) = false ->
  start self = (_start_heartbeat_thread self ++ [CleanupDone],
                Some ValueError_unknown_mode).
Proof.
  intros H. apply bool_decide_eq_false in H. unfold start.
  destruct (String.eqb (mode self) "UPLOAD") eqn:E1.
  { apply String.eqb_eq in E1. exfalso. apply H. rewrite E1. set_solver. }
  destruct (String.eqb (mode self) "LIVE") eqn:E2.
  { apply String.eqb_eq in E2. exfalso. apply H. rewrite E2. set_solver. }
  destruct (String.eqb (mode self) "HTTP") eqn:E3.
  { apply String.eqb_eq in E3. exfalso. apply H. rewrite E3. set_solver. }
  reflexivity.
Qed.

Lemma parse_mode_unrecognized (m : string) :
  recognized m = false -> parse_mode m = None.
Proof.
  unfold recognized, parse_mode. intros H.
  apply bool_decide_eq_false in H.
  destruct (bool_decide (m ∈ ["UPLOAD"; "LIVE"; "HTTP"])) eqn:E; [|reflexivity].
  apply bool_decide_eq_true in E. exfalso. apply H.
  repeat (apply elem_of_cons in E; destruct E as [->|E]);
    [set_solver..|]. inversion E.
Qed.

(** C9, as stated, fails: a detector built with the mode ["FOO"] and a
    reachable Redis host raises the unknown-mode error only after the Redis
    connection was made, the model was loaded and the heartbeat thread was
    started. *)
Lemma unknown_mode_fails_after_acquiring :
  isascii "FOO" = true /\ recognized "FOO" = false /\
  construct_and_start true "FOO" "front_door" None (Some "localhost") 6379%N
    true yolo_names =
  ([RedisConnect "localhost" 6379%N; SignalHandlersRegistered; ModelLoaded;
    HeartbeatThreadStarted; CleanupDone],
   Some ValueError_unknown_mode).
Proof. split; [reflexivity|]. split; reflexivity. Qed.

(** C9 (amended): if the mode, an ASCII string, is after upper-casing not
    one of the recognized modes, start-up fails fatally and no source handle
    is opened. From the command line the argument parser rejects the mode
    before anything is acquired. A detector constructed directly with such a
    mode raises the unknown-mode error in [start], after the constructor has
    connected to Redis (when a host is given and the client library is
    available) and loaded the model, and after the heartbeat thread was
    started (when the Redis client is connected); [_cleanup] runs before the
    error propagates. Whatever the mode argument was, a detector whose
    stored mode is none of [UPLOAD], [LIVE], [HTTP] ends [start] in this
    way: heartbeat thread, [_cleanup], unknown-mode error, and no source
    loop. *)
Theorem unknown_mode_is_fatal (RA : bool) (m cam : string)
    (ep host : option string) (port : N) (ping : bool)
    (names : gmap nat string) :
  isascii m = true ->
  recognized m = false ->
  main RA m cam ep host port ping names = ([], ArgparseError) /\
  construct_and_start RA m cam ep host port ping names =
    ((if truthy host && RA then [RedisConnect (default "" host) port] else [])
       ++ [SignalHandlersRegistered; ModelLoaded]
       ++ (if truthy host && RA && ping then [HeartbeatThreadStarted] else [])
       ++ [CleanupDone],
     Some ValueError_unknown_mode) /\
  (forall src, ~ In (SourceLoopEntered src)
                 (construct_and_start RA m cam ep host port ping names).1) /\
  (forall self : Detector,
     mode self ∉ ["UPLOAD"; "LIVE"; "HTTP"] ->
     start self = ((if redis_client self then [HeartbeatThreadStarted] else [])
                     ++ [CleanupDone],
                   Some ValueError_unknown_mode)).
Proof.
  intros _ Hm.
  assert (E : construct_and_start RA m cam ep host port ping names =
    ((if truthy host && RA then [RedisConnect (default "" host) port] else [])
       ++ [SignalHandlersRegistered; ModelLoaded]
       ++ (if truthy host && RA && ping then [HeartbeatThreadStarted] else [])
       ++ [CleanupDone],
     Some ValueError_unknown_mode)).
  { unfold construct_and_start, __init__.
    destruct (truthy host && RA); simpl.
    - rewrite start_unknown_mode by exact Hm.
      unfold _start_heartbeat_thread; simpl. destruct ping; reflexivity.
    - rewrite start_unknown_mode by exact Hm. reflexivity. }
  split; [|split; [|split]].
  - rewrite main_is_construct_and_start, parse_mode_unrecognized by exact Hm.
    reflexivity.
  - exact E.
  - intros src. rewrite E. simpl.
    destruct (truthy host && RA); simpl; destruct ping; simpl; intuition congruence.
  - intros self Hs. rewrite start_unknown_mode
      by (apply bool_decide_eq_false; exact Hs).
    unfold _start_heartbeat_thread. destruct (redis_client self); reflexivity.
Qed.

Lemma unknown_mode_is_fatal_witness :
  isascii "FOO" = true /\ recognized "FOO" = false /\
  main true "FOO" "front_door" None (Some "localhost") 6379%N true yolo_names
    = ([], ArgparseError).
Proof.
  split; [reflexivity|]. split; [reflexivity|].
  apply (unknown_mode_is_fatal true "FOO" "front_door" None (Some "localhost")
           6379%N true yolo_names); reflexivity.
Defined.

(** ** Episode segmenter *)

Section Segment.
Variables SILENCE_THRESHOLD MAX_EPISODE_FRAMES : nat.
Variable TELEGRAM_ENABLED : bool.

Let seg := segment SILENCE_THRESHOLD MAX_EPISODE_FRAMES TELEGRAM_ENABLED.

(** An activity frame: the session it leaves. *)
Lemma segment_activity_session self loc frame dets k :
  dets <> [] ->
  (seg self loc frame dets k).1.2 =
  let frames := active_frames loc ++ [new_record self loc frame dets k] in
  if (MAX_EPISODE_FRAMES <=? length frames)%nat then
    mkSession [] ∅ 0 (Some (tick_time k)) (episode_count loc + 1)
      (consecutive_failures loc)
  else
    mkSession frames (count_classes (detections_summary loc) dets) 0
      (match episode_start_time loc with
       | None => Some (tick_time k)
       | Some t => Some t
       end)
      (episode_count loc) (consecutive_failures loc).
Proof.
  intros Hd. unfold seg, segment.
  destruct dets as [|d ds]; [congruence|]. cbn [length Nat.ltb Nat.leb].
  destruct (_send_telegram_alert _ _ _ _ _) as [self1 alert_io].
  fold (new_record self loc frame (d :: ds) k). cbv zeta.
  destruct (MAX_EPISODE_FRAMES <=? _)%nat; [|reflexivity].
  destruct (_send_episode _ _ _ _); reflexivity.
Qed.

(** An activity frame: the episodes it sends. *)
Lemma segment_activity_sent self loc frame dets k :
  dets <> [] ->
  sent_episodes (seg self loc frame dets k).2 =
  let frames := active_frames loc ++ [new_record self loc frame dets k] in
  if (MAX_EPISODE_FRAMES <=? length frames)%nat then [frames] else [].
Proof.
  intros Hd. unfold seg, segment.
  destruct dets as [|d ds]; [congruence|]. cbn [length Nat.ltb Nat.leb].
  destruct (_send_telegram_alert _ _ _ _ _) as [self1 alert_io].
  fold (new_record self loc frame (d :: ds) k). cbv zeta.
  destruct (MAX_EPISODE_FRAMES <=? _)%nat; [|reflexivity].
  destruct (_send_episode _ _ _ _); reflexivity.
Qed.

(** A silent frame: the session it leaves and what it emits. *)
Lemma segment_silence self loc frame k :
  seg self loc frame [] k =
  if (SILENCE_THRESHOLD <=? silence_counter loc + 1)%nat
     && nonempty (active_frames loc)
  then
    (self,
     mkSession [] ∅ 0 None (episode_count loc + 1) (consecutive_failures loc),
     [SendEpisode (active_frames loc) (detections_summary loc)
        (_send_episode self (active_frames loc) (detections_summary loc)
           (tick_send k)).1
        (_send_episode self (active_frames loc) (detections_summary loc)
           (tick_send k)).2])
  else
    (self,
     mkSession (active_frames loc) (detections_summary loc)
       (silence_counter loc + 1) (episode_start_time loc)
       (episode_count loc) (consecutive_failures loc),
     []).
Proof.
  unfold seg, segment. cbn [length Nat.ltb Nat.leb].
  destruct (_ && _); [|reflexivity].
  destruct (_send_episode _ _ _ _); reflexivity.
Qed.

(** The segmenter never touches the failure counter. *)
Lemma segment_failures self loc frame dets k :
  consecutive_failures (seg self loc frame dets k).1.2
  = consecutive_failures loc.
Proof.
  destruct dets as [|d ds].
  - unfold seg. rewrite segment_silence. destruct (_ && _); reflexivity.
  - rewrite segment_activity_session by discriminate. cbv zeta.
    destruct (_ <=? _)%nat; reflexivity.
Qed.
End Segment.

Lemma sent_episodes_app (a b : list Output) :
  sent_episodes (a ++ b) = sent_episodes a ++ sent_episodes b.
Proof.
  induction a as [|o a IH]; [reflexivity|].
  destruct o; simpl; rewrite IH; reflexivity.
Qed.

Lemma segmenter_inv_initial (M : nat) :
  (0 < M)%nat -> segmenter_inv M initial_session [].
Proof.
  intros HM. split; simpl; [exact HM|congruence|discriminate].
Qed.

Lemma segmenter_inv_failures (M n : nat) (loc : Session) (outs : list Output) :
  segmenter_inv M loc outs ->
  segmenter_inv M (set_consecutive_failures n loc) outs.
Proof. intros [H1 H2 H3]. split; assumption. Qed.

(** One segmenter step keeps the invariant. *)
Lemma segment_inv (S M : nat) (TE : bool) self loc frame dets k outs :
  segmenter_inv M loc outs ->
  segmenter_inv M (segment S M TE self loc frame dets k).1.2
    (outs ++ (segment S M TE self loc frame dets k).2).
Proof.
  intros [Hb Hs Hc]. destruct dets as [|d ds].
  - rewrite segment_silence.
    destruct (_ && _); simpl.
    + split; simpl; [lia|congruence|discriminate].
    + rewrite app_nil_r. split; assumption.
  - pose proof (segment_activity_session S M TE self loc frame (d :: ds) k)
      as Hloc.
    pose proof (segment_activity_sent S M TE self loc frame (d :: ds) k)
      as Hsent.
    cbv zeta in Hloc, Hsent.
    rewrite Hloc by discriminate. clear Hloc.
    specialize (Hsent ltac:(discriminate)).
    destruct (M <=? length (active_frames loc ++ _))%nat eqn:E.
    + apply Nat.leb_le in E. rewrite length_app in E. simpl in E.
      split; simpl; [lia|congruence|].
      intros t Ht _. injection Ht as <-.
      exists (active_frames loc ++ [new_record self loc frame (d :: ds) k]),
             (new_record self loc frame (d :: ds) k).
      rewrite sent_episodes_app, Hsent, !last_snoc.
      rewrite length_app. simpl. repeat split; try reflexivity. lia.
    + apply Nat.leb_gt in E.
      split; simpl.
      * exact E.
      * intros _. destruct (episode_start_time loc); discriminate.
      * intros t _ Hnil. apply app_eq_nil in Hnil. destruct Hnil; discriminate.
Qed.

Lemma stream_body_inv (TE : bool) self loc r outs :
  segmenter_inv STREAM_MAX_EPISODE_FRAMES loc outs ->
  segmenter_inv STREAM_MAX_EPISODE_FRAMES
    (run_session (stream_body TE self loc r))
    (outs ++ run_outputs (stream_body TE self loc r)).
Proof.
  intros Hinv. unfold stream_body, run_session, run_outputs.
  destruct r as [|frame k]; simpl.
  - rewrite app_nil_r. apply segmenter_inv_failures, Hinv.
  - destruct (negb _); simpl.
    + rewrite app_nil_r. apply segmenter_inv_failures, Hinv.
    + destruct (tick_results k) as [results|]; simpl.
      * destruct (_detect_frame _ results) as [self1 dets]. simpl.
        apply segment_inv, segmenter_inv_failures, Hinv.
      * rewrite app_nil_r. apply segmenter_inv_failures, Hinv.
Qed.

Lemma stream_loop_inv (TE : bool) reads :
  forall self loc outs,
  segmenter_inv STREAM_MAX_EPISODE_FRAMES loc outs ->
  segmenter_inv STREAM_MAX_EPISODE_FRAMES
    (run_session (stream_loop TE self loc reads))
    (outs ++ run_outputs (stream_loop TE self loc reads)).
Proof.
  induction reads as [|r rest IH]; intros self loc outs Hinv; simpl.
  - unfold run_session, run_outputs. simpl. rewrite app_nil_r. exact Hinv.
  - destruct (consecutive_failures loc <? max_failures)%nat.
    + pose proof (stream_body_inv TE self loc r outs Hinv) as Hb.
      destruct (stream_body TE self loc r) as [[[self1 loc1] o1] raised].
      unfold run_session, run_outputs in Hb. simpl in Hb.
      destruct raised; [exact Hb|].
      specialize (IH self1 loc1 (outs ++ o1) Hb).
      destruct (stream_loop TE self1 loc1 rest) as [[[self2 loc2] o2] raised2].
      unfold run_session, run_outputs in *. simpl in *.
      rewrite app_assoc. exact IH.
    + unfold run_session, run_outputs. simpl. rewrite app_nil_r. exact Hinv.
Qed.

Lemma polling_body_inv (TE : bool) self loc p outs :
  segmenter_inv POLL_MAX_EPISODE_FRAMES loc outs ->
  segmenter_inv POLL_MAX_EPISODE_FRAMES
    (polling_body TE self loc p).1.2
    (outs ++ (polling_body TE self loc p).2).
Proof.
  intros Hinv. unfold polling_body.
  destruct p as [|frame k]; simpl.
  - rewrite app_nil_r. apply segmenter_inv_failures, Hinv.
  - destruct (tick_results k) as [results|]; simpl.
    + destruct (_detect_frame _ results) as [self1 dets].
      apply segment_inv, segmenter_inv_failures, Hinv.
    + rewrite app_nil_r. apply segmenter_inv_failures.
      apply segmenter_inv_failures, Hinv.
Qed.

Lemma polling_loop_inv (TE : bool) polls :
  forall self loc outs,
  segmenter_inv POLL_MAX_EPISODE_FRAMES loc outs ->
  segmenter_inv POLL_MAX_EPISODE_FRAMES
    (polling_loop TE self loc polls).1.2
    (outs ++ (polling_loop TE self loc polls).2).
Proof.
  induction polls as [|p rest IH]; intros self loc outs Hinv; simpl.
  - rewrite app_nil_r. exact Hinv.
  - destruct (consecutive_failures loc <? MAX_FAILURES)%nat.
    + pose proof (polling_body_inv TE self loc p outs Hinv) as Hb.
      destruct (polling_body TE self loc p) as [[self1 loc1] o1].
      simpl in Hb.
      specialize (IH self1 loc1 (outs ++ o1) Hb).
      destruct (polling_loop TE self1 loc1 rest) as [[self2 loc2] o2].
      simpl in *. rewrite app_assoc. exact IH.
    + simpl. rewrite app_nil_r. exact Hinv.
Qed.

(** ** The segmenter over a sequence of processed frames *)

Lemma records_from_length (ps : list Processed) :
  forall n, length (records_from n ps) = length ps.
Proof. induction ps as [|p ps IH]; intros n; simpl; [|rewrite IH]; reflexivity. Qed.

Lemma records_from_app (a b : list Processed) :
  forall n,
  records_from n (a ++ b) = records_from n a ++ records_from (n + length a) b.
Proof.
  induction a as [|p a IH]; intros n; simpl.
  - rewrite Nat.add_0_r. reflexivity.
  - rewrite IH. replace (Datatypes.S n + length a)%nat
      with (n + Datatypes.S (length a))%nat by lia. reflexivity.
Qed.

Lemma segment_frames_app (S M : nat) (TE : bool) (a b : list Processed) :
  forall loc,
  segment_frames S M TE loc (a ++ b) =
  ((segment_frames S M TE (segment_frames S M TE loc a).1 b).1,
   (segment_frames S M TE loc a).2
     ++ (segment_frames S M TE (segment_frames S M TE loc a).1 b).2).
Proof.
  induction a as [|p a IH]; intros loc; simpl.
  - destruct (segment_frames S M TE loc b); reflexivity.
  - rewrite IH. reflexivity.
Qed.

(** A run of activity frames that stays below the cap: every frame is
    appended, nothing is sent. *)
Lemma activity_run (S M : nat) (TE : bool) (ps : list Processed) :
  forall loc,
  Forall has_activity ps ->
  (length (active_frames loc) + length ps < M)%nat ->
  let r := segment_frames S M TE loc ps in
  active_frames r.1
    = active_frames loc ++ records_from (length (active_frames loc)) ps /\
  episode_start_time r.1
    = match ps, episode_start_time loc with
      | p :: _, None => Some (tick_time (p_tick p))
      | _, s => s
      end /\
  silence_counter r.1
    = match ps with [] => silence_counter loc | _ => 0%nat end /\
  episode_count r.1 = episode_count loc /\
  map sent_episodes r.2 = repeat [] (length ps).
Proof.
  induction ps as [|p rest IH]; intros loc Hact Hlen; simpl.
  - rewrite app_nil_r. destruct (episode_start_time loc); repeat split.
  - inversion Hact as [|? ? Hp Hrest]; subst. simpl in Hlen.
    pose proof (segment_activity_session S M TE (p_self p) loc (p_frame p)
                  (p_detections p) (p_tick p) Hp) as Hloc.
    pose proof (segment_activity_sent S M TE (p_self p) loc (p_frame p)
                  (p_detections p) (p_tick p) Hp) as Hsent.
    cbv zeta in Hloc, Hsent.
    assert (E : (M <=? length (active_frames loc ++
                   [new_record (p_self p) loc (p_frame p) (p_detections p)
                      (p_tick p)]))%nat = false).
    { apply Nat.leb_gt. rewrite length_app. simpl. lia. }
    rewrite E in Hloc, Hsent.
    rewrite Hloc, Hsent.
    match goal with
    | |- context [segment_frames S M TE ?l rest] =>
        specialize (IH l Hrest)
    end.
    simpl in IH. rewrite length_app in IH. simpl in IH.
    destruct IH as (I1 & I2 & I3 & I4 & I5); [lia|].
    rewrite I1, I2, I3, I4, I5.
    replace (length (active_frames loc) + 1)%nat
      with (Datatypes.S (length (active_frames loc))) by lia.
    rewrite <- app_assoc. simpl.
    repeat split; destruct rest, (episode_start_time loc); reflexivity.
Qed.

(** A run of silent frames that stays below the threshold, or meets no
    open buffer: the silence counter counts them, nothing else moves and
    nothing is emitted. *)
Lemma silent_run (S M : nat) (TE : bool) (ps : list Processed) :
  forall loc,
  Forall is_silent ps ->
  (silence_counter loc + length ps < S)%nat \/ active_frames loc = [] ->
  segment_frames S M TE loc ps =
  (mkSession (active_frames loc) (detections_summary loc)
     (silence_counter loc + length ps) (episode_start_time loc)
     (episode_count loc) (consecutive_failures loc),
   repeat [] (length ps)).
Proof.
  induction ps as [|p rest IH]; intros loc Hsil Hlen; simpl.
  - rewrite Nat.add_0_r. destruct loc; reflexivity.
  - inversion Hsil as [|? ? Hp Hrest]; subst. simpl in Hlen.
    unfold is_silent in Hp. rewrite Hp, segment_silence.
    assert (E : (S <=? silence_counter loc + 1)%nat
                && nonempty (active_frames loc) = false).
    { destruct Hlen as [Hlen|Hnil].
      - apply andb_false_iff. left. apply Nat.leb_gt. lia.
      - rewrite Hnil. apply andb_false_r. }
    rewrite E. simpl. rewrite IH; [|assumption|simpl].
    + simpl.
      replace (silence_counter loc + 1 + length rest)%nat
        with (silence_counter loc + Datatypes.S (length rest))%nat by lia.
      reflexivity.
    + destruct Hlen as [Hlen|Hnil]; [left; lia|right; assumption].
Qed.

(** ** The loops feed the segmenter *)

Lemma set_consecutive_failures_twice (n m : nat) (loc : Session) :
  set_consecutive_failures n (set_consecutive_failures m loc)
  = set_consecutive_failures n loc.
Proof. reflexivity. Qed.

Lemma set_consecutive_failures_same (loc : Session) :
  set_consecutive_failures (consecutive_failures loc) loc = loc.
Proof. destruct loc; reflexivity. Qed.

(** The segmenter carries the failure counter through unread. *)
Lemma segment_set_failures (S M : nat) (TE : bool) self loc frame dets k n :
  segment S M TE self (set_consecutive_failures n loc) frame dets k =
  ((segment S M TE self loc frame dets k).1.1,
   set_consecutive_failures n (segment S M TE self loc frame dets k).1.2,
   (segment S M TE self loc frame dets k).2).
Proof.
  unfold segment. cbn [active_frames detections_summary silence_counter
    episode_start_time episode_count consecutive_failures
    set_consecutive_failures].
  destruct (0 <? length dets)%nat.
  - destruct (_send_telegram_alert _ _ _ _ _) as [self1 alert_io].
    destruct (M <=? _)%nat; [|reflexivity].
    destruct (_send_episode _ _ _ _); reflexivity.
  - destruct (_ && _); [|reflexivity].
    destruct (_send_episode _ _ _ _); reflexivity.
Qed.

Lemma segment_frames_set_failures (S M : nat) (TE : bool) ps :
  forall loc n,
  segment_frames S M TE (set_consecutive_failures n loc) ps =
  (set_consecutive_failures n (segment_frames S M TE loc ps).1,
   (segment_frames S M TE loc ps).2).
Proof.
  induction ps as [|p rest IH]; intros loc n; simpl; [reflexivity|].
  rewrite segment_set_failures. simpl. rewrite IH. reflexivity.
Qed.

(** What the live loop does to the session and what it emits is what the
    segmenter does on the frames the loop processes; only the failure
    counter is the loop's own. *)
Lemma stream_loop_segments (TE : bool) reads :
  forall self loc,
  let ps := stream_processed TE self loc reads in
  let r :=
    segment_frames STREAM_SILENCE_THRESHOLD STREAM_MAX_EPISODE_FRAMES TE
      loc ps in
  exists n,
    run_session (stream_loop TE self loc reads)
      = set_consecutive_failures n r.1 /\
    run_outputs (stream_loop TE self loc reads) = concat r.2.
Proof.
  induction reads as [|rd rest IH]; intros self loc; simpl.
  - exists (consecutive_failures loc). unfold run_session, run_outputs. simpl.
    rewrite set_consecutive_failures_same. split; reflexivity.
  - destruct (consecutive_failures loc <? max_failures)%nat.
    2:{ exists (consecutive_failures loc). unfold run_session, run_outputs.
        simpl. rewrite set_consecutive_failures_same. split; reflexivity. }
    destruct rd as [|frame k]; simpl.
    + specialize (IH self (set_consecutive_failures
                             (consecutive_failures loc + 1) loc)).
      cbv zeta in IH. destruct IH as (n & E1 & E2).
      destruct (stream_loop TE self _ rest) as [[[s2 l2] o2] b2].
      unfold run_session, run_outputs in *. simpl in *.
      rewrite segment_frames_set_failures in E1, E2. simpl in E1, E2.
      exists n. split; assumption.
    + destruct (negb _).
      * simpl.
        specialize (IH (set_frame_count (frame_count self + 1) self)
                       (set_consecutive_failures 0 loc)).
        cbv zeta in IH. destruct IH as (n & E1 & E2).
        destruct (stream_loop TE _ _ rest) as [[[s2 l2] o2] b2].
        unfold run_session, run_outputs in *. simpl in *.
        rewrite segment_frames_set_failures in E1, E2. simpl in E1, E2.
        exists n. split; assumption.
      * destruct (tick_results k) as [results|]; simpl.
        2:{ exists 0%nat. unfold run_session, run_outputs. simpl.
            split; reflexivity. }
        destruct (_detect_frame _ results) as [self1 dets]. simpl.
        rewrite segment_set_failures.
        remember (segment STREAM_SILENCE_THRESHOLD STREAM_MAX_EPISODE_FRAMES
                    TE self1 loc frame dets k) as sg eqn:Esg.
        destruct sg as [[s1 l1] o1]. simpl.
        specialize (IH s1 (set_consecutive_failures 0 l1)).
        cbv zeta in IH. destruct IH as (n & E1 & E2).
        destruct (stream_loop TE s1 _ rest) as [[[s2 l2] o2] b2].
        unfold run_session, run_outputs in *. simpl in *.
        rewrite segment_frames_set_failures in E1, E2. simpl in E1, E2.
        rewrite <- Esg. simpl.
        exists n. split; [assumption|]. rewrite E2. reflexivity.
Qed.

Lemma polling_loop_segments (TE : bool) polls :
  forall self loc,
  let ps := polling_processed TE self loc polls in
  let r :=
    segment_frames POLL_SILENCE_THRESHOLD POLL_MAX_EPISODE_FRAMES TE loc ps in
  exists n,
    (polling_loop TE self loc polls).1.2 = set_consecutive_failures n r.1 /\
    (polling_loop TE self loc polls).2 = concat r.2.
Proof.
  induction polls as [|p rest IH]; intros self loc; simpl.
  - exists (consecutive_failures loc).
    rewrite set_consecutive_failures_same. split; reflexivity.
  - destruct (consecutive_failures loc <? MAX_FAILURES)%nat.
    2:{ exists (consecutive_failures loc). simpl.
        rewrite set_consecutive_failures_same. split; reflexivity. }
    destruct p as [|frame k]; simpl.
    + specialize (IH self (set_consecutive_failures
                             (consecutive_failures loc + 1) loc)).
      cbv zeta in IH. destruct IH as (n & E1 & E2).
      destruct (polling_loop TE self _ rest) as [[s2 l2] o2].
      simpl in *.
      rewrite segment_frames_set_failures in E1, E2. simpl in E1, E2.
      exists n. split; assumption.
    + destruct (tick_results k) as [results|]; simpl.
      * destruct (_detect_frame _ results) as [self1 dets]. simpl.
        rewrite segment_set_failures.
        remember (segment POLL_SILENCE_THRESHOLD POLL_MAX_EPISODE_FRAMES
                    TE self1 loc frame dets k) as sg eqn:Esg.
        destruct sg as [[s1 l1] o1]. simpl.
        specialize (IH s1 (set_consecutive_failures 0 l1)).
        cbv zeta in IH. destruct IH as (n & E1 & E2).
        destruct (polling_loop TE s1 _ rest) as [[s2 l2] o2].
        simpl in *.
        rewrite segment_frames_set_failures in E1, E2. simpl in E1, E2.
        rewrite <- Esg. simpl.
        exists n. split; [assumption|]. rewrite E2. reflexivity.
      * specialize (IH (set_frame_count (frame_count self + 1) self)
                       (set_consecutive_failures 1 loc)).
        cbv zeta in IH. destruct IH as (n & E1 & E2).
        destruct (polling_loop TE _ _ rest) as [[s2 l2] o2].
        simpl in *.
        rewrite segment_frames_set_failures in E1, E2. simpl in E1, E2.
        exists n. split; assumption.
Qed.

(** ** Scenarios *)

Lemma snoc_of_length {A} (n : nat) :
  forall l : list A, length l = Datatypes.S n ->
  exists l' x, l = l' ++ [x] /\ length l' = n.
Proof.
  induction n as [|n IH]; intros l Hl.
  - destruct l as [|x [|y l]]; try discriminate. exists [], x. split; reflexivity.
  - destruct l as [|x l]; [discriminate|]. injection Hl as Hl.
    destruct (IH l Hl) as (l' & y & -> & Hn).
    exists (x :: l'), y. split; [reflexivity|]. simpl. rewrite Hn. reflexivity.
Qed.

(** Five activity frames, then fifteen silent ones, on the segmenter. *)
Lemma silence_scenario (TE : bool)
    (act sil : list Processed) :
  length act = 5%nat -> Forall has_activity act ->
  length sil = 15%nat -> Forall is_silent sil ->
  let r :=
    segment_frames STREAM_SILENCE_THRESHOLD STREAM_MAX_EPISODE_FRAMES TE
      initial_session (act ++ sil) in
  STREAM_SILENCE_THRESHOLD = 15%nat /\
  map sent_episodes r.2 = repeat [] 19 ++ [[records_from 0 act]] /\
  length (records_from 0 act) = 5%nat /\
  active_frames r.1 = [] /\
  episode_start_time r.1 = None /\
  silence_counter r.1 = 0%nat /\
  episode_count r.1 = 1%nat.
Proof.
  intros Hla Hact Hls Hsil r.
  destruct (snoc_of_length 14 sil Hls) as (s14 & q & -> & Hl14).
  apply Forall_app in Hsil. destruct Hsil as [Hs14 Hq].
  apply Forall_inv in Hq. unfold is_silent in Hq.
  pose proof (activity_run STREAM_SILENCE_THRESHOLD STREAM_MAX_EPISODE_FRAMES
                TE act initial_session Hact) as Ha.
  cbv zeta in Ha. simpl active_frames in Ha. simpl length in Ha.
  destruct Ha as (A1 & A2 & A3 & A4 & A5).
  { rewrite Hla. unfold STREAM_MAX_EPISODE_FRAMES. lia. }
  simpl in A1.
  set (ra := segment_frames STREAM_SILENCE_THRESHOLD
               STREAM_MAX_EPISODE_FRAMES TE initial_session act) in *.
  assert (A3' : silence_counter ra.1 = 0%nat).
  { rewrite A3. destruct act; reflexivity. }
  pose proof (silent_run STREAM_SILENCE_THRESHOLD STREAM_MAX_EPISODE_FRAMES
                TE s14 ra.1 Hs14) as Hs.
  rewrite A3', Hl14, A1, A4 in Hs.
  specialize (Hs ltac:(left; unfold STREAM_SILENCE_THRESHOLD; lia)).
  subst r.
  rewrite !segment_frames_app. fold ra. rewrite Hs.
  cbn [fst snd segment_frames]. rewrite Hq, segment_silence.
  cbn [silence_counter active_frames detections_summary episode_count
       episode_start_time consecutive_failures].
  assert (Hne : nonempty (records_from 0 act) = true).
  { destruct act; [discriminate|reflexivity]. }
  rewrite Hne.
  change (STREAM_SILENCE_THRESHOLD <=? 0 + 14 + 1)%nat with true.
  cbn [andb fst snd].
  rewrite !map_app, A5, Hla, map_repeat.
  split; [reflexivity|].
  split.
  { simpl map. rewrite app_assoc, <- repeat_app. reflexivity. }
  split; [rewrite records_from_length; exact Hla|].
  repeat split.
Qed.

(** 305 activity frames on the segmenter. *)
Lemma cap_scenario (TE : bool) (ps : list Processed) :
  length ps = 305%nat -> Forall has_activity ps ->
  let r :=
    segment_frames STREAM_SILENCE_THRESHOLD STREAM_MAX_EPISODE_FRAMES TE
      initial_session ps in
  STREAM_MAX_EPISODE_FRAMES = 300%nat /\
  map sent_episodes r.2
    = repeat [] 299 ++ [[records_from 0 (take 300 ps)]] ++ repeat [] 5 /\
  length (records_from 0 (take 300 ps)) = 300%nat /\
  active_frames r.1 = records_from 0 (drop 300 ps) /\
  length (active_frames r.1) = 5%nat /\
  episode_start_time r.1 = (fun p => tick_time (p_tick p)) <$> ps !! 299%nat /\
  episode_count r.1 = 1%nat.
Proof.
  intros Hlen Hact r.
  destruct (lookup_lt_is_Some_2 ps 299) as [p Hp]; [lia|].
  pose proof (take_drop_middle ps 299 p Hp) as Hsplit.
  assert (Hla : length (take 299 ps) = 299%nat) by (rewrite length_take; lia).
  assert (Hlr : length (drop 300 ps) = 5%nat) by (rewrite length_drop; lia).
  assert (Ha : Forall has_activity (take 299 ps)) by (apply Forall_take, Hact).
  assert (Hr : Forall has_activity (drop 300 ps)) by (apply Forall_drop, Hact).
  assert (Hpa : has_activity p).
  { eapply Forall_lookup_1; [exact Hact|exact Hp]. }
  assert (Ht300 : records_from 0 (take 300 ps)
                  = records_from 0 (take 299 ps) ++ [record_of 299 p]).
  { rewrite (take_S_r ps 299 p Hp), records_from_app, Hla. reflexivity. }
  (* the first 299 frames *)
  pose proof (activity_run STREAM_SILENCE_THRESHOLD STREAM_MAX_EPISODE_FRAMES
                TE (take 299 ps) initial_session Ha) as A.
  cbv zeta in A. simpl active_frames in A. simpl length in A.
  destruct A as (A1 & A2 & A3 & A4 & A5).
  { rewrite Hla. unfold STREAM_MAX_EPISODE_FRAMES. lia. }
  simpl in A1, A4. rewrite Hla in A5.
  set (ra := segment_frames STREAM_SILENCE_THRESHOLD
               STREAM_MAX_EPISODE_FRAMES TE initial_session (take 299 ps)) in *.
  (* the 300th frame *)
  pose proof (segment_activity_session STREAM_SILENCE_THRESHOLD
                STREAM_MAX_EPISODE_FRAMES TE (p_self p) ra.1 (p_frame p)
                (p_detections p) (p_tick p) Hpa) as B1.
  pose proof (segment_activity_sent STREAM_SILENCE_THRESHOLD
                STREAM_MAX_EPISODE_FRAMES TE (p_self p) ra.1 (p_frame p)
                (p_detections p) (p_tick p) Hpa) as B2.
  cbv zeta in B1, B2.
  assert (Hrec : new_record (p_self p) ra.1 (p_frame p) (p_detections p)
                   (p_tick p) = record_of 299 p).
  { unfold new_record, record_of. rewrite A1, records_from_length, Hla.
    reflexivity. }
  rewrite Hrec, A1, <- Ht300 in B1, B2.
  assert (Hcap : (STREAM_MAX_EPISODE_FRAMES <=?
                    length (records_from 0 (take 300 ps)))%nat = true).
  { apply Nat.leb_le. rewrite records_from_length, length_take.
    unfold STREAM_MAX_EPISODE_FRAMES. lia. }
  rewrite Hcap in B1, B2.
  (* the last five frames *)
  set (rb := segment STREAM_SILENCE_THRESHOLD STREAM_MAX_EPISODE_FRAMES TE
               (p_self p) ra.1 (p_frame p) (p_detections p) (p_tick p)) in *.
  pose proof (activity_run STREAM_SILENCE_THRESHOLD STREAM_MAX_EPISODE_FRAMES
                TE (drop 300 ps) rb.1.2 Hr) as C.
  cbv zeta in C. rewrite B1 in C. simpl active_frames in C.
  simpl length in C. simpl episode_start_time in C. simpl episode_count in C.
  destruct C as (C1 & C2 & C3 & C4 & C5).
  { rewrite Hlr. unfold STREAM_MAX_EPISODE_FRAMES. lia. }
  simpl in C1. rewrite Hlr in C5.
  assert (C2' : episode_start_time
                  (segment_frames STREAM_SILENCE_THRESHOLD
                     STREAM_MAX_EPISODE_FRAMES TE
                     (mkSession [] ∅ 0 (Some (tick_time (p_tick p)))
                        (episode_count ra.1 + 1) (consecutive_failures ra.1))
                     (drop 300 ps)).1 = Some (tick_time (p_tick p))).
  { rewrite C2. destruct (drop 300 ps); reflexivity. }
  (* together *)
  assert (Er : r = segment_frames STREAM_SILENCE_THRESHOLD
                     STREAM_MAX_EPISODE_FRAMES TE initial_session
                     (take 299 ps ++ p :: drop 300 ps))
    by (subst r; rewrite Hsplit; reflexivity).
  clearbody r. subst r.
  rewrite segment_frames_app. fold ra.
  cbn [segment_frames fst snd]. fold rb. rewrite B1.
  rewrite map_app. cbn [map]. rewrite A5, B2, C5, C1, C2', C4, A4, Hp.
  rewrite !records_from_length, length_take, Hlr, Hlen.
  repeat split.
Qed.

Lemma sent_episodes_concat (outss : list (list Output)) :
  sent_episodes (concat outss) = concat (map sent_episodes outss).
Proof.
  induction outss as [|o rest IH]; simpl; [reflexivity|].
  rewrite sent_episodes_app, IH. reflexivity.
Qed.

(** C3: with [SILENCE_THRESHOLD] = 15, a fresh live session fed five
    activity frames (indices 0 to 4) and then fifteen silent frames
    (indices 5 to 19) sends nothing while it processes indices 0 to 18 and
    sends exactly one episode while it processes index 19; that episode
    holds exactly the records of frames 0 to 4, and the segmenter is idle
    afterwards. So does every run of the live loop that processes exactly
    these twenty frames. *)
Theorem silence_threshold_closes_episode (TE : bool)
    (act sil : list Processed) :
  length act = 5%nat -> Forall has_activity act ->
  length sil = 15%nat -> Forall is_silent sil ->
  let r :=
    segment_frames STREAM_SILENCE_THRESHOLD STREAM_MAX_EPISODE_FRAMES TE
      initial_session (act ++ sil) in
  STREAM_SILENCE_THRESHOLD = 15%nat /\
  map sent_episodes r.2 = repeat [] 19 ++ [[records_from 0 act]] /\
  length (records_from 0 act) = 5%nat /\
  active_frames r.1 = [] /\
  episode_start_time r.1 = None /\
  silence_counter r.1 = 0%nat /\
  episode_count r.1 = 1%nat /\
  (forall self reads,
     stream_processed TE self initial_session reads = act ++ sil ->
     let live := stream_loop TE self initial_session reads in
     sent_episodes (run_outputs live) = [records_from 0 act] /\
     active_frames (run_session live) = [] /\
     episode_start_time (run_session live) = None).
Proof.
  intros Hla Hact Hls Hsil r.
  destruct (silence_scenario TE act sil Hla Hact Hls Hsil)
    as (F1 & F2 & F3 & F4 & F5 & F6 & F7).
  fold r in F2, F4, F5, F6, F7.
  repeat (split; [assumption|]).
  intros self reads Hps live.
  destruct (stream_loop_segments TE reads self initial_session)
    as (n & E1 & E2).
  rewrite Hps in E1, E2. fold r in E1, E2. fold live in E1, E2.
  rewrite E1, E2, sent_episodes_concat, F2. simpl.
  rewrite F4, F5. repeat split.
Qed.

(** C4: with [MAX_EPISODE_FRAMES] = 300, a fresh live session fed 305
    activity frames sends exactly one episode, while it processes the 300th
    frame, and that episode holds the records of the first 300 frames;
    afterwards the buffer holds exactly the records of the remaining five
    frames, renumbered from 0, under a start time equal to the time of the
    300th frame. So does every run of the live loop that processes exactly
    these 305 frames. *)
Theorem frame_cap_forces_one_flush (TE : bool) (ps : list Processed) :
  length ps = 305%nat -> Forall has_activity ps ->
  let r :=
    segment_frames STREAM_SILENCE_THRESHOLD STREAM_MAX_EPISODE_FRAMES TE
      initial_session ps in
  STREAM_MAX_EPISODE_FRAMES = 300%nat /\
  map sent_episodes r.2
    = repeat [] 299 ++ [[records_from 0 (take 300 ps)]] ++ repeat [] 5 /\
  length (records_from 0 (take 300 ps)) = 300%nat /\
  active_frames r.1 = records_from 0 (drop 300 ps) /\
  length (active_frames r.1) = 5%nat /\
  episode_start_time r.1 = (fun p => tick_time (p_tick p)) <$> ps !! 299%nat /\
  episode_count r.1 = 1%nat /\
  (forall self reads,
     stream_processed TE self initial_session reads = ps ->
     let live := stream_loop TE self initial_session reads in
     sent_episodes (run_outputs live) = [records_from 0 (take 300 ps)] /\
     active_frames (run_session live) = records_from 0 (drop 300 ps) /\
     episode_start_time (run_session live)
       = (fun p => tick_time (p_tick p)) <$> ps !! 299%nat).
Proof.
  intros Hlen Hact r.
  destruct (cap_scenario TE ps Hlen Hact)
    as (F1 & F2 & F3 & F4 & F5 & F6 & F7).
  fold r in F2, F4, F5, F6, F7.
  repeat (split; [assumption|]).
  intros self reads Hps live.
  destruct (stream_loop_segments TE reads self initial_session)
    as (n & E1 & E2).
  rewrite Hps in E1, E2. fold r in E1, E2. fold live in E1, E2.
  rewrite E1, E2, sent_episodes_concat, F2.
  rewrite !concat_app.
  assert (Hnil : forall m, concat (repeat ([] : list (list FrameRecord)) m) = []).
  { induction m; simpl; [reflexivity|assumption]. }
  rewrite !Hnil. simpl. rewrite F4, F6. repeat split.
Qed.

Lemma Forall_repeat_intro {A} (P : A -> Prop) (x : A) (n : nat) :
  P x -> Forall P (repeat x n).
Proof. intros Hx. induction n; simpl; constructor; assumption. Qed.

Lemma Forall_has_activity (ps : list Processed) :
  forallb (fun p => nonempty (p_detections p)) ps = true ->
  Forall has_activity ps.
Proof.
  induction ps as [|p ps IH]; simpl; intros H; constructor.
  - apply andb_true_iff in H. destruct H as [H _].
    unfold has_activity. destruct (p_detections p); discriminate.
  - apply IH. apply andb_true_iff in H. tauto.
Qed.

Lemma Forall_is_silent (ps : list Processed) :
  forallb (fun p => negb (nonempty (p_detections p))) ps = true ->
  Forall is_silent ps.
Proof.
  induction ps as [|p ps IH]; simpl; intros H; constructor.
  - apply andb_true_iff in H. destruct H as [H _].
    unfold is_silent. destruct (p_detections p); [reflexivity|discriminate].
  - apply IH. apply andb_true_iff in H. tauto.
Qed.

Lemma silence_threshold_closes_episode_witness :
  let reads := camera 5 15 in
  let ps := stream_processed false live_detector initial_session reads in
  let act := take 5 ps in
  let sil := drop 5 ps in
  length act = 5%nat /\ Forall has_activity act /\
  length sil = 15%nat /\ Forall is_silent sil /\
  sent_episodes
    (run_outputs (stream_loop false live_detector initial_session reads))
  = [records_from 0 act].
Proof.
  intros reads ps act sil.
  assert (H1 : length act = 5%nat) by (vm_compute; reflexivity).
  assert (H2 : Forall has_activity act)
    by (apply Forall_has_activity; vm_compute; reflexivity).
  assert (H3 : length sil = 15%nat) by (vm_compute; reflexivity).
  assert (H4 : Forall is_silent sil)
    by (apply Forall_is_silent; vm_compute; reflexivity).
  pose proof (eq_sym (take_drop 5 ps)) as Hps.
  split; [exact H1|]. split; [exact H2|].
  split; [exact H3|]. split; [exact H4|].
  pose proof (silence_threshold_closes_episode false act sil H1 H2 H3 H4) as T.
  destruct T as (_ & _ & _ & _ & _ & _ & _ & T).
  exact (proj1 (T live_detector reads Hps)).
Defined.

Lemma frame_cap_forces_one_flush_witness :
  let reads := camera 305 0 in
  let ps := stream_processed false live_detector initial_session reads in
  length ps = 305%nat /\ Forall has_activity ps /\
  map length
    (sent_episodes
       (run_outputs (stream_loop false live_detector initial_session reads)))
  = [300%nat] /\
  length (active_frames
            (run_session
               (stream_loop false live_detector initial_session reads)))
  = 5%nat.
Proof.
  intros reads ps.
  assert (H1 : length ps = 305%nat) by (vm_compute; reflexivity).
  assert (H2 : Forall has_activity ps)
    by (apply Forall_has_activity; vm_compute; reflexivity).
  split; [exact H1|]. split; [exact H2|].
  pose proof (frame_cap_forces_one_flush false ps H1 H2) as T.
  destruct T as (_ & _ & L300 & _ & _ & _ & _ & Hloop).
  pose proof (Hloop live_detector reads eq_refl) as T.
  destruct T as (E1 & E2 & _).
  split.
  - rewrite E1. cbn [map]. rewrite L300. reflexivity.
  - rewrite E2, records_from_length, length_drop, H1. reflexivity.
Defined.

(** C2: in live and in polling mode the buffer of the open episode never
    exceeds [MAX_EPISODE_FRAMES] (300 live, 120 polling) in any state the
    loop passes between two iterations; it stays below the cap. Whenever
    an append makes the count reach the cap, that same step sends the
    episode with the appended record and leaves the buffer empty. *)
Theorem episode_frames_capped :
  STREAM_MAX_EPISODE_FRAMES = 300%nat /\
  POLL_MAX_EPISODE_FRAMES = 120%nat /\
  (forall TE self reads,
     (length (active_frames
                (run_session (stream_loop TE self initial_session reads)))
      < STREAM_MAX_EPISODE_FRAMES)%nat) /\
  (forall TE self polls,
     (length (active_frames
                (polling_loop TE self initial_session polls).1.2)
      < POLL_MAX_EPISODE_FRAMES)%nat) /\
  (forall S M TE self loc frame dets k,
     dets <> [] ->
     (M <= length (active_frames loc) + 1)%nat ->
     let r := segment S M TE self loc frame dets k in
     active_frames r.1.2 = [] /\
     sent_episodes r.2
       = [active_frames loc ++ [new_record self loc frame dets k]]).
Proof.
  split; [reflexivity|]. split; [reflexivity|]. split; [|split].
  - intros TE self reads.
    assert (H0 : (0 < STREAM_MAX_EPISODE_FRAMES)%nat)
      by (unfold STREAM_MAX_EPISODE_FRAMES; lia).
    pose proof (stream_loop_inv TE reads self initial_session []
                  (segmenter_inv_initial _ H0)) as H.
    exact (inv_bound _ _ _ H).
  - intros TE self polls.
    assert (H0 : (0 < POLL_MAX_EPISODE_FRAMES)%nat)
      by (unfold POLL_MAX_EPISODE_FRAMES; lia).
    pose proof (polling_loop_inv TE polls self initial_session []
                  (segmenter_inv_initial _ H0)) as H.
    exact (inv_bound _ _ _ H).
  - intros S M TE self loc frame dets k Hd Hcap r. subst r.
    rewrite segment_activity_session, segment_activity_sent by exact Hd.
    cbv zeta.
    assert (E : (M <=? length (active_frames loc ++
                   [new_record self loc frame dets k]))%nat = true).
    { apply Nat.leb_le. rewrite length_app. simpl. exact Hcap. }
    rewrite E. split; reflexivity.
Qed.

Lemma episode_frames_capped_witness :
  let loc :=
    mkSession (records_from 0 (repeat (activity_frame 1) 119)) ∅ 0
      (Some 1%Q) 0 0 in
  [person (9 # 10)] <> [] /\
  (POLL_MAX_EPISODE_FRAMES <= length (active_frames loc) + 1)%nat /\
  active_frames
    (segment POLL_SILENCE_THRESHOLD POLL_MAX_EPISODE_FRAMES false
       http_detector loc sample_frame [person (9 # 10)] (activity_tick 2)).1.2
  = [].
Proof.
  intros loc.
  assert (Hd : [person (9 # 10)] <> []) by discriminate.
  assert (Hc : (POLL_MAX_EPISODE_FRAMES <= length (active_frames loc) + 1)%nat).
  { change (active_frames loc)
      with (records_from 0 (repeat (activity_frame 1) 119)).
    rewrite records_from_length, repeat_length.
    unfold POLL_MAX_EPISODE_FRAMES. lia. }
  split; [exact Hd|]. split; [exact Hc|].
  exact (proj1 (proj2 (proj2 (proj2 (proj2 episode_frames_capped)))
                  POLL_SILENCE_THRESHOLD POLL_MAX_EPISODE_FRAMES false
                  http_detector loc sample_frame [person (9 # 10)]
                  (activity_tick 2) Hd Hc)).
Defined.

(** C5, as stated, fails: after 120 polled activity frames the polling
    session has just sent the capped episode; its start time is recorded
    (the time of the flush) and its buffer is empty. *)
Lemma start_time_without_frames_after_cap :
  let r :=
    polling_loop false http_detector initial_session
      (repeat (Snapshot sample_frame (activity_tick 1000)) 120) in
  episode_start_time r.1.2 = Some 1000%Q /\
  active_frames r.1.2 = [] /\
  map length (sent_episodes r.2) = [120%nat].
Proof. vm_compute. repeat split. Qed.

(** C5 (amended): in every state a live or polling session passes between
    two iterations, a non-empty buffer has a recorded start time, and a
    recorded start time over an empty buffer occurs only as the continuation
    left by a frame-cap flush: the episode sent last then holds exactly
    [MAX_EPISODE_FRAMES] records and the start time is the timestamp of its
    last record. *)
Theorem open_episode_has_frames_or_continues (TE : bool) (self : Detector)
    (reads : list Read) (polls : list Poll) :
  let live := stream_loop TE self initial_session reads in
  let poll := polling_loop TE self initial_session polls in
  (active_frames (run_session live) <> [] ->
   episode_start_time (run_session live) <> None) /\
  (forall t,
     episode_start_time (run_session live) = Some t ->
     active_frames (run_session live) = [] ->
     exists frames r,
       last (sent_episodes (run_outputs live)) = Some frames /\
       length frames = STREAM_MAX_EPISODE_FRAMES /\
       last frames = Some r /\ timestamp r = t) /\
  (active_frames poll.1.2 <> [] -> episode_start_time poll.1.2 <> None) /\
  (forall t,
     episode_start_time poll.1.2 = Some t ->
     active_frames poll.1.2 = [] ->
     exists frames r,
       last (sent_episodes poll.2) = Some frames /\
       length frames = POLL_MAX_EPISODE_FRAMES /\
       last frames = Some r /\ timestamp r = t).
Proof.
  intros live poll.
  assert (HS : (0 < STREAM_MAX_EPISODE_FRAMES)%nat)
    by (unfold STREAM_MAX_EPISODE_FRAMES; lia).
  assert (HP : (0 < POLL_MAX_EPISODE_FRAMES)%nat)
    by (unfold POLL_MAX_EPISODE_FRAMES; lia).
  pose proof (stream_loop_inv TE reads self initial_session []
                (segmenter_inv_initial _ HS)) as [_ L2 L3].
  pose proof (polling_loop_inv TE polls self initial_session []
                (segmenter_inv_initial _ HP)) as [_ P2 P3].
  simpl in L3, P3.
  repeat split; assumption.
Qed.

Lemma open_episode_has_frames_or_continues_witness :
  let poll :=
    polling_loop false http_detector initial_session
      (repeat (Snapshot sample_frame (activity_tick 1000)) 120) in
  episode_start_time poll.1.2 = Some 1000%Q /\
  active_frames poll.1.2 = [] /\
  exists frames r,
    last (sent_episodes poll.2) = Some frames /\
    length frames = POLL_MAX_EPISODE_FRAMES /\
    last frames = Some r /\ timestamp r = 1000%Q.
Proof.
  intros poll.
  assert (H1 : episode_start_time poll.1.2 = Some 1000%Q)
    by (vm_compute; reflexivity).
  assert (H2 : active_frames poll.1.2 = []) by (vm_compute; reflexivity).
  split; [exact H1|]. split; [exact H2|].
  exact (proj2 (proj2 (proj2
           (open_episode_has_frames_or_continues false http_detector []
              (repeat (Snapshot sample_frame (activity_tick 1000)) 120))))
           1000%Q H1 H2).
Defined.

(** ** Termination of a session *)

Lemma send_pending_sent (self : Detector) (loc : Session) (tr : Transport) :
  active_frames (send_pending self loc tr).1 = active_frames loc /\
  sent_episodes (send_pending self loc tr).2
    = if nonempty (active_frames loc) then [active_frames loc] else [].
Proof.
  unfold send_pending. destruct (nonempty (active_frames loc)).
  - destruct (_send_episode _ _ _ _). split; reflexivity.
  - split; reflexivity.
Qed.

(** The polling session flushes an open episode once, in its [finally]
    block. *)
Lemma http_polling_session_flushes_once (TE : bool) (self : Detector)
    (polls : list Poll) (final : Transport) :
  let l := polling_loop TE self initial_session polls in
  sent_episodes (run_outputs (_http_polling_session TE self polls final))
  = sent_episodes l.2
    ++ (if nonempty (active_frames l.1.2) then [active_frames l.1.2] else []).
Proof.
  intros l. unfold _http_polling_session. fold l.
  destruct l as [[self1 loc1] outs].
  pose proof (send_pending_sent self1 loc1 final) as [_ Hs].
  destruct (send_pending self1 loc1 final) as [loc2 outs2].
  unfold run_outputs. simpl in *. rewrite sent_episodes_app, Hs. reflexivity.
Qed.

(** The live session that gives up on the camera with an episode open
    flushes it twice: before raising, and again in its [finally] block. *)
Lemma process_stream_give_up_flushes_twice (TE : bool) (self : Detector)
    (reads : list Read) (pending final : Transport) :
  let l := stream_loop TE self initial_session reads in
  run_exit l = false ->
  (max_failures <= consecutive_failures (run_session l))%nat ->
  active_frames (run_session l) <> [] ->
  sent_episodes (run_outputs (_process_stream TE self reads pending final))
  = sent_episodes (run_outputs l)
    ++ [active_frames (run_session l); active_frames (run_session l)].
Proof.
  intros l. unfold _process_stream. fold l.
  destruct l as [[[self1 loc1] outs] raised].
  unfold run_exit, run_session, run_outputs. cbn [fst snd].
  intros -> Hmax Hne.
  apply Nat.leb_le in Hmax. rewrite Hmax.
  pose proof (send_pending_sent self1 loc1 pending) as [Ha Hs].
  destruct (send_pending self1 loc1 pending) as [loc2 outs2].
  cbn [fst snd] in Ha, Hs.
  pose proof (send_pending_sent self1 loc2 final) as [_ Hs'].
  destruct (send_pending self1 loc2 final) as [loc3 outs3].
  cbn [fst snd] in Hs'. cbn [fst snd].
  rewrite !sent_episodes_app, Hs, Hs', Ha.
  destruct (active_frames loc1); [congruence|]. reflexivity.
Qed.

(** C1 is broken by [_process_stream]: when a live session gives up after
    [max_failures] consecutive failed reads with an episode open, the
    disconnect handling sends the episode and the [finally] block sends the
    same, uncleared, buffer again. So it is on the reads [lost_camera] (one
    person seen, then thirty failed reads), where the one-frame episode is
    sent twice, and so it is on every run that ends this way. *)
Theorem process_stream_sends_pending_episode_twice :
  (let r := _process_stream false live_detector lost_camera all_ok all_ok in
   run_exit r = Some RuntimeError_too_many_failures /\
   sent_episodes (run_outputs r)
     = [[lost_camera_record]; [lost_camera_record]]) /\
  (forall TE self reads pending final,
     let l := stream_loop TE self initial_session reads in
     run_exit l = false ->
     (max_failures <= consecutive_failures (run_session l))%nat ->
     active_frames (run_session l) <> [] ->
     run_exit (_process_stream TE self reads pending final)
       = Some RuntimeError_too_many_failures /\
     sent_episodes (run_outputs (_process_stream TE self reads pending final))
       = sent_episodes (run_outputs l)
         ++ [active_frames (run_session l); active_frames (run_session l)]).
Proof.
  split.
  - vm_compute. split; reflexivity.
  - intros TE self reads pending final l Hret Hmax Hne. split.
    + unfold _process_stream. fold l.
      destruct l as [[[self1 loc1] outs] raised].
      unfold run_exit, run_session in *. cbn [fst snd] in *. subst raised.
      apply Nat.leb_le in Hmax. rewrite Hmax.
      destruct (send_pending self1 loc1 pending) as [loc2 outs2].
      destruct (send_pending self1 loc2 final) as [loc3 outs3].
      reflexivity.
    + apply process_stream_give_up_flushes_twice; assumption.
Qed.

(** * Further properties of the engine *)

(** ** Detection adapter *)

Lemma class_default_not_allowed (n : nat) :
  ("class_" +:+ pretty n) ∉ ALLOWED_CLASSES.
Proof.
  unfold ALLOWED_CLASSES. intros H.
  repeat (apply elem_of_cons in H; destruct H as [H|H]; [discriminate H|]).
  inversion H.
Qed.

Lemma detect_boxes_spec (boxes : list RawBox) :
  forall self acc,
  let r := detect_boxes self boxes acc in
  exists new,
    r.2 = acc ++ new /\
    r.1 = set_detection_count (detection_count self + length new) self /\
    Forall (fun d => det_class d ∈ ALLOWED_CLASSES /\
                     class_names self !! det_class_id d = Some (det_class d))
           new /\
    (length new <= length boxes)%nat.
Proof.
  induction boxes as [|box rest IH]; intros self acc; simpl.
  - exists []. rewrite app_nil_r, Nat.add_0_r. destruct self.
    split; [reflexivity|]. split; [reflexivity|].
    split; [constructor|simpl; lia].
  - destruct (bool_decide _) eqn:E; simpl.
    + apply bool_decide_eq_true in E.
      destruct (IH (set_detection_count (detection_count self + 1) self)
                   (acc ++ [mkDetection
                      (default ("class_" +:+ pretty (box_cls box))
                         (class_names self !! box_cls box))
                      (box_conf box) (box_xyxy box) (box_cls box)]))
        as (new & E1 & E2 & E3 & E4).
      eexists (_ :: new). rewrite E1, E2, <- app_assoc. simpl.
      split; [reflexivity|]. split.
      { unfold set_detection_count. simpl. f_equal. lia. }
      split; [|lia]. constructor; [|exact E3]. simpl. split; [exact E|].
      destruct (class_names self !! box_cls box) as [name|] eqn:En;
        [reflexivity|]. simpl in E.
      exfalso. exact (class_default_not_allowed _ E).
    + destruct (IH self acc) as (new & E1 & E2 & E3 & E4).
      exists new. split; [assumption|]. split; [assumption|].
      split; [assumption|lia].
Qed.

Lemma detect_results_spec (results : list (option (list RawBox))) :
  forall self acc,
  let r := detect_results self results acc in
  exists new,
    r.2 = acc ++ new /\
    r.1 = set_detection_count (detection_count self + length new) self /\
    Forall (fun d => det_class d ∈ ALLOWED_CLASSES /\
                     class_names self !! det_class_id d = Some (det_class d))
           new.
Proof.
  induction results as [|res rest IH]; intros self acc; simpl.
  - exists []. rewrite app_nil_r, Nat.add_0_r. destruct self.
    split; [reflexivity|]. split; [reflexivity|constructor].
  - destruct res as [boxes|]; [|apply IH].
    destruct (detect_boxes_spec boxes self acc) as (new1 & B1 & B2 & B3 & _).
    destruct (detect_boxes self boxes acc) as [self1 acc1].
    simpl in B1, B2. subst self1 acc1.
    destruct (IH (set_detection_count (detection_count self + length new1) self)
                 (acc ++ new1)) as (new2 & R1 & R2 & R3).
    exists (new1 ++ new2). rewrite R1, R2, app_assoc. simpl.
    split; [reflexivity|]. split.
    + unfold set_detection_count. simpl. rewrite length_app. f_equal. lia.
    + apply Forall_app. split; assumption.
Qed.

(** X1: [_detect_frame] reports only classes of the allow-list, each under
    the name the model gives to its class id (a class id the model does not
    name is never reported), and it advances [detection_count] by exactly
    the number of detections it returns, leaving the rest of the detector
    as it was. *)
Theorem detect_frame_allow_list (self : Detector)
    (results : list (option (list RawBox))) :
  let r := _detect_frame self results in
  Forall (fun d => det_class d ∈ ALLOWED_CLASSES /\
                   class_names self !! det_class_id d = Some (det_class d))
         r.2 /\
  r.1 = set_detection_count (detection_count self + length r.2) self.
Proof.
  unfold _detect_frame.
  destruct (detect_results_spec results self []) as (new & E1 & E2 & E3).
  simpl in E1. cbv zeta.
  destruct (detect_results self results []) as [self1 dets].
  simpl in *. subst. split; [exact E3|reflexivity].
Qed.

(** ** What the segmenter keeps true *)

Lemma count_label_cons (c : string) (b : Box) (bs : list Box) :
  count_label c (b :: bs)
  = ((if String.eqb (label b) c then 1 else 0) + count_label c bs)%nat.
Proof.
  unfold count_label. simpl. destruct (String.eqb (label b) c); reflexivity.
Qed.

Lemma count_classes_lookup (dets : list Detection) :
  forall (m : gmap string nat) c,
  default 0%nat (count_classes m dets !! c)
  = (default 0%nat (m !! c) + count_label c (frame_boxes dets))%nat.
Proof.
  unfold count_classes.
  induction dets as [|d ds IH]; intros m c; simpl.
  - unfold count_label. simpl. lia.
  - rewrite IH, count_label_cons. simpl.
    destruct (String.eqb (det_class d) c) eqn:E.
    + apply String.eqb_eq in E. subst c. rewrite lookup_insert_eq. simpl. lia.
    + apply String.eqb_neq in E. rewrite lookup_insert_ne by exact E. lia.
Qed.

Lemma label_count_app (c : string) (a b : list FrameRecord) :
  label_count c (a ++ b) = (label_count c a + label_count c b)%nat.
Proof. induction a as [|r a IH]; simpl; [reflexivity|]. rewrite IH. lia. Qed.

Lemma numbered_snoc (frames : list FrameRecord) (r : FrameRecord) :
  numbered frames -> seq r = length frames -> numbered (frames ++ [r]).
Proof.
  unfold numbered. intros Hn Hr.
  rewrite map_app, length_app, Hn. simpl.
  rewrite Nat.add_1_r, seq_S, Hr. reflexivity.
Qed.

Lemma sent_with_summary_app (a b : list Output) :
  sent_with_summary (a ++ b) = sent_with_summary a ++ sent_with_summary b.
Proof.
  induction a as [|o a IH]; [reflexivity|].
  destruct o; simpl; rewrite IH; reflexivity.
Qed.

Lemma events_app (a b : list Output) : events (a ++ b) = events a ++ events b.
Proof.
  induction a as [|o a IH]; [reflexivity|].
  destruct o; simpl; rewrite IH; reflexivity.
Qed.

Lemma delivered_app (a b : list Output) :
  delivered (a ++ b) = delivered a ++ delivered b.
Proof.
  unfold delivered. rewrite sent_episodes_app, concat_app, map_app.
  reflexivity.
Qed.

(** All that one activity frame emits. *)
Lemma segment_activity_outputs (S M : nat) (TE : bool) self loc frame dets k :
  dets <> [] ->
  let frames := active_frames loc ++ [new_record self loc frame dets k] in
  let outs := (segment S M TE self loc frame dets k).2 in
  events outs = [(frame_count self, frame_boxes dets)] /\
  sent_with_summary outs =
    (if (M <=? length frames)%nat
     then [(frames, count_classes (detections_summary loc) dets)] else []).
Proof.
  intros Hd. unfold segment.
  destruct dets as [|d ds]; [congruence|]. cbn [length Nat.ltb Nat.leb].
  destruct (_send_telegram_alert _ _ _ _ _) as [self1 alert_io].
  fold (new_record self loc frame (d :: ds) k). cbv zeta.
  destruct (M <=? _)%nat.
  - destruct (_send_episode _ _ _ _). split; reflexivity.
  - split; reflexivity.
Qed.

(** One segmenter step keeps the buffer and the sent episodes well formed
    and loses no activity frame. *)
Lemma segment_episodes_inv (S M : nat) (TE : bool) self loc frame dets k outs :
  episodes_inv M loc outs ->
  episodes_inv M (segment S M TE self loc frame dets k).1.2
    (outs ++ (segment S M TE self loc frame dets k).2).
Proof.
  intros [Hb Hn Hs Hsent Hc Hcons]. destruct dets as [|d ds].
  - rewrite segment_silence.
    destruct (_ && _) eqn:E; simpl.
    + apply andb_true_iff in E. destruct E as [_ Hne].
      split; simpl.
      * lia.
      * reflexivity.
      * intros c. reflexivity.
      * rewrite sent_with_summary_app. apply Forall_app. split; [exact Hsent|].
        simpl. constructor; [|constructor].
        split; [simpl; intros H; rewrite H in Hne; discriminate|].
        split; [simpl; lia|]. split; assumption.
      * rewrite sent_episodes_app, length_app, Hc. reflexivity.
      * rewrite delivered_app, events_app. simpl.
        unfold delivered at 2. simpl. rewrite !app_nil_r. exact Hcons.
    + rewrite app_nil_r. split; assumption.
  - pose proof (segment_activity_session S M TE self loc frame (d :: ds) k)
      as Hloc.
    pose proof (segment_activity_sent S M TE self loc frame (d :: ds) k)
      as Hse.
    pose proof (segment_activity_outputs S M TE self loc frame (d :: ds) k)
      as Hout.
    cbv zeta in Hloc, Hse, Hout.
    rewrite Hloc by discriminate. clear Hloc.
    specialize (Hse ltac:(discriminate)).
    destruct (Hout ltac:(discriminate)) as [Hev Hsw]. clear Hout.
    set (rec := new_record self loc frame (d :: ds) k) in *.
    assert (Hnum : numbered (active_frames loc ++ [rec]))
      by (apply numbered_snoc; [exact Hn|reflexivity]).
    assert (Hsum : summary_counts (active_frames loc ++ [rec])
                     (count_classes (detections_summary loc) (d :: ds))).
    { intros c. rewrite count_classes_lookup, label_count_app, Hs. simpl.
      lia. }
    assert (Hkey : record_key rec = (frame_count self, frame_boxes (d :: ds)))
      by reflexivity.
    destruct (M <=? length (active_frames loc ++ [rec]))%nat eqn:E.
    + apply Nat.leb_le in E. rewrite length_app in E. simpl in E.
      split; simpl.
      * lia.
      * reflexivity.
      * intros c. reflexivity.
      * rewrite sent_with_summary_app, Hsw. apply Forall_app.
        split; [exact Hsent|]. constructor; [|constructor].
        split; [intros H; apply app_eq_nil in H; destruct H; discriminate|].
        split; [simpl; rewrite length_app; simpl; lia|].
        split; assumption.
      * rewrite sent_episodes_app, length_app, Hse, Hc. reflexivity.
      * rewrite delivered_app, events_app, Hev. unfold delivered at 2.
        rewrite Hse. simpl. rewrite !app_nil_r, map_app. simpl.
        rewrite Hkey, app_assoc, Hcons. reflexivity.
    + apply Nat.leb_gt in E.
      split; simpl.
      * exact E.
      * exact Hnum.
      * exact Hsum.
      * rewrite sent_with_summary_app, Hsw, app_nil_r. exact Hsent.
      * rewrite sent_episodes_app, Hse, app_nil_r. exact Hc.
      * rewrite delivered_app, events_app, Hev. unfold delivered at 2.
        rewrite Hse. simpl. rewrite app_nil_r, map_app. simpl.
        rewrite Hkey, app_assoc, Hcons. reflexivity.
Qed.

Lemma episodes_inv_initial (M : nat) :
  (0 < M)%nat -> episodes_inv M initial_session [].
Proof.
  intros HM. split; simpl.
  - exact HM.
  - reflexivity.
  - intros c. reflexivity.
  - constructor.
  - reflexivity.
  - reflexivity.
Qed.

Lemma episodes_inv_failures (M n : nat) (loc : Session) (outs : list Output) :
  episodes_inv M loc outs ->
  episodes_inv M (set_consecutive_failures n loc) outs.
Proof. intros [H1 H2 H3 H4 H5 H6]. split; assumption. Qed.

Lemma segment_frames_episodes_inv (S M : nat) (TE : bool) ps :
  forall loc outs,
  episodes_inv M loc outs ->
  episodes_inv M (segment_frames S M TE loc ps).1
    (outs ++ concat (segment_frames S M TE loc ps).2).
Proof.
  induction ps as [|p rest IH]; intros loc outs Hinv; simpl.
  - rewrite app_nil_r. exact Hinv.
  - rewrite app_assoc. apply IH, segment_episodes_inv, Hinv.
Qed.

Lemma stream_loop_episodes_inv (TE : bool) self reads :
  episodes_inv STREAM_MAX_EPISODE_FRAMES
    (run_session (stream_loop TE self initial_session reads))
    (run_outputs (stream_loop TE self initial_session reads)).
Proof.
  destruct (stream_loop_segments TE reads self initial_session)
    as (n & E1 & E2).
  rewrite E1, E2. apply episodes_inv_failures.
  apply (segment_frames_episodes_inv _ _ _ _ initial_session []).
  apply episodes_inv_initial. unfold STREAM_MAX_EPISODE_FRAMES. lia.
Qed.

Lemma polling_loop_episodes_inv (TE : bool) self polls :
  episodes_inv POLL_MAX_EPISODE_FRAMES
    (polling_loop TE self initial_session polls).1.2
    (polling_loop TE self initial_session polls).2.
Proof.
  destruct (polling_loop_segments TE polls self initial_session)
    as (n & E1 & E2).
  rewrite E1, E2. apply episodes_inv_failures.
  apply (segment_frames_episodes_inv _ _ _ _ initial_session []).
  apply episodes_inv_initial. unfold POLL_MAX_EPISODE_FRAMES. lia.
Qed.

(** The flush at the end of a session, output by output. *)
Lemma send_pending_outputs (self : Detector) (loc : Session) (tr : Transport) :
  let r := send_pending self loc tr in
  active_frames r.1 = active_frames loc /\
  detections_summary r.1 = detections_summary loc /\
  episode_count r.1
    = (episode_count loc + if nonempty (active_frames loc) then 1 else 0)%nat /\
  sent_with_summary r.2
    = (if nonempty (active_frames loc)
       then [(active_frames loc, detections_summary loc)] else []) /\
  events r.2 = [].
Proof.
  unfold send_pending. destruct (nonempty (active_frames loc)).
  - destruct (_send_episode _ _ _ _). simpl. repeat split.
  - simpl. rewrite Nat.add_0_r. repeat split.
Qed.

Lemma sent_episodes_of_summary (outs : list Output) :
  sent_episodes outs = map fst (sent_with_summary outs).
Proof.
  induction outs as [|o outs IH]; [reflexivity|].
  destruct o; simpl; rewrite ?IH; reflexivity.
Qed.

(** A flush keeps everything but the conservation of frames, which it keeps
    when nothing was flushed before it in the same termination. *)
Lemma send_pending_episodes (M : nat) self loc tr outs :
  (length (active_frames loc) < M)%nat ->
  numbered (active_frames loc) ->
  summary_counts (active_frames loc) (detections_summary loc) ->
  Forall (episode_ok M) (sent_with_summary outs) ->
  Forall (episode_ok M)
    (sent_with_summary (outs ++ (send_pending self loc tr).2)).
Proof.
  intros Hb Hn Hs Hsent.
  destruct (send_pending_outputs self loc tr) as (_ & _ & _ & E & _).
  rewrite sent_with_summary_app, E. apply Forall_app. split; [exact Hsent|].
  destruct (active_frames loc) as [|r rest] eqn:Ef; simpl; [constructor|].
  constructor; [|constructor].
  split; [discriminate|]. split; [simpl in *; lia|]. split; assumption.
Qed.

(** X2: every episode a live or a polling session hands to
    [_send_episode] (when the silence threshold is met, when the cap is
    reached, or when the session ends) is non-empty, holds at most
    [MAX_EPISODE_FRAMES] records (300 live, 120 polling), numbers its
    records 0, 1, 2, ... in ['seq'], and carries a summary that counts, class
    by class, exactly the boxes of its frames. *)
Theorem sessions_send_well_formed_episodes (TE : bool) (self : Detector)
    (reads : list Read) (polls : list Poll) (pending final : Transport) :
  Forall (episode_ok STREAM_MAX_EPISODE_FRAMES)
    (sent_with_summary
       (run_outputs (_process_stream TE self reads pending final))) /\
  Forall (episode_ok POLL_MAX_EPISODE_FRAMES)
    (sent_with_summary
       (run_outputs (_http_polling_session TE self polls final))).
Proof.
  split.
  - pose proof (stream_loop_episodes_inv TE self reads) as [Hb Hn Hs Hsent _ _].
    unfold _process_stream.
    destruct (stream_loop TE self initial_session reads)
      as [[[self1 loc1] outs] raised].
    unfold run_session, run_outputs in *. cbn [fst snd] in *.
    assert (Hflush : forall tr loc2 o2,
              send_pending self1 loc1 tr = (loc2, o2) ->
              Forall (episode_ok STREAM_MAX_EPISODE_FRAMES)
                (sent_with_summary
                   (outs ++ o2 ++ (send_pending self1 loc2 final).2))).
    { intros tr loc2 o2 E.
      pose proof (send_pending_outputs self1 loc1 tr) as (A1 & A2 & _).
      pose proof (send_pending_episodes _ self1 loc1 tr outs Hb Hn Hs Hsent)
        as H1.
      rewrite E in A1, A2, H1. cbn [fst snd] in A1, A2, H1.
      rewrite app_assoc. apply send_pending_episodes;
        rewrite ?A1, ?A2; assumption. }
    destruct raised.
    + pose proof (send_pending_episodes _ self1 loc1 final outs Hb Hn Hs Hsent)
        as H1.
      destruct (send_pending self1 loc1 final) as [loc3 outs3]. exact H1.
    + destruct (max_failures <=? consecutive_failures loc1)%nat.
      * destruct (send_pending self1 loc1 pending) as [loc2 outs2] eqn:E.
        specialize (Hflush pending loc2 outs2 E).
        destruct (send_pending self1 loc2 final) as [loc3 outs3]. exact Hflush.
      * pose proof (send_pending_episodes _ self1 loc1 final outs Hb Hn Hs
                      Hsent) as H1.
        destruct (send_pending self1 loc1 final) as [loc3 outs3]. exact H1.
  - pose proof (polling_loop_episodes_inv TE self polls) as [Hb Hn Hs Hsent _ _].
    unfold _http_polling_session.
    destruct (polling_loop TE self initial_session polls)
      as [[self1 loc1] outs].
    cbn [fst snd] in *.
    pose proof (send_pending_episodes _ self1 loc1 final outs Hb Hn Hs Hsent)
      as H1.
    destruct (send_pending self1 loc1 final) as [loc2 outs2]. exact H1.
Qed.

(** The events of a run of the segmenter are those of its activity frames. *)
Lemma events_segment_frames (S M : nat) (TE : bool) ps :
  forall loc,
  events (concat (segment_frames S M TE loc ps).2)
  = map event_of (List.filter active ps).
Proof.
  induction ps as [|p rest IH]; intros loc; [reflexivity|].
  cbn [segment_frames snd concat List.filter]. rewrite events_app, IH.
  assert (Ha : active p = nonempty (p_detections p)) by reflexivity.
  rewrite Ha. destruct (p_detections p) as [|d ds] eqn:Ed.
  - rewrite segment_silence. destruct (_ && _); reflexivity.
  - destruct (segment_activity_outputs S M TE (p_self p) loc (p_frame p)
                (d :: ds) (p_tick p)) as [Hev _]; [discriminate|].
    assert (He : event_of p = (frame_count (p_self p), frame_boxes (d :: ds)))
      by (unfold event_of; rewrite Ed; reflexivity).
    rewrite Hev. cbn [nonempty map]. rewrite He. reflexivity.
Qed.

(** X3: a polling session delivers every activity frame exactly once: the
    frames of the episodes it sends, taken in order of delivery, are the
    frames of its per-frame events, with the same frame numbers and the same
    boxes, and these are the frames it processed with at least one
    detection. *)
Theorem polling_session_delivers_each_frame_once (TE : bool)
    (self : Detector) (polls : list Poll) (final : Transport) :
  let outs := run_outputs (_http_polling_session TE self polls final) in
  delivered outs = events outs /\
  events outs
  = map event_of
      (List.filter active (polling_processed TE self initial_session polls)).
Proof.
  cbv zeta.
  pose proof (polling_loop_episodes_inv TE self polls) as [_ _ _ _ _ Hcons].
  destruct (polling_loop_segments TE polls self initial_session)
    as (n & _ & E2).
  pose proof (events_segment_frames POLL_SILENCE_THRESHOLD
                POLL_MAX_EPISODE_FRAMES TE
                (polling_processed TE self initial_session polls)
                initial_session) as Hev.
  rewrite <- E2 in Hev.
  unfold _http_polling_session.
  destruct (polling_loop TE self initial_session polls)
    as [[self1 loc1] outs].
  cbn [fst snd] in *.
  pose proof (send_pending_outputs self1 loc1 final) as (_ & _ & _ & Hs & He).
  destruct (send_pending self1 loc1 final) as [loc2 outs2].
  unfold run_outputs. cbn [fst snd] in *.
  rewrite delivered_app, events_app, He, app_nil_r, <- Hev.
  split; [|reflexivity].
  rewrite <- Hcons. f_equal.
  unfold delivered. rewrite sent_episodes_of_summary, Hs.
  destruct (active_frames loc1); simpl; rewrite ?app_nil_r; reflexivity.
Qed.

(** X4: a live session that ends without giving up on the camera (it is
    stopped, or the detection call raises) delivers every activity frame
    exactly once, as the polling session does; one that gives up delivers
    the frames of the open episode a second time. *)
Theorem live_session_delivers_each_frame_once (TE : bool)
    (self : Detector) (reads : list Read) (pending final : Transport) :
  let r := _process_stream TE self reads pending final in
  let l := stream_loop TE self initial_session reads in
  events (run_outputs r)
  = map event_of
      (List.filter active (stream_processed TE self initial_session reads)) /\
  delivered (run_outputs r)
  = events (run_outputs r)
    ++ match run_exit r with
       | Some RuntimeError_too_many_failures =>
           map record_key (active_frames (run_session l))
       | _ => []
       end.
Proof.
  cbv zeta.
  pose proof (stream_loop_episodes_inv TE self reads) as [_ _ _ _ _ Hcons].
  destruct (stream_loop_segments TE reads self initial_session)
    as (n & _ & E2).
  pose proof (events_segment_frames STREAM_SILENCE_THRESHOLD
                STREAM_MAX_EPISODE_FRAMES TE
                (stream_processed TE self initial_session reads)
                initial_session) as Hev.
  rewrite <- E2 in Hev.
  unfold _process_stream.
  destruct (stream_loop TE self initial_session reads)
    as [[[self1 loc1] outs] raised].
  unfold run_session, run_outputs, run_exit in *. cbn [fst snd] in *.
  assert (Hone : forall tr,
            delivered (send_pending self1 loc1 tr).2
            = map record_key (active_frames loc1)).
  { intros tr.
    pose proof (send_pending_outputs self1 loc1 tr) as (_ & _ & _ & Hs & _).
    unfold delivered. rewrite sent_episodes_of_summary, Hs.
    destruct (active_frames loc1); simpl; rewrite ?app_nil_r; reflexivity. }
  destruct raised.
  - cbv beta iota zeta.
    pose proof (send_pending_outputs self1 loc1 final) as (_ & _ & _ & _ & He).
    specialize (Hone final).
    destruct (send_pending self1 loc1 final) as [loc3 outs3].
    cbn [fst snd app] in *.
    rewrite delivered_app, events_app, He, Hone, !app_nil_r, <- Hev.
    split; [reflexivity|exact Hcons].
  - destruct (max_failures <=? consecutive_failures loc1)%nat.
    + cbv beta iota zeta.
      pose proof (send_pending_outputs self1 loc1 pending)
        as (A1 & A2 & _ & _ & He2).
      pose proof (Hone pending) as H2.
      destruct (send_pending self1 loc1 pending) as [loc2 outs2].
      cbv beta iota zeta. cbn [fst snd] in *.
      pose proof (send_pending_outputs self1 loc2 final)
        as (_ & _ & _ & Hs3 & He3).
      destruct (send_pending self1 loc2 final) as [loc3 outs3].
      cbn [fst snd] in *.
      rewrite !delivered_app, !events_app, He2, He3, H2, !app_nil_r, <- Hev.
      split; [reflexivity|].
      rewrite app_assoc, Hcons. f_equal.
      unfold delivered. rewrite sent_episodes_of_summary, Hs3, A1.
      destruct (active_frames loc1); simpl; rewrite ?app_nil_r; reflexivity.
    + cbv beta iota zeta.
      pose proof (send_pending_outputs self1 loc1 final)
        as (_ & _ & _ & _ & He).
      specialize (Hone final).
      destruct (send_pending self1 loc1 final) as [loc3 outs3].
      cbn [fst snd app] in *.
      rewrite delivered_app, events_app, He, Hone, !app_nil_r, <- Hev.
      split; [reflexivity|exact Hcons].
Qed.

(** X5: the episode counter a session reports when it ends ("Total
    episodes") is the number of episodes it handed to [_send_episode], in
    live and in polling mode, the flushes at the end included. *)
Theorem session_episode_count (TE : bool) (self : Detector)
    (reads : list Read) (polls : list Poll) (pending final : Transport) :
  episode_count (run_session (_process_stream TE self reads pending final))
  = length (sent_episodes
              (run_outputs (_process_stream TE self reads pending final))) /\
  episode_count
    (run_session (_http_polling_session TE self polls final))
  = length (sent_episodes
              (run_outputs (_http_polling_session TE self polls final))).
Proof.
  assert (Hflush : forall self1 loc tr outs,
            episode_count loc = length (sent_episodes outs) ->
            episode_count (send_pending self1 loc tr).1
            = length (sent_episodes (outs ++ (send_pending self1 loc tr).2))).
  { intros self1 loc tr outs Hc.
    destruct (send_pending_outputs self1 loc tr) as (_ & _ & E & Hs & _).
    rewrite E, sent_episodes_app, length_app, Hc,
      (sent_episodes_of_summary (send_pending self1 loc tr).2), Hs.
    destruct (nonempty (active_frames loc)); reflexivity. }
  split.
  - pose proof (stream_loop_episodes_inv TE self reads) as [_ _ _ _ Hc _].
    unfold _process_stream.
    destruct (stream_loop TE self initial_session reads)
      as [[[self1 loc1] outs] raised].
    unfold run_session, run_outputs in *. cbn [fst snd] in *.
    destruct raised.
    + cbv beta iota zeta. specialize (Hflush self1 loc1 final outs Hc).
      destruct (send_pending self1 loc1 final) as [loc3 outs3].
      exact Hflush.
    + destruct (max_failures <=? consecutive_failures loc1)%nat.
      * cbv beta iota zeta.
        pose proof (Hflush self1 loc1 pending outs Hc) as H1.
        destruct (send_pending self1 loc1 pending) as [loc2 outs2].
        cbv beta iota zeta. cbn [fst snd] in H1.
        specialize (Hflush self1 loc2 final (outs ++ outs2) H1).
        destruct (send_pending self1 loc2 final) as [loc3 outs3].
        cbn [fst snd] in *. rewrite app_assoc. exact Hflush.
      * cbv beta iota zeta. specialize (Hflush self1 loc1 final outs Hc).
        destruct (send_pending self1 loc1 final) as [loc3 outs3].
        exact Hflush.
  - pose proof (polling_loop_episodes_inv TE self polls) as [_ _ _ _ Hc _].
    unfold _http_polling_session.
    destruct (polling_loop TE self initial_session polls)
      as [[self1 loc1] outs].
    cbn [fst snd] in *. specialize (Hflush self1 loc1 final outs Hc).
    destruct (send_pending self1 loc1 final) as [loc2 outs2].
    exact Hflush.
Qed.

(** ** Frame numbers *)

Lemma send_telegram_alert_frame_count (TE : bool) self dets now send :
  frame_count (_send_telegram_alert TE self dets now send).1
  = frame_count self.
Proof.
  rewrite send_telegram_alert_cases.
  destruct (TE && _); [|reflexivity].
  destruct (List.find qualifies dets); [|reflexivity].
  destruct send; reflexivity.
Qed.

Lemma segment_frame_count (S M : nat) (TE : bool) self loc frame dets k :
  frame_count (segment S M TE self loc frame dets k).1.1 = frame_count self.
Proof.
  unfold segment. destruct (0 <? length dets)%nat.
  - pose proof (send_telegram_alert_frame_count TE self dets
                  (tick_alert_time k) (tick_alert k)) as H.
    destruct (_send_telegram_alert _ _ _ _ _) as [self1 alert_io].
    simpl in H. destruct (M <=? _)%nat; [|exact H].
    destruct (_send_episode _ _ _ _). exact H.
  - destruct (_ && _); [|reflexivity].
    destruct (_send_episode _ _ _ _). reflexivity.
Qed.

Lemma detect_frame_frame_count self results :
  frame_count (_detect_frame self results).1 = frame_count self.
Proof.
  unfold _detect_frame.
  destruct (detect_results_spec results self []) as (new & _ & E & _).
  cbv zeta in E. rewrite E. reflexivity.
Qed.

(** What one read does to the frame counter, and the frame number under
    which its frame, if processed, reaches the segmenter. *)
Lemma stream_body_frame_count (TE : bool) self loc r :
  (frame_count self <= frame_count (stream_body TE self loc r).1.1.1)%nat /\
  (forall p, stream_processes self r = Some p ->
     frame_count (p_self p) = frame_count (stream_body TE self loc r).1.1.1
     /\ (frame_count self < frame_count (p_self p))%nat
     /\ (frame_count (p_self p) mod LIVE_FRAME_SKIP = 0)%nat).
Proof.
  unfold stream_body, stream_processes.
  destruct r as [|frame k]; cbn [fst snd].
  - split; [lia|discriminate].
  - cbn [frame_count set_frame_count].
    destruct (negb _) eqn:Eskip; cbn [fst snd].
    + split; [simpl; lia|discriminate].
    + apply negb_false_iff, Nat.eqb_eq in Eskip.
      destruct (tick_results k) as [results|]; cbn [fst snd].
      2:{ split; [simpl; lia|discriminate]. }
      pose proof (detect_frame_frame_count
                    (set_frame_count (frame_count self + 1) self) results)
        as Hd.
      destruct (_detect_frame _ results) as [self1 dets].
      cbn [fst snd] in *. rewrite segment_frame_count, Hd. simpl.
      split; [lia|]. intros p Hp. injection Hp as <-. simpl.
      rewrite Hd. simpl. repeat split; [lia|exact Eskip].
Qed.

Lemma stream_processed_frame_numbers (TE : bool) reads :
  forall self loc,
  Forall (fun p => (frame_count self < frame_count (p_self p))%nat /\
                   (frame_count (p_self p) mod LIVE_FRAME_SKIP = 0)%nat)
         (stream_processed TE self loc reads) /\
  StronglySorted (fun p q => (frame_count (p_self p)
                              < frame_count (p_self q))%nat)
                 (stream_processed TE self loc reads).
Proof.
  induction reads as [|r rest IH]; intros self loc; simpl.
  - split; constructor.
  - destruct (consecutive_failures loc <? max_failures)%nat;
      [|split; constructor].
    destruct (stream_body_frame_count TE self loc r) as [Hle Hp].
    destruct (stream_body TE self loc r) as [[[self1 loc1] o1] raised].
    cbn [fst snd] in *.
    assert (Hrest :
      Forall (fun p => (frame_count self1 < frame_count (p_self p))%nat /\
                       (frame_count (p_self p) mod LIVE_FRAME_SKIP = 0)%nat)
             (if raised then [] else stream_processed TE self1 loc1 rest) /\
      StronglySorted (fun p q => (frame_count (p_self p)
                                  < frame_count (p_self q))%nat)
                     (if raised then []
                      else stream_processed TE self1 loc1 rest)).
    { destruct raised; [split; constructor|apply IH]. }
    destruct Hrest as [HF HS].
    destruct (stream_processes self r) as [p|]; simpl.
    + destruct (Hp p eq_refl) as (E1 & E2 & E3).
      split.
      * constructor; [split; assumption|].
        eapply Forall_impl; [exact HF|]. intros q [Hq1 Hq2]. split; [lia|exact Hq2].
      * constructor; [exact HS|].
        eapply Forall_impl; [exact HF|]. intros q [Hq1 _]. lia.
    + split; [|exact HS].
      eapply Forall_impl; [exact HF|]. intros q [Hq1 Hq2]. split; [lia|exact Hq2].
Qed.

Lemma polling_body_frame_count (TE : bool) self loc p :
  (frame_count self <= frame_count (polling_body TE self loc p).1.1)%nat /\
  (forall q, polling_processes self p = Some q ->
     frame_count (p_self q) = frame_count (polling_body TE self loc p).1.1
     /\ (frame_count self < frame_count (p_self q))%nat).
Proof.
  unfold polling_body, polling_processes.
  destruct p as [|frame k]; cbn [fst snd].
  - split; [lia|discriminate].
  - destruct (tick_results k) as [results|]; cbn [fst snd].
    2:{ split; [simpl; lia|discriminate]. }
    pose proof (detect_frame_frame_count
                  (set_frame_count (frame_count self + 1) self) results)
      as Hd.
    destruct (_detect_frame _ results) as [self1 dets].
    cbn [fst snd] in *. rewrite segment_frame_count, Hd. simpl.
    split; [lia|]. intros q Hq. injection Hq as <-. simpl.
    rewrite Hd. simpl. split; lia.
Qed.

Lemma polling_processed_frame_numbers (TE : bool) polls :
  forall self loc,
  Forall (fun p => (frame_count self < frame_count (p_self p))%nat)
         (polling_processed TE self loc polls) /\
  StronglySorted (fun p q => (frame_count (p_self p)
                              < frame_count (p_self q))%nat)
                 (polling_processed TE self loc polls).
Proof.
  induction polls as [|r rest IH]; intros self loc; simpl.
  - split; constructor.
  - destruct (consecutive_failures loc <? MAX_FAILURES)%nat;
      [|split; constructor].
    destruct (polling_body_frame_count TE self loc r) as [Hle Hp].
    destruct (polling_body TE self loc r) as [[self1 loc1] o1].
    cbn [fst snd] in *.
    destruct (IH self1 loc1) as [HF HS].
    destruct (polling_processes self r) as [p|]; simpl.
    + destruct (Hp p eq_refl) as (E1 & E2).
      split.
      * constructor; [assumption|].
        eapply Forall_impl; [exact HF|]. intros q Hq. cbv beta in Hq. lia.
      * constructor; [exact HS|].
        eapply Forall_impl; [exact HF|]. intros q Hq. cbv beta in Hq. lia.
    + split; [|exact HS].
      eapply Forall_impl; [exact HF|]. intros q Hq. cbv beta in Hq. lia.
Qed.

Lemma events_of_processed_sorted (ps : list Processed) :
  StronglySorted (fun p q => (frame_count (p_self p)
                              < frame_count (p_self q))%nat) ps ->
  StronglySorted lt (map fst (map event_of (List.filter active ps))).
Proof.
  induction 1 as [|p ps Hs IH Hall]; simpl; [constructor|].
  destruct (active p); simpl; [|exact IH].
  constructor; [exact IH|].
  rewrite Forall_forall in Hall. apply Forall_forall. intros n Hn.
  apply list_elem_of_In, in_map_iff in Hn. destruct Hn as (e & <- & He).
  apply in_map_iff in He. destruct He as (q & <- & Hq).
  apply filter_In in Hq. destruct Hq as [Hq _].
  apply Hall, list_elem_of_In, Hq.
Qed.

Lemma events_of_processed_Forall (P : nat -> Prop) (ps : list Processed) :
  Forall (fun p => P (frame_count (p_self p))) ps ->
  Forall (fun e => P e.1) (map event_of (List.filter active ps)).
Proof.
  induction 1 as [|p ps Hp Hall IH]; simpl; [constructor|].
  destruct (active p); simpl; [|exact IH]. constructor; assumption.
Qed.

Lemma process_stream_events (TE : bool) self reads pending final :
  events (run_outputs (_process_stream TE self reads pending final))
  = map event_of
      (List.filter active (stream_processed TE self initial_session reads)).
Proof.
  destruct (stream_loop_segments TE reads self initial_session)
    as (n & _ & E2).
  rewrite <- (events_segment_frames STREAM_SILENCE_THRESHOLD
                STREAM_MAX_EPISODE_FRAMES TE _ initial_session), <- E2.
  unfold _process_stream.
  destruct (stream_loop TE self initial_session reads)
    as [[[self1 loc1] outs] raised].
  unfold run_outputs. cbn [fst snd].
  assert (Hnone : forall loc tr, events (send_pending self1 loc tr).2 = [])
    by (intros loc tr; apply send_pending_outputs).
  destruct raised.
  - cbv beta iota zeta. pose proof (Hnone loc1 final) as H.
    destruct (send_pending self1 loc1 final) as [loc3 outs3].
    cbn [fst snd app] in *. rewrite events_app, H, app_nil_r. reflexivity.
  - destruct (max_failures <=? consecutive_failures loc1)%nat.
    + cbv beta iota zeta. pose proof (Hnone loc1 pending) as H1.
      destruct (send_pending self1 loc1 pending) as [loc2 outs2].
      cbv beta iota zeta. pose proof (Hnone loc2 final) as H2.
      destruct (send_pending self1 loc2 final) as [loc3 outs3].
      cbn [fst snd] in *. rewrite !events_app, H1, H2, !app_nil_r.
      reflexivity.
    + cbv beta iota zeta. pose proof (Hnone loc1 final) as H.
      destruct (send_pending self1 loc1 final) as [loc3 outs3].
      cbn [fst snd app] in *. rewrite events_app, H, app_nil_r. reflexivity.
Qed.

Lemma http_polling_session_events (TE : bool) self polls final :
  events (run_outputs (_http_polling_session TE self polls final))
  = map event_of
      (List.filter active (polling_processed TE self initial_session polls)).
Proof.
  destruct (polling_loop_segments TE polls self initial_session)
    as (n & _ & E2).
  rewrite <- (events_segment_frames POLL_SILENCE_THRESHOLD
                POLL_MAX_EPISODE_FRAMES TE _ initial_session), <- E2.
  unfold _http_polling_session.
  destruct (polling_loop TE self initial_session polls)
    as [[self1 loc1] outs].
  pose proof (send_pending_outputs self1 loc1 final) as (_ & _ & _ & _ & H).
  destruct (send_pending self1 loc1 final) as [loc2 outs2].
  unfold run_outputs. cbn [fst snd] in *.
  rewrite events_app, H, app_nil_r. reflexivity.
Qed.

(** X6: the per-frame events of a session carry strictly increasing frame
    numbers, all above the detector's frame counter at the start of the
    session; in live mode every one of them is a multiple of
    [LIVE_FRAME_SKIP] = 3 (only every third frame read is evaluated), while
    a polling session evaluates every snapshot it fetches. *)
Theorem session_frame_numbers (TE : bool) (self : Detector)
    (reads : list Read) (polls : list Poll) (pending final : Transport) :
  let live := events (run_outputs (_process_stream TE self reads pending final)) in
  let poll := events (run_outputs (_http_polling_session TE self polls final)) in
  LIVE_FRAME_SKIP = 3%nat /\
  StronglySorted lt (map fst live) /\
  Forall (fun e => (frame_count self < e.1)%nat /\
                   (e.1 mod LIVE_FRAME_SKIP = 0)%nat) live /\
  StronglySorted lt (map fst poll) /\
  Forall (fun e => (frame_count self < e.1)%nat) poll.
Proof.
  cbv zeta. rewrite process_stream_events, http_polling_session_events.
  destruct (stream_processed_frame_numbers TE reads self initial_session)
    as [LF LS].
  destruct (polling_processed_frame_numbers TE polls self initial_session)
    as [PF PS].
  split; [reflexivity|].
  split; [apply events_of_processed_sorted, LS|].
  split.
  { apply (events_of_processed_Forall
             (fun n => (frame_count self < n)%nat /\
                       (n mod LIVE_FRAME_SKIP = 0)%nat)), LF. }
  split; [apply events_of_processed_sorted, PS|].
  apply (events_of_processed_Forall (fun n => (frame_count self < n)%nat)), PF.
Qed.

(** ** Giving up on the source *)

Lemma stream_body_resets_failures (TE : bool) self loc frame k :
  consecutive_failures (stream_body TE self loc (ReadFrame frame k)).1.1.2
  = 0%nat.
Proof.
  unfold stream_body. destruct (negb _); [reflexivity|].
  destruct (tick_results k) as [results|]; [|reflexivity].
  destruct (_detect_frame _ results) as [self1 dets]. cbn [fst snd].
  rewrite segment_failures. reflexivity.
Qed.

Lemma stream_loop_failure_run (TE : bool) reads :
  forall self loc,
  (consecutive_failures loc <= max_failures)%nat ->
  (max_failures
   <= consecutive_failures (run_session (stream_loop TE self loc reads)))%nat ->
  (exists post,
     reads = repeat ReadFailed (max_failures - consecutive_failures loc)
             ++ post) \/
  (exists pre post, reads = pre ++ repeat ReadFailed max_failures ++ post).
Proof.
  induction reads as [|r rest IH]; intros self loc Hle Hmax.
  - left. exists []. unfold run_session in Hmax. simpl in Hmax.
    replace (max_failures - consecutive_failures loc)%nat with 0%nat by lia.
    reflexivity.
  - cbn [stream_loop] in Hmax.
    destruct (consecutive_failures loc <? max_failures)%nat eqn:E.
    2:{ apply Nat.ltb_ge in E. left. exists (r :: rest).
        replace (max_failures - consecutive_failures loc)%nat with 0%nat
          by lia.
        reflexivity. }
    apply Nat.ltb_lt in E.
    destruct r as [|frame k].
    + cbn [stream_body] in Hmax.
      specialize (IH self (set_consecutive_failures
                             (consecutive_failures loc + 1) loc)).
      destruct (stream_loop TE self _ rest) as [[[s2 l2] o2] b2].
      unfold run_session in *. cbn [fst snd] in *.
      destruct IH as [(post & ->)|(pre & post & ->)];
        [simpl; lia|exact Hmax| |].
      * left. exists post. cbn [consecutive_failures set_consecutive_failures].
        replace (max_failures - consecutive_failures loc)%nat
          with (Datatypes.S (max_failures - (consecutive_failures loc + 1)))
          by lia.
        reflexivity.
      * right. exists (ReadFailed :: pre), post. reflexivity.
    + pose proof (stream_body_resets_failures TE self loc frame k) as H0.
      destruct (stream_body TE self loc (ReadFrame frame k))
        as [[[self1 loc1] o1] raised].
      cbn [fst snd] in H0.
      destruct raised.
      { unfold run_session in Hmax. cbn [fst snd] in Hmax.
        unfold max_failures in Hmax. lia. }
      specialize (IH self1 loc1).
      destruct (stream_loop TE self1 loc1 rest) as [[[s2 l2] o2] b2].
      unfold run_session in *. cbn [fst snd] in *.
      destruct IH as [(post & ->)|(pre & post & ->)]; [lia|exact Hmax| |].
      * right. exists [ReadFrame frame k], post. rewrite H0, Nat.sub_0_r.
        reflexivity.
      * right. exists (ReadFrame frame k :: pre), post. reflexivity.
Qed.

Lemma stream_loop_all_reads_fail (TE : bool) (n : nat) :
  forall self loc,
  (consecutive_failures loc + n >= max_failures)%nat ->
  (consecutive_failures loc <= max_failures)%nat ->
  stream_loop TE self loc (repeat ReadFailed n)
  = (self, set_consecutive_failures max_failures loc, [], false).
Proof.
  induction n as [|n IH]; intros self loc Hn Hle; simpl.
  - replace max_failures with (consecutive_failures loc) by lia.
    rewrite set_consecutive_failures_same. reflexivity.
  - destruct (consecutive_failures loc <? max_failures)%nat eqn:E.
    + apply Nat.ltb_lt in E. rewrite IH; simpl; [reflexivity|lia|lia].
    + apply Nat.ltb_ge in E.
      replace max_failures with (consecutive_failures loc) by lia.
      rewrite set_consecutive_failures_same. reflexivity.
Qed.

(** X7: a live session gives up on the camera (raises the too-many-failures
    error) only if the camera failed [max_failures] = 30 reads in a row,
    since every successful read resets the counter; and a camera that fails
    every read, thirty times or more, makes the session give up without
    having emitted anything. *)
Theorem live_session_gives_up_after_30_failures (TE : bool)
    (self : Detector) (pending final : Transport) :
  max_failures = 30%nat /\
  (forall reads,
     run_exit (_process_stream TE self reads pending final)
       = Some RuntimeError_too_many_failures ->
     exists pre post, reads = pre ++ repeat ReadFailed max_failures ++ post) /\
  (forall n, (max_failures <= n)%nat ->
     run_exit (_process_stream TE self (repeat ReadFailed n) pending final)
       = Some RuntimeError_too_many_failures /\
     run_outputs (_process_stream TE self (repeat ReadFailed n) pending final)
       = []).
Proof.
  split; [reflexivity|]. split.
  - intros reads Hexit.
    pose proof (stream_loop_failure_run TE reads self initial_session) as H.
    unfold _process_stream in Hexit.
    destruct (stream_loop TE self initial_session reads)
      as [[[self1 loc1] outs] raised].
    unfold run_session, run_exit in *. cbn [fst snd] in *.
    destruct raised.
    { cbv beta iota zeta in Hexit.
      destruct (send_pending self1 loc1 final). discriminate Hexit. }
    destruct (max_failures <=? consecutive_failures loc1)%nat eqn:E.
    + apply Nat.leb_le in E.
      destruct H as [(post & ->)|H]; [simpl; unfold max_failures; lia|exact E| |].
      * exists [], post. reflexivity.
      * exact H.
    + cbv beta iota zeta in Hexit.
      destruct (send_pending self1 loc1 final). discriminate Hexit.
  - intros n Hn. unfold _process_stream.
    rewrite stream_loop_all_reads_fail by (simpl; lia).
    cbn [consecutive_failures set_consecutive_failures].
    rewrite Nat.leb_refl. cbv beta iota zeta.
    unfold send_pending. simpl. split; reflexivity.
Qed.

(** ** File mode *)

(** Frame 10 of a 30 fps video, and frame 7 at the NTSC rate: the
    timestamps are the doubles Python prints as 0.3333333333333333 and
    0.2335669002335669. *)
Example truediv_examples :
  truediv 10 (PyInt 30) = (6004799503160661 # 18014398509481984)%Q /\
  truediv 7 (PyFloat (round_double (2997 # 100)))
  = (4207567219431895 # 18014398509481984)%Q.
Proof. split; vm_compute; reflexivity. Qed.

Lemma detect_boxes_names (boxes : list RawBox) :
  forall s1 s2 acc,
  class_names s1 = class_names s2 ->
  (detect_boxes s1 boxes acc).2 = (detect_boxes s2 boxes acc).2.
Proof.
  induction boxes as [|box rest IH]; intros s1 s2 acc H; simpl.
  - reflexivity.
  - rewrite H. destruct (negb _).
    + apply IH. exact H.
    + apply IH. simpl. exact H.
Qed.

Lemma detect_results_names (results : list (option (list RawBox))) :
  forall s1 s2 acc,
  class_names s1 = class_names s2 ->
  (detect_results s1 results acc).2 = (detect_results s2 results acc).2.
Proof.
  induction results as [|res rest IH]; intros s1 s2 acc H; simpl.
  - reflexivity.
  - destruct res as [boxes|]; [|apply IH; exact H].
    pose proof (detect_boxes_names boxes s1 s2 acc H) as Hb.
    destruct (detect_boxes_spec boxes s1 acc) as (n1 & _ & E1 & _).
    destruct (detect_boxes_spec boxes s2 acc) as (n2 & _ & E2 & _).
    destruct (detect_boxes s1 boxes acc) as [s1' a1].
    destruct (detect_boxes s2 boxes acc) as [s2' a2].
    cbn [fst snd] in *. subst a2 s1' s2'. apply IH. simpl. exact H.
Qed.

Lemma detect_frame_names self results :
  class_names (_detect_frame self results).1 = class_names self.
Proof.
  unfold _detect_frame.
  destruct (detect_results_spec results self []) as (new & _ & E & _).
  cbv zeta in E. rewrite E. reflexivity.
Qed.

Lemma send_telegram_alert_names (TE : bool) self dets now send :
  class_names (_send_telegram_alert TE self dets now send).1
  = class_names self.
Proof.
  rewrite send_telegram_alert_cases.
  destruct (TE && _); [|reflexivity].
  destruct (List.find qualifies dets); [|reflexivity].
  destruct send; reflexivity.
Qed.

Lemma found_names s1 s2 e :
  class_names s1 = class_names s2 -> found s1 e = found s2 e.
Proof.
  intros H. unfold found, _detect_frame.
  destruct (tick_results e.2) as [results|]; [|reflexivity].
  rewrite (detect_results_names results s1 s2 [] H). reflexivity.
Qed.

Lemma file_activity_names s1 s2 ev :
  class_names s1 = class_names s2 ->
  file_activity s1 ev = file_activity s2 ev.
Proof.
  intros H. induction ev as [|e rest IH]; simpl; [reflexivity|].
  rewrite (found_names s1 s2 e H), IH. reflexivity.
Qed.

(** One iteration of the file loop, read off the frame number it gives to
    the frame. *)
Lemma file_body_cases (TE : bool) (fps : Num) self frames summary frame k :
  let n := S (frame_count self) in
  let r := file_body TE fps self frames summary frame k in
  class_names r.1.1.1.1 = class_names self /\
  frame_count r.1.1.1.1 = n /\
  sent_episodes r.1.2 = [] /\
  if (n mod FILE_FRAME_SKIP =? 0)%nat then
    match found self (n, frame, k) with
    | None =>
        r.1.1.1.2 = frames /\ r.1.1.2 = summary /\ r.1.2 = [] /\ r.2 = true
    | Some dets =>
        r.2 = false /\
        if nonempty dets then
          r.1.1.1.2
            = frames ++ [mkFrameRecord (length frames) frame (frame_boxes dets)
                           (truediv n fps) n] /\
          r.1.1.2 = count_classes summary dets /\
          events r.1.2 = [(n, frame_boxes dets)]
        else r.1.1.1.2 = frames /\ r.1.1.2 = summary /\ r.1.2 = []
    end
  else r.1.1.1.2 = frames /\ r.1.1.2 = summary /\ r.1.2 = [] /\ r.2 = false.
Proof.
  cbv zeta. unfold file_body. cbn [frame_count set_frame_count].
  rewrite Nat.add_1_r.
  destruct (_ =? 0)%nat eqn:Eskip; cbn [negb fst snd].
  2:{ repeat split; reflexivity. }
  unfold found. cbn [snd].
  destruct (tick_results k) as [results|]; cbn [fst snd].
  2:{ repeat split; reflexivity. }
  set (self0 := set_frame_count (S (frame_count self)) self).
  pose proof (detect_frame_frame_count self0 results) as Hfc.
  pose proof (detect_frame_names self0 results) as Hn.
  assert (Hd : (_detect_frame self results).2
               = (_detect_frame self0 results).2).
  { unfold _detect_frame. apply detect_results_names. reflexivity. }
  rewrite Hd.
  destruct (_detect_frame self0 results) as [self1 dets].
  cbn [fst snd] in *. cbn [frame_count self0 set_frame_count] in Hfc.
  cbn [class_names self0 set_frame_count] in Hn.
  destruct dets as [|d ds]; cbn [nonempty fst snd].
  { repeat split; first [exact Hn|exact Hfc|reflexivity]. }
  pose proof (send_telegram_alert_frame_count TE self1 (d :: ds)
                (tick_alert_time k) (tick_alert k)) as Hafc.
  pose proof (send_telegram_alert_names TE self1 (d :: ds)
                (tick_alert_time k) (tick_alert k)) as Han.
  destruct (_send_telegram_alert _ _ _ _ _) as [self2 alert_io].
  cbn [fst snd] in *.
  rewrite Han, Hafc, Hfc, Hn.
  repeat split; try reflexivity.
  unfold events, _create_episode_data. cbn [ed_frame_number ed_detections].
  rewrite Hfc. reflexivity.
Qed.

Lemma file_loop_spec (TE : bool) (fps : Num) reads :
  forall self frames summary,
  summary_counts frames summary ->
  let r := file_loop TE fps self frames summary reads in
  let ev := file_evaluated (frame_count self) reads in
  let act := file_activity self ev in
  r.2 = detection_raises ev /\
  r.1.1.1.2 = frames ++ file_records fps (length frames) act /\
  summary_counts r.1.1.1.2 r.1.1.2 /\
  events r.1.2 = map file_event act /\
  sent_episodes r.1.2 = [] /\
  (r.2 = false ->
   frame_count r.1.1.1.1 = (frame_count self + length reads)%nat).
Proof.
  induction reads as [|[frame k] rest IH]; intros self frames summary Hs.
  - simpl. rewrite app_nil_r, Nat.add_0_r. repeat split. exact Hs.
  - cbn [file_loop file_evaluated].
    pose proof (file_body_cases TE fps self frames summary frame k) as B.
    cbv zeta in B.
    destruct (file_body TE fps self frames summary frame k)
      as [[[[self1 frames1] summary1] outs1] raised].
    cbn [fst snd] in B. destruct B as (Bn & Bfc & Bse & B).
    destruct (S (frame_count self) mod FILE_FRAME_SKIP =? 0)%nat.
    + cbn [app file_activity detection_raises existsb fst snd].
      unfold found in *. cbn [snd] in *.
      destruct (tick_results k) as [results|].
      * destruct B as (-> & B).
        destruct (nonempty (_detect_frame self results).2) eqn:Ene.
        -- destruct B as (-> & -> & Bev).
           assert (Hs1 : summary_counts
                     (frames ++ [mkFrameRecord (length frames) frame
                        (frame_boxes (_detect_frame self results).2)
                        (truediv (S (frame_count self)) fps)
                        (S (frame_count self))])
                     (count_classes summary (_detect_frame self results).2)).
           { intros c. rewrite count_classes_lookup, label_count_app, Hs.
             simpl. lia. }
           specialize (IH self1 _ _ Hs1).
           destruct (file_loop TE fps self1 _ _ rest)
             as [[[[self2 frames2] summary2] outs2] raised2].
           cbv zeta in IH. cbn [fst snd] in *.
           destruct IH as (I1 & I2 & I3 & I4 & I5 & I6).
           rewrite Bfc in I1, I2, I4, I6.
           rewrite (file_activity_names self1 self _ Bn) in I2, I4.
           rewrite length_app, Nat.add_1_r, <- app_assoc in I2.
           rewrite events_app, sent_episodes_app, Bev, Bse, I4, I5.
           cbn [map app file_event file_records fst snd length].
           repeat split; try assumption.
           intros H. rewrite I6 by exact H. cbn [length]. lia.
        -- destruct B as (-> & -> & ->).
           specialize (IH self1 frames summary Hs).
           destruct (file_loop TE fps self1 frames summary rest)
             as [[[[self2 frames2] summary2] outs2] raised2].
           cbv zeta in IH. cbn [fst snd app] in *.
           destruct IH as (I1 & I2 & I3 & I4 & I5 & I6).
           rewrite Bfc in I1, I2, I4, I6.
           rewrite (file_activity_names self1 self _ Bn) in I2, I4.
           repeat split; try assumption.
           intros H. rewrite I6 by exact H. cbn [length]. lia.
      * destruct B as (-> & -> & -> & ->). cbn [fst snd file_records map].
        rewrite app_nil_r. repeat split; try assumption. discriminate.
    + destruct B as (-> & -> & -> & ->). cbn [app].
      specialize (IH self1 frames summary Hs).
      destruct (file_loop TE fps self1 frames summary rest)
        as [[[[self2 frames2] summary2] outs2] raised2].
      cbv zeta in IH. cbn [fst snd app] in *.
      destruct IH as (I1 & I2 & I3 & I4 & I5 & I6).
      rewrite Bfc in I1, I2, I4, I6.
           rewrite (file_activity_names self1 self _ Bn) in I2, I4.
      repeat split; try assumption.
      intros H. rewrite I6 by exact H. cbn [length]. lia.
Qed.

Lemma file_evaluated_multiples reads :
  forall n,
  Forall (fun e => (e.1.1 mod FILE_FRAME_SKIP = 0)%nat)
         (file_evaluated n reads).
Proof.
  induction reads as [|[frame k] rest IH]; intros n; simpl.
  - constructor.
  - apply Forall_app. split; [|apply IH].
    destruct (_ =? 0)%nat eqn:E; [|constructor].
    apply Nat.eqb_eq in E. constructor; [exact E|constructor].
Qed.

Lemma file_activity_multiples self ev :
  Forall (fun e : nat * Frame * Tick => (e.1.1 mod FILE_FRAME_SKIP = 0)%nat)
         ev ->
  Forall (fun a : nat * Frame * list Detection =>
            (a.1.1 mod FILE_FRAME_SKIP = 0)%nat /\ a.2 <> [])
         (file_activity self ev).
Proof.
  induction 1 as [|e rest He Hr IH]; simpl; [constructor|].
  destruct (found self e) as [dets|]; [|constructor].
  apply Forall_app. split; [|exact IH].
  destruct dets as [|d ds]; simpl; [constructor|].
  constructor; [|constructor]. split; [exact He|discriminate].
Qed.

Lemma file_records_spec (fps : Num) act :
  forall i,
  map seq (file_records fps i act) = List.seq i (length act) /\
  length (file_records fps i act) = length act /\
  (Forall (fun a : nat * Frame * list Detection =>
             (a.1.1 mod FILE_FRAME_SKIP = 0)%nat /\ a.2 <> []) act ->
   Forall (fun r => (frame_number r mod FILE_FRAME_SKIP = 0)%nat /\
                    timestamp r = truediv (frame_number r) fps /\
                    detections r <> [])
          (file_records fps i act)).
Proof.
  induction act as [|[[n frame] dets] rest IH]; intros i; simpl.
  - repeat split; constructor.
  - destruct (IH (S i)) as (I1 & I2 & I3). rewrite I1, I2.
    split; [reflexivity|]. split; [reflexivity|].
    intros H. apply Forall_cons in H. destruct H as [[H1 H2] H3].
    constructor; [|apply I3; exact H3]. simpl in *.
    split; [exact H1|]. split; [reflexivity|].
    destruct dets; [contradiction|discriminate].
Qed.

Lemma file_activity_nonempty self ev :
  detection_raises ev = false ->
  (file_activity self ev <> [] <->
   Exists (fun e => exists dets, found self e = Some dets /\ dets <> []) ev).
Proof.
  induction ev as [|e rest IH];
    cbn [file_activity detection_raises existsb]; intros Hr.
  - split; [intros H; contradiction|intros H; inversion H].
  - apply orb_false_iff in Hr. destruct Hr as [He Hr].
    specialize (IH Hr).
    destruct (found self e) as [dets|] eqn:Ef.
    2:{ unfold found in Ef. destruct (tick_results e.2); discriminate. }
    destruct dets as [|d ds]; cbn [nonempty app].
    + rewrite IH. split; intros H.
      * apply Exists_cons. right. exact H.
      * apply Exists_cons in H. destruct H as [(dets & E & Hne)|H];
          [|exact H].
        rewrite Ef in E. injection E as <-. contradiction.
    + split; intros _; [|discriminate].
      apply Exists_cons. left. exists (d :: ds).
      split; [exact Ef|discriminate].
Qed.

(** X8: file mode sends at most one episode, after the last frame. If the
    file cannot be opened the loop raises without emitting anything. It
    counts every frame it reads and hands every tenth
    ([FILE_FRAME_SKIP] = 10) to the detection model; each of these on which
    something is found is printed as an event. If the detection call raises,
    the loop ends with that error and the frames accumulated so far are not
    sent. Otherwise it has read the whole file and sends one episode exactly
    when some evaluated frame had a detection, as its last output: the
    episode has no size cap and holds exactly those frames, in order,
    numbered from 0, each with its image, its boxes, its frame number and
    the timestamp frame number / frame rate (rounded to the nearest double;
    a frame rate of 0 counts as 30), with a summary that counts its
    boxes. *)
Theorem file_mode_sends_one_episode (TE : bool) (cap_fps : Q)
    (self : Detector) (opened : bool) (reads : list (Frame * Tick))
    (final : Transport) :
  let r := _run_file_loop TE cap_fps self opened reads final in
  let fps := if Qeq_bool cap_fps 0 then PyInt 30 else PyFloat cap_fps in
  let ev := file_evaluated (frame_count self) reads in
  let act := file_activity self ev in
  let records := file_records fps 0 act in
  FILE_FRAME_SKIP = 10%nat /\
  (opened = false -> r = (self, [], Some RuntimeError_open_failed)) /\
  (opened = true ->
   events r.1.2 = map file_event act /\
   if detection_raises ev
   then r.2 = Some DetectionError /\ sent_episodes r.1.2 = []
   else
     r.2 = None /\
     frame_count r.1.1 = (frame_count self + length reads)%nat /\
     (records <> [] <->
      Exists (fun e => exists dets, found self e = Some dets /\ dets <> [])
             ev) /\
     exists summary,
       summary_counts records summary /\
       sent_with_summary r.1.2
         = (if nonempty records then [(records, summary)] else []) /\
       (records <> [] ->
        last r.1.2
          = Some (SendEpisode records summary
                    (_send_episode r.1.1 records summary final).1
                    (_send_episode r.1.1 records summary final).2))) /\
  numbered records /\
  Forall (fun r => (frame_number r mod FILE_FRAME_SKIP = 0)%nat /\
                   timestamp r = truediv (frame_number r) fps /\
                   detections r <> [])
         records.
Proof.
  cbv zeta. split; [reflexivity|]. split; [intros ->; reflexivity|].
  set (fps := if Qeq_bool cap_fps 0 then PyInt 30 else PyFloat cap_fps).
  set (ev := file_evaluated (frame_count self) reads).
  set (act := file_activity self ev).
  pose proof (file_records_spec fps act 0) as (Rn & Rl & Rf).
  split; [|split;
    [unfold numbered; rewrite Rn, Rl; reflexivity
    |apply Rf, file_activity_multiples, file_evaluated_multiples]].
  intros ->. unfold _run_file_loop. cbn [negb]. fold fps.
  pose proof (file_loop_spec TE fps reads self [] ∅) as L.
  destruct (file_loop TE fps self [] ∅ reads)
    as [[[[self1 frames] summary] outs] raised].
  cbv zeta in L. cbn [fst snd] in L. fold ev act in L.
  destruct L as (L1 & L2 & L3 & L4 & L5 & L6); [intros c; reflexivity|].
  cbn [app length] in L2. subst frames raised.
  destruct (detection_raises ev) eqn:Er; cbn [fst snd].
  { split; [exact L4|]. split; [reflexivity|exact L5]. }
  assert (Hne : file_records fps 0 act <> [] <-> act <> []).
  { split; intros H E; apply H.
    - rewrite E. reflexivity.
    - apply (f_equal length) in E. rewrite Rl in E.
      destruct act; [reflexivity|discriminate]. }
  assert (Hs0 : sent_with_summary outs = []).
  { rewrite sent_episodes_of_summary in L5.
    destruct (sent_with_summary outs); [reflexivity|discriminate]. }
  destruct (file_records fps 0 act) as [|f fs] eqn:Erec;
    cbn [nonempty fst snd].
  - split; [exact L4|]. split; [reflexivity|].
    split; [apply L6; reflexivity|]. split.
    { rewrite Hne. apply file_activity_nonempty. exact Er. }
    exists summary. split; [exact L3|]. split; [exact Hs0|].
    intros H. contradiction.
  - destruct (_send_episode self1 (f :: fs) summary final) as [io sent] eqn:Es.
    cbn [fst snd]. rewrite events_app. simpl. rewrite app_nil_r.
    split; [exact L4|]. split; [reflexivity|].
    split; [apply L6; reflexivity|]. split.
    { rewrite Hne. apply file_activity_nonempty. exact Er. }
    exists summary. split; [exact L3|].
    rewrite sent_with_summary_app, Hs0. split; [reflexivity|].
    intros _. rewrite last_snoc, Es. reflexivity.
Qed.

(** A 30 fps file of twenty frames that all show a person: frames 10 and 20
    are evaluated and sent as one episode. *)
Example file_of_twenty_frames :
  let r :=
    _run_file_loop false 30 live_detector true
      (repeat (sample_frame, activity_tick 1) 20) all_ok in
  map (map (fun x => (seq x, frame_number x, timestamp x)))
      (sent_episodes r.1.2)
  = [[(0%nat, 10%nat, (6004799503160661 # 18014398509481984)%Q);
      (1%nat, 20%nat, (6004799503160661 # 9007199254740992)%Q)]].
Proof. vm_compute. reflexivity. Qed.

(** ** Reconnection *)

Lemma http_polling_session_exit (TE : bool) self polls final :
  run_exit (_http_polling_session TE self polls final) = None \/
  run_exit (_http_polling_session TE self polls final)
  = Some RuntimeError_too_many_failures.
Proof.
  unfold _http_polling_session.
  destruct (polling_loop TE self initial_session polls)
    as [[self1 loc1] outs].
  destruct (send_pending self1 loc1 final) as [loc2 outs2].
  unfold run_exit. cbn [snd].
  destruct (MAX_FAILURES <=? _)%nat; [right|left]; reflexivity.
Qed.

Lemma run_sessions_length (TE : bool) sessions :
  forall self, length (run_sessions TE self sessions) = length sessions.
Proof.
  induction sessions as [|[polls final] rest IH]; intros self; simpl.
  - reflexivity.
  - rewrite IH. reflexivity.
Qed.

Lemma http_loop_spec (TE : bool) sessions :
  forall self n,
  (n <= max_reconnects)%nat ->
  let r := _run_http_loop TE self n sessions in
  let ran := take (length r.1.2) (run_sessions TE self sessions) in
  exists c,
    r.2 = (n + c)%nat /\ (n + c <= max_reconnects)%nat /\
    r.1.2 = map run_exit ran /\
    r.1.1.2 = concat (map run_outputs ran) /\
    r.1.1.1 = from_option run_detector self (last ran) /\
    (r.1.2 = repeat (Some RuntimeError_too_many_failures) c ++ [None] \/
     r.1.2 = repeat (Some RuntimeError_too_many_failures) c /\
     ((n + c)%nat = max_reconnects \/ c = length sessions)).
Proof.
  induction sessions as [|[polls final] rest IH]; intros self n Hn.
  - exists 0%nat. simpl. rewrite Nat.add_0_r.
    repeat split; try reflexivity; try assumption.
    right. split; [reflexivity|right; reflexivity].
  - cbn [_run_http_loop run_sessions].
    destruct (n <? max_reconnects)%nat eqn:E.
    2:{ apply Nat.ltb_ge in E. exists 0%nat. simpl. rewrite Nat.add_0_r.
        repeat split; try reflexivity; try assumption.
        right. split; [reflexivity|left; lia]. }
    apply Nat.ltb_lt in E.
    pose proof (http_polling_session_exit TE self polls final) as Hx.
    destruct (_http_polling_session TE self polls final)
      as [[[self1 loc1] outs] exn] eqn:Es.
    unfold run_exit in Hx. cbn [fst snd] in Hx.
    destruct Hx as [->| ->].
    + exists 0%nat. cbn [fst snd length take map concat last]. simpl.
      rewrite Nat.add_0_r, app_nil_r.
      repeat split; try reflexivity; try lia.
      left. reflexivity.
    + specialize (IH self1 (n + 1)%nat ltac:(lia)).
      destruct (_run_http_loop TE self1 (n + 1) rest)
        as [[[self2 outs'] ends] m].
      cbv zeta in IH. cbn [fst snd] in *.
      destruct IH as (c & I1 & I2 & I3 & I4 & I5 & I6).
      exists (Datatypes.S c). cbn [length take map concat repeat app].
      rewrite <- I3, <- I4.
      split; [lia|]. split; [lia|]. split; [reflexivity|].
      split; [reflexivity|]. split.
      { rewrite I5.
        destruct (take (length ends) (run_sessions TE self1 rest))
          as [|x xs]; [reflexivity|].
        rewrite last_cons_cons.
        destruct (last (x :: xs)) eqn:El; [reflexivity|].
        apply last_None in El. discriminate. }
      destruct I6 as [->|[-> I6]].
      * left. reflexivity.
      * right. split; [reflexivity|].
        destruct I6 as [I6|I6]; [left; lia|right; simpl; lia].
Qed.

Lemma http_polling_session_conserves (TE : bool) self polls final :
  delivered (run_outputs (_http_polling_session TE self polls final))
  = events (run_outputs (_http_polling_session TE self polls final)).
Proof.
  pose proof (polling_loop_episodes_inv TE self polls) as [_ _ _ _ _ Hcons].
  unfold _http_polling_session.
  destruct (polling_loop TE self initial_session polls)
    as [[self1 loc1] outs].
  cbn [fst snd] in *.
  pose proof (send_pending_outputs self1 loc1 final) as (_ & _ & _ & Hs & He).
  destruct (send_pending self1 loc1 final) as [loc2 outs2].
  unfold run_outputs. cbn [fst snd] in *.
  rewrite delivered_app, events_app, He, app_nil_r, <- Hcons. f_equal.
  unfold delivered. rewrite sent_episodes_of_summary, Hs.
  destruct (active_frames loc1); simpl; rewrite ?app_nil_r; reflexivity.
Qed.

Lemma http_loop_conserves (TE : bool) sessions :
  forall self n,
  delivered (_run_http_loop TE self n sessions).1.1.2
  = events (_run_http_loop TE self n sessions).1.1.2.
Proof.
  induction sessions as [|[polls final] rest IH]; intros self n; simpl.
  - reflexivity.
  - destruct (n <? max_reconnects)%nat; [|reflexivity].
    pose proof (http_polling_session_conserves TE self polls final) as Hs.
    destruct (_http_polling_session TE self polls final)
      as [[[self1 loc1] outs] exn].
    unfold run_outputs in Hs. cbn [fst snd] in Hs.
    destruct exn as [e|]; [|exact Hs].
    specialize (IH self1 (n + 1)%nat).
    destruct (_run_http_loop TE self1 (n + 1) rest)
      as [[[self2 outs'] ends] m].
    cbn [fst snd] in *. rewrite delivered_app, events_app, Hs, IH.
    reflexivity.
Qed.

(** X9: the HTTP polling pipeline runs its sessions one after the other,
    each on the detector the one before it left, and emits what they emit,
    in order. It reconnects after every failed session: each session it ran
    but the last ended in the too-many-failures error, and it stops only
    when a session returns (the detector was stopped), when the detector is
    stopped between two sessions, or when [reconnect_count], the number of
    failed sessions, has reached [max_reconnects] = 100, and never before:
    if every session fails, it runs the first hundred of them, or all of
    them if they are fewer. Over all the sessions it runs, every activity
    frame is delivered exactly once. *)
Theorem http_loop_gives_up_after_100_reconnects (TE : bool)
    (self : Detector) (sessions : list (list Poll * Transport)) :
  let r := _run_http_loop TE self 0 sessions in
  let reconnect_count := r.2 in
  let ends := r.1.2 in
  let ran := take (length ends) (run_sessions TE self sessions) in
  max_reconnects = 100%nat /\
  (reconnect_count <= 100)%nat /\
  ends = map run_exit ran /\
  r.1.1.2 = concat (map run_outputs ran) /\
  r.1.1.1 = from_option run_detector self (last ran) /\
  (ends = repeat (Some RuntimeError_too_many_failures) reconnect_count
          ++ [None] \/
   ends = repeat (Some RuntimeError_too_many_failures) reconnect_count /\
   (reconnect_count = 100%nat \/ reconnect_count = length sessions)) /\
  (Forall (fun s => run_exit s <> None) (run_sessions TE self sessions) ->
   length ends = Nat.min (length sessions) 100 /\
   reconnect_count = Nat.min (length sessions) 100) /\
  delivered r.1.1.2 = events r.1.1.2.
Proof.
  cbv zeta. split; [reflexivity|].
  destruct (http_loop_spec TE sessions self 0)
    as (c & H1 & H2 & H3 & H4 & H5 & H6);
    [unfold max_reconnects; lia|].
  cbv zeta in *. rewrite Nat.add_0_l in H1, H2, H6. rewrite H1.
  unfold max_reconnects in H2, H6.
  split; [exact H2|]. split; [exact H3|]. split; [exact H4|].
  split; [exact H5|]. split; [exact H6|].
  split; [|apply http_loop_conserves].
  intros Hall.
  pose proof (f_equal length H3) as Hlen.
  rewrite length_map, length_take, run_sessions_length in Hlen.
  destruct H6 as [H6|[H6 H7]].
  - exfalso.
    assert (Hends : Forall (fun e : option Exn => e <> None)
                      (_run_http_loop TE self 0 sessions).1.2).
    { rewrite H3. apply Forall_fmap, Forall_take. exact Hall. }
    rewrite H6 in Hends. apply Forall_app in Hends.
    destruct Hends as [_ Hends]. apply Forall_cons in Hends.
    destruct Hends as [Hends _]. congruence.
  - rewrite H6, repeat_length in Hlen. rewrite H6, repeat_length. lia.
Qed.

(** An endpoint that never answers: of 101 sessions of twenty failed polls
    each, the loop runs a hundred and emits nothing. *)
Example unreachable_endpoint_101_sessions :
  let r :=
    _run_http_loop false http_detector 0
      (repeat (repeat FetchNone 20, all_ok) 101) in
  r.2 = 100%nat /\ length r.1.2 = 100%nat /\ r.1.1.2 = [].
Proof. vm_compute. repeat split. Qed.

Lemma process_stream_all_reads_fail (TE : bool) self n pending final :
  (max_failures <= n)%nat ->
  _process_stream TE self (repeat ReadFailed n) pending final
  = (self, set_consecutive_failures max_failures initial_session, [],
     Some RuntimeError_too_many_failures).
Proof.
  intros Hn. unfold _process_stream.
  rewrite stream_loop_all_reads_fail by (simpl; lia).
  cbn [consecutive_failures set_consecutive_failures].
  rewrite Nat.leb_refl. reflexivity.
Qed.

(** X10: the live pipeline never gives up on its camera: however many
    times in a row the capture fails to open or the session ends on thirty
    failed reads, the next connection attempt is still made, nothing is
    emitted, and the detector is left as it was. *)
Theorem live_loop_retries_without_bound (TE : bool) (self : Detector)
    (attempts : list Attempt) :
  Forall unreachable_camera attempts ->
  let r := _run_stream_loop TE self attempts in
  length r.2 = length attempts /\
  Forall (fun e => e = Some RuntimeError_open_failed \/
                   e = Some RuntimeError_too_many_failures) r.2 /\
  r.1.2 = [] /\ r.1.1 = self.
Proof.
  induction 1 as [|a rest Ha Hrest IH]; cbv zeta.
  - simpl. repeat split. constructor.
  - cbv zeta in IH. cbn [_run_stream_loop].
    destruct (att_opened a) eqn:Eo; cbn [negb].
    + destruct Ha as [Ha|(n & Hn & Hr)]; [congruence|].
      rewrite Hr, process_stream_all_reads_fail by exact Hn.
      destruct (_run_stream_loop TE self rest) as [[self2 outs] ends].
      cbn [fst snd length] in *. destruct IH as (I1 & I2 & I3 & I4).
      rewrite I1, I3. repeat split; [|exact I4].
      constructor; [right; reflexivity|exact I2].
    + destruct (_run_stream_loop TE self rest) as [[self2 outs] ends].
      cbn [fst snd length] in *. destruct IH as (I1 & I2 & I3 & I4).
      rewrite I1. repeat split; [|exact I3|exact I4].
      constructor; [left; reflexivity|exact I2].
Qed.

(** ** Command line *)



(** ** A run of the alert gate *)

Lemma send_telegram_alert_delivered (TE : bool) self dets now send :
  let r := _send_telegram_alert TE self dets now send in
  if alert_delivered r.2
  then (last_alert_time self + ALERT_COOLDOWN <= now)%Q /\
       last_alert_time r.1 = now /\ send = AlertReturned /\ TE = true
  else r.1 = self.
Proof.
  cbv zeta. rewrite send_telegram_alert_cases.
  destruct TE; simpl; [|reflexivity].
  destruct (Qle_bool ALERT_COOLDOWN (now - last_alert_time self)) eqn:E;
    [|reflexivity].
  apply Qle_bool_iff in E.
  destruct (List.find qualifies dets); [|reflexivity].
  destruct send; simpl; [|reflexivity].
  repeat split. lra.
Qed.

Lemma last_of_cons {A} (x : A) (l : list A) (d d' : A) :
  List.last (x :: l) d = List.last (x :: l) d'.
Proof.
  revert x. induction l as [|y l IH]; intros x; [reflexivity|].
  change (List.last (y :: l) d = List.last (y :: l) d'). apply IH.
Qed.

(** X12: however the gate is driven (any batches, any clock readings, any
    outcomes of [send_alert]), two notifications that were sent successfully
    are never less than [ALERT_COOLDOWN] = 30 seconds apart, the first of
    them comes at least 30 seconds after the initial [last_alert_time], and
    [last_alert_time] ends as the time of the last successful one. *)
Theorem successful_alerts_are_spaced (TE : bool)
    (batches : list (Q * list Detection * AlertOutcome)) (self : Detector) :
  let r := alert_run TE self batches in
  spaced (last_alert_time self) r.2 /\
  last_alert_time r.1 = List.last r.2 (last_alert_time self).
Proof.
  revert self. induction batches as [|[[now dets] send] rest IH];
    intros self; cbv zeta.
  - simpl. split; [exact I|reflexivity].
  - cbn [alert_run fst snd].
    pose proof (send_telegram_alert_delivered TE self dets now send) as H.
    cbv zeta in H.
    specialize (IH (_send_telegram_alert TE self dets now send).1).
    cbv zeta in IH. destruct IH as [IH1 IH2].
    destruct (alert_delivered (_send_telegram_alert TE self dets now send).2).
    + destruct H as (H1 & H2 & _ & _). rewrite H2 in IH1, IH2.
      cbn [app spaced]. split; [split; assumption|].
      rewrite IH2.
      destruct (alert_run TE _ rest).2 as [|q l]; [reflexivity|].
      change (List.last (q :: l) now = List.last (q :: l) (last_alert_time self)).
      apply last_of_cons.
    + rewrite H in IH1, IH2 |- *. cbn [app]. split; assumption.
Qed.

(** ** What a delivery returns and carries *)

Lemma truthy_endpoint (self : Detector) :
  truthy (endpoint self) = true ->
  endpoint self = Some (default "" (endpoint self)).
Proof. destruct (endpoint self); [reflexivity|discriminate]. Qed.

(** X13: [_send_episode] returns [True] exactly when one path took the
    episode: Redis accepted both the push and the publish, or the fallback
    POST was reached and answered 200. Whatever it sends, to the queue, to
    the topic or to the endpoint (with a 3 second timeout), is the one
    serialized episode; with neither a Redis client nor an endpoint it sends
    nothing and returns [False]. *)
Theorem send_episode_result (self : Detector) (frames : list FrameRecord)
    (summary : gmap string nat) (tr : Transport) :
  let r := _send_episode self frames summary tr in
  let payload := EpisodeJson (_serialize_episode self frames summary) in
  (r.2 = true <->
   (redis_client self = true /\ redis_raised tr = false) \/
   (reaches_fallback self tr = true /\ post_outcome tr = HttpResponse 200)) /\
  Forall (carries self payload 3) r.1 /\
  (redis_client self = false -> truthy (endpoint self) = false ->
   r = ([io_log LogNoEndpoint], false)).
Proof.
  cbv zeta. split; [|split].
  - unfold _send_episode, reaches_fallback, redis_raised.
    destruct (redis_client self), (lpush_outcome tr), (publish_outcome tr),
      (truthy (endpoint self)), (post_outcome tr) as [n| | |];
      cbn [fst snd andb orb negb];
      try (destruct (n =? 200)%nat eqn:E;
           [apply Nat.eqb_eq in E; subst n|apply Nat.eqb_neq in E]);
      cbn [fst snd];
      (split; [intros H; try discriminate H; auto
              |intros [[H1 H2]|[H1 H2]]; try discriminate; try reflexivity;
               try (injection H2 as H2; congruence)]).
  - unfold _send_episode.
    destruct (truthy (endpoint self)) eqn:Et.
    + pose proof (truthy_endpoint self Et) as He.
      destruct (redis_client self), (lpush_outcome tr), (publish_outcome tr),
        (post_outcome tr) as [n| | |];
        cbn [fst snd negb app];
        try (destruct (n =? 200)%nat);
        repeat (constructor; [cbn; auto|]); constructor.
    + destruct (redis_client self), (lpush_outcome tr), (publish_outcome tr);
        cbn [fst snd negb app];
        repeat (constructor; [cbn; auto|]); constructor.
  - intros Hr He. unfold _send_episode. rewrite Hr, He. reflexivity.
Qed.

(** ** The capture handle *)






Lemma live_loop_retries_without_bound_witness :
  let attempts :=
    [mkAttempt false [] all_ok all_ok;
     mkAttempt true (repeat ReadFailed 30) all_ok all_ok;
     mkAttempt false [] all_ok all_ok] in
  Forall unreachable_camera attempts /\
  length (_run_stream_loop false live_detector attempts).2 = 3%nat.
Proof.
  intros attempts.
  assert (H : Forall unreachable_camera attempts).
  { apply Forall_cons. split; [left; reflexivity|].
    apply Forall_cons. split.
    { right. exists 30%nat. split; [apply Nat.le_refl|reflexivity]. }
    apply Forall_cons. split; [left; reflexivity|]. apply Forall_nil. exact I. }
  split; [exact H|].
  exact (proj1 (live_loop_retries_without_bound false live_detector attempts H)).
Defined.

(** ** Giving up on the snapshot endpoint *)

Lemma polling_body_failures (TE : bool) self loc p :
  consecutive_failures (polling_body TE self loc p).1.2
  = match p with
    | FetchNone => (consecutive_failures loc + 1)%nat
    | Snapshot _ k =>
        match tick_results k with None => 1%nat | Some _ => 0%nat end
    end.
Proof.
  unfold polling_body. destruct p as [|frame k]; [reflexivity|].
  destruct (tick_results k) as [results|]; [|reflexivity].
  destruct (_detect_frame _ results) as [self1 dets].
  rewrite segment_failures. reflexivity.
Qed.

Lemma polling_loop_failure_run (TE : bool) polls :
  forall self loc,
  (consecutive_failures loc <= MAX_FAILURES)%nat ->
  (MAX_FAILURES
   <= consecutive_failures (polling_loop TE self loc polls).1.2)%nat ->
  (exists post,
     polls = repeat FetchNone (MAX_FAILURES - consecutive_failures loc)
             ++ post) \/
  (exists pre first post,
     polls = pre ++ first :: repeat FetchNone (MAX_FAILURES - 1) ++ post /\
     poll_failed first = true).
Proof.
  induction polls as [|p rest IH]; intros self loc Hle Hmax.
  - left. exists []. simpl in Hmax.
    replace (MAX_FAILURES - consecutive_failures loc)%nat with 0%nat by lia.
    reflexivity.
  - cbn [polling_loop] in Hmax.
    destruct (consecutive_failures loc <? MAX_FAILURES)%nat eqn:E.
    2:{ apply Nat.ltb_ge in E. left. exists (p :: rest).
        replace (MAX_FAILURES - consecutive_failures loc)%nat with 0%nat
          by lia.
        reflexivity. }
    apply Nat.ltb_lt in E.
    pose proof (polling_body_failures TE self loc p) as Hb.
    destruct (polling_body TE self loc p) as [[self1 loc1] o1].
    cbn [fst snd] in Hb.
    specialize (IH self1 loc1).
    destruct (polling_loop TE self1 loc1 rest) as [[s2 l2] o2].
    cbn [fst snd] in *.
    destruct p as [|frame k].
    + destruct IH as [(post & ->)|(pre & first & post & -> & Hf)];
        [lia|exact Hmax| |].
      * left. exists post. rewrite Hb.
        replace (MAX_FAILURES - consecutive_failures loc)%nat
          with (Datatypes.S (MAX_FAILURES - (consecutive_failures loc + 1)))
          by lia.
        reflexivity.
      * right. exists (FetchNone :: pre), first, post.
        split; [reflexivity|exact Hf].
    + destruct IH as [(post & ->)|(pre & first & post & -> & Hf)];
        [destruct (tick_results k); unfold MAX_FAILURES; lia|exact Hmax| |].
      * right. rewrite Hb. destruct (tick_results k) as [results|] eqn:Ek.
        -- exists [Snapshot frame k], FetchNone, post.
           split; [|reflexivity]. rewrite Nat.sub_0_r. reflexivity.
        -- exists [], (Snapshot frame k), post. split; [reflexivity|].
           simpl. rewrite Ek. reflexivity.
      * right. exists (Snapshot frame k :: pre), first, post.
        split; [reflexivity|exact Hf].
Qed.

(** X15: a polling session gives up (raises the too-many-failures error) only
    after [MAX_FAILURES] = 20 failed polls in a row, of which the last
    nineteen fetched no snapshot: a fetched snapshot resets the counter, to
    0 when it is processed and to 1 when its detection call raises. *)
Theorem polling_session_gives_up_after_20_failures (TE : bool)
    (self : Detector) (polls : list Poll) (final : Transport) :
  MAX_FAILURES = 20%nat /\
  (run_exit (_http_polling_session TE self polls final)
     = Some RuntimeError_too_many_failures ->
   exists pre first post,
     polls = pre ++ first :: repeat FetchNone 19 ++ post /\
     poll_failed first = true).
Proof.
  split; [reflexivity|]. intros Hexit.
  pose proof (polling_loop_failure_run TE polls self initial_session) as H.
  unfold _http_polling_session in Hexit.
  destruct (polling_loop TE self initial_session polls)
    as [[self1 loc1] outs].
  cbn [fst snd] in *.
  destruct (MAX_FAILURES <=? consecutive_failures loc1)%nat eqn:E.
  - apply Nat.leb_le in E.
    destruct H as [(post & ->)|H];
      [simpl; unfold MAX_FAILURES; lia|exact E| |exact H].
    exists [], FetchNone, post. split; reflexivity.
  - destruct (send_pending self1 loc1 final).
    unfold run_exit in Hexit. discriminate Hexit.
Qed.

(** ** The silence threshold in general *)

(** X16: in both modes an open episode closes exactly at the
    [SILENCE_THRESHOLD]-th consecutive silent frame (15 live, 6 polling) and
    is sent with the frames it held; an activity frame that arrives earlier
    resets the silence counter and nothing is sent; and while the buffer is
    empty (idle, or the continuation left by a cap flush) silent frames send
    nothing and leave the start time as it is, however many they are. *)
Theorem episode_closes_at_silence_threshold (S M : nat) (TE : bool)
    (loc : Session) :
  STREAM_SILENCE_THRESHOLD = 15%nat /\ POLL_SILENCE_THRESHOLD = 6%nat /\
  (forall sil,
     active_frames loc <> [] -> silence_counter loc = 0%nat ->
     Forall is_silent sil -> length sil = S -> (0 < S)%nat ->
     let r := segment_frames S M TE loc sil in
     map sent_episodes r.2 = repeat [] (S - 1) ++ [[active_frames loc]] /\
     active_frames r.1 = [] /\ episode_start_time r.1 = None /\
     silence_counter r.1 = 0%nat) /\
  (forall sil p,
     silence_counter loc = 0%nat ->
     Forall is_silent sil -> (length sil < S)%nat -> has_activity p ->
     (length (active_frames loc) + 1 < M)%nat ->
     let r := segment_frames S M TE loc (sil ++ [p]) in
     map sent_episodes r.2 = repeat [] (length sil + 1) /\
     active_frames r.1
       = active_frames loc ++ [record_of (length (active_frames loc)) p] /\
     silence_counter r.1 = 0%nat) /\
  (forall sil,
     active_frames loc = [] -> Forall is_silent sil ->
     let r := segment_frames S M TE loc sil in
     map sent_episodes r.2 = repeat [] (length sil) /\
     active_frames r.1 = [] /\
     episode_start_time r.1 = episode_start_time loc).
Proof.
  split; [reflexivity|]. split; [reflexivity|]. split; [|split].
  - intros sil Hne Hs0 Hsil Hlen HS r. subst r.
    destruct S as [|S']; [lia|].
    destruct (snoc_of_length S' sil Hlen) as (init & q & -> & Hinit).
    apply Forall_app in Hsil. destruct Hsil as [Hi Hq].
    apply Forall_inv in Hq. unfold is_silent in Hq.
    rewrite segment_frames_app.
    rewrite (silent_run (Datatypes.S S') M TE init loc Hi) by (left; lia).
    cbn [fst snd segment_frames]. rewrite Hq, segment_silence.
    cbn [silence_counter active_frames detections_summary episode_count
         episode_start_time consecutive_failures].
    assert (Hb : nonempty (active_frames loc) = true)
      by (destruct (active_frames loc); [congruence|reflexivity]).
    rewrite Hb, Hs0, Hinit.
    replace (Datatypes.S S' <=? 0 + S' + 1)%nat with true
      by (symmetry; apply Nat.leb_le; lia).
    cbn [andb fst snd]. rewrite map_app, map_repeat. simpl.
    rewrite Nat.sub_0_r. repeat split.
  - intros sil p Hs0 Hsil Hlen Hp Hcap r. subst r.
    rewrite segment_frames_app.
    rewrite (silent_run S M TE sil loc Hsil) by (left; lia).
    cbn [fst snd].
    pose proof (activity_run S M TE [p]
                  (mkSession (active_frames loc) (detections_summary loc)
                     (silence_counter loc + length sil)
                     (episode_start_time loc) (episode_count loc)
                     (consecutive_failures loc))) as A.
    cbv zeta in A. cbn [active_frames length] in A.
    destruct A as (A1 & _ & A3 & _ & A5);
      [constructor; [exact Hp|constructor]|lia|].
    rewrite map_app, map_repeat, A5, A1, A3. simpl.
    rewrite repeat_app. simpl. repeat split.
  - intros sil Hnil Hsil r. subst r.
    rewrite (silent_run S M TE sil loc Hsil) by (right; exact Hnil).
    cbn [fst snd active_frames episode_start_time].
    rewrite map_repeat. simpl. repeat split. exact Hnil.
Qed.

Lemma episode_closes_at_silence_threshold_witness :
  let loc := mkSession [lost_camera_record] ∅ 0 (Some 3%Q) 0 0 in
  let sil := repeat (silent_frame 6) 6 in
  active_frames loc <> [] /\ silence_counter loc = 0%nat /\
  Forall is_silent sil /\ length sil = POLL_SILENCE_THRESHOLD /\
  map sent_episodes
    (segment_frames POLL_SILENCE_THRESHOLD POLL_MAX_EPISODE_FRAMES false loc
       sil).2
  = repeat [] (POLL_SILENCE_THRESHOLD - 1) ++ [[active_frames loc]].
Proof.
  intros loc sil.
  assert (H1 : active_frames loc <> []) by discriminate.
  assert (H3 : Forall is_silent sil)
    by (apply Forall_repeat_intro; reflexivity).
  assert (H5 : (0 < POLL_SILENCE_THRESHOLD)%nat)
    by (unfold POLL_SILENCE_THRESHOLD; lia).
  split; [exact H1|]. split; [reflexivity|]. split; [exact H3|].
  split; [reflexivity|].
  exact (proj1 (proj1 (proj2 (proj2
           (episode_closes_at_silence_threshold POLL_SILENCE_THRESHOLD
              POLL_MAX_EPISODE_FRAMES false loc)))
           sil H1 eq_refl H3 eq_refl H5)).
Defined.

(** ** The per-frame event *)

Lemma detect_frame_allowed self results :
  Forall (fun d => det_class d ∈ ALLOWED_CLASSES) (_detect_frame self results).2.
Proof.
  unfold _detect_frame.
  destruct (detect_results_spec results self []) as (new & E & _ & H).
  cbv zeta in E. simpl in E. rewrite E.
  eapply Forall_impl; [exact H|]. intros d [Hd _]. exact Hd.
Qed.

Lemma relevant_of_allowed (c : string) :
  c ∈ ALLOWED_CLASSES ->
  (bool_decide (lower c ∈ ["person"; "car"]) = true /\
   (c = "person" \/ c = "car")) \/
  (bool_decide (lower c ∈ ["person"; "car"]) = false /\
   c ∈ ["truck"; "motorcycle"; "bicycle"; "bus"]).
Proof.
  unfold ALLOWED_CLASSES. intros H.
  apply elem_of_cons in H. destruct H as [->|H];
    [left; split; [reflexivity|left; reflexivity]|].
  apply elem_of_cons in H. destruct H as [->|H];
    [left; split; [reflexivity|right; reflexivity]|].
  right.
  repeat (apply elem_of_cons in H; destruct H as [->|H];
          [split; [reflexivity|set_solver]|]).
  inversion H.
Qed.

(** X17: the per-frame event built for the detections [_detect_frame]
    returns lists them all, in order, with their labels, confidences and
    boxes, under the current frame number; the frame image is attached
    exactly when one of them is a person or a car, so a frame showing only
    trucks, motorcycles, bicycles or buses is reported without an image. *)
Theorem event_carries_image_for_person_or_car (self : Detector)
    (results : list (option (list RawBox))) (frame : Frame) :
  let r := _detect_frame self results in
  let e := _create_episode_data r.1 r.2 frame in
  ed_detections e = frame_boxes r.2 /\
  ed_detection_count e = length r.2 /\
  ed_frame_number e = frame_count self /\
  (ed_frame_image e = Some frame <->
   Exists (fun d => det_class d = "person" \/ det_class d = "car") r.2) /\
  (ed_frame_image e = None <->
   Forall (fun d => det_class d ∈ ["truck"; "motorcycle"; "bicycle"; "bus"])
          r.2).
Proof.
  cbv zeta.
  pose proof (detect_frame_allowed self results) as Hall.
  pose proof (detect_frame_frame_count self results) as Hfc.
  destruct (_detect_frame self results) as [self1 dets].
  cbn [fst snd] in *. unfold _create_episode_data. cbn.
  split; [reflexivity|]. split; [apply length_map|]. split; [exact Hfc|].
  induction Hall as [|d ds Hd Hds IH]; cbn [existsb].
  - split; split; intros H; try discriminate H; try reflexivity;
      try (constructor; fail); inversion H.
  - destruct (relevant_of_allowed (det_class d) Hd) as [[Hb Hc]|[Hb Hc]];
      rewrite Hb; cbn [orb].
    + split; split; try discriminate; try reflexivity.
      * intros _. left. exact Hc.
      * intros H. apply Forall_cons in H. destruct H as [H _]. exfalso.
        destruct Hc as [Hc|Hc]; rewrite Hc in H;
          repeat (apply elem_of_cons in H; destruct H as [H|H];
                  [discriminate H|]); inversion H.
    + destruct IH as [[I1 I2] [I3 I4]]. split; split.
      * intros H. right. apply I1, H.
      * intros H. apply Exists_cons in H. destruct H as [H|H]; [|apply I2, H].
        exfalso. destruct H as [H|H]; rewrite H in Hc;
          repeat (apply elem_of_cons in Hc; destruct Hc as [Hc|Hc];
                  [discriminate Hc|]); inversion Hc.
      * intros H. apply Forall_cons. split; [exact Hc|apply I3, H].
      * intros H. apply Forall_cons in H. destruct H as [_ H]. apply I4, H.
Qed.
